(** * Music-PP-2: the MIDI sequence generator

    A shallow embedding of [backend/generators/midi_generator.py]:
    the [SequenceConfig] dataclass with its dictionary round trip, the
    constant music-theory tables, and [MidiSequenceGenerator] with its
    per-bar fill loop.

    Modelling conventions.
    - Python [int] is [Z]; Python [float] is idealised as an exact
      rational [Q] (no rounding error, no infinities, no NaN).  Numeric
      comparisons of times are therefore stated with [Qeq], [Qlt], [Qle].
    - The module-level [random] generator is an explicit random source:
      a stream [nat -> Q] of uniform draws together with a cursor.  Every
      primitive of the [random] module used by the code consumes one draw.
    - Exceptions are an explicit outcome; the [while] loop of [generate]
      takes fuel, and running out of fuel is an outcome of its own, never
      confused with a Python exception.
    - The file system and standard output are a record of what was made,
      written and printed, together with the calls the platform refuses. *)

From Stdlib Require Import ZArith QArith Qround Qabs Lqa Lia.
From stdpp Require Import gmap strings list sorting.

Open Scope Z_scope.

(* ------------------------------------------------------------------ *)
(** ** Outcomes and the random-source monad *)

(** The exception classes that occur; [OSError] and [ValueError] stand
    for the classes with their subclasses ([FileNotFoundError],
    [PermissionError]; [UnicodeEncodeError]). *)
Inductive pyerr : Type :=
  | KeyError
  | IndexError
  | TypeError
  | ZeroDivisionError
  | OSError
  | ValueError.

Inductive outcome (A : Type) : Type :=
  | Ok (a : A)
  | Raise (e : pyerr)
  | OutOfFuel.

Arguments Ok {A} a.
Arguments Raise {A} e.
Arguments OutOfFuel {A}.

Definition outcome_map {A B : Type} (f : A -> B) (o : outcome A) : outcome B :=
  match o with
  | Ok a => Ok (f a)
  | Raise e => Raise e
  | OutOfFuel => OutOfFuel
  end.

(** The random source: draw number [n] of the run is [rnd n]. *)
Definition RandomSource := nat -> Q.

(** A draw as [random.random()] produces it: a number of [[0, 1)]. *)
Definition valid_draws (rnd : RandomSource) : Prop :=
  forall n : nat, (0 <= rnd n)%Q /\ (rnd n < 1)%Q.

(** A computation reads the source from a cursor and moves the cursor. *)
Definition Rand (A : Type) : Type := RandomSource -> nat -> outcome (A * nat).

Definition ret {A : Type} (a : A) : Rand A :=
  fun _ pos => Ok (a, pos).

Definition bind {A B : Type} (m : Rand A) (k : A -> Rand B) : Rand B :=
  fun rnd pos =>
    match m rnd pos with
    | Ok (a, pos') => k a rnd pos'
    | Raise e => Raise e
    | OutOfFuel => OutOfFuel
    end.

Definition raise {A : Type} (e : pyerr) : Rand A :=
  fun _ _ => Raise e.

Definition out_of_fuel {A : Type} : Rand A :=
  fun _ _ => OutOfFuel.

Definition lift {A : Type} (o : outcome A) : Rand A :=
  fun _ pos =>
    match o with
    | Ok a => Ok (a, pos)
    | Raise e => Raise e
    | OutOfFuel => OutOfFuel
    end.

Notation "'do' x <- m ; k" := (bind m (fun x => k))
  (at level 10, x name, m at level 100, k at level 200).

(* ------------------------------------------------------------------ *)
(** ** Arithmetic of the idealised floats *)

Definition Qlt_bool (x y : Q) : bool := negb (Qle_bool y x).

(** Python's [min(a, b)] returns [a] unless [b < a]. *)
Definition py_min (a b : Q) : Q := if Qlt_bool b a then b else a.

(** Python's [max(a, b)] returns [a] unless [b > a]. *)
Definition py_max (a b : Q) : Q := if Qlt_bool a b then b else a.

(** [round(x, 2)]: the nearest multiple of 1/100, an exact half going to
    the even neighbour.  Python rounds the binary float, not the decimal
    it was written as, so where the rational is an exact half of a
    hundredth (0.075) the float may fall on either side; the statements
    about [duration_seconds] below hold for both neighbours. *)
Definition round_half_even (x : Q) : Z :=
  let f := Qfloor x in
  let d := (x - inject_Z f)%Q in
  if Qlt_bool d (1 # 2) then f
  else if Qlt_bool (1 # 2) d then f + 1
  else if Z.even f then f else f + 1.

Definition py_round2 (x : Q) : Q :=
  (inject_Z (round_half_even (x * 100)) / 100)%Q.

(* ------------------------------------------------------------------ *)
(** ** The [random] module *)

(** [random.random()] *)
Definition random : Rand Q :=
  fun rnd pos => Ok (rnd pos, S pos).

(** [random.uniform(a, b)] is [a + (b - a) * random()]. *)
Definition uniform (a b : Q) : Rand Q :=
  do u <- random; ret (a + (b - a) * u)%Q.

(** [random.randint(a, b)]: a uniform integer of [[a, b]]. *)
Definition randint (a b : Z) : Rand Z :=
  do u <- random; ret (a + Qfloor (u * inject_Z (b - a + 1))).

(** [random.choice(seq)]: the element at a uniform index; an empty
    sequence raises [IndexError]. *)
Definition choice {A : Type} (l : list A) : Rand A :=
  do u <- random;
  match l !! Z.to_nat (Qfloor (u * inject_Z (Z.of_nat (length l)))) with
  | Some x => ret x
  | None => raise IndexError
  end.

(** [itertools.accumulate(weights)] *)
Fixpoint accumulate (acc : Q) (ws : list Q) : list Q :=
  match ws with
  | [] => []
  | w :: ws' => (acc + w)%Q :: accumulate (acc + w)%Q ws'
  end.

(** [bisect.bisect(a, x, 0, hi)] on a nondecreasing list: the number of
    entries among the first [hi] that are [<= x]. *)
Fixpoint bisect (a : list Q) (x : Q) (hi : nat) : nat :=
  match hi, a with
  | S hi', c :: a' => if Qle_bool c x then S (bisect a' x hi') else O
  | _, _ => O
  end.

(** [random.choices(population, weights=weights, k=1)[0]] *)
Definition choices {A : Type} (population : list A) (weights : list Q) : Rand A :=
  let cum_weights := accumulate 0 weights in
  let total := List.last cum_weights 0%Q in
  let hi := (length population - 1)%nat in
  do u <- random;
  match population !! bisect cum_weights (u * total)%Q hi with
  | Some x => ret x
  | None => raise IndexError
  end.

(* ------------------------------------------------------------------ *)
(** ** Music theory constants *)

(** A dictionary literal, in source order. *)
Fixpoint dict_get {V : Type} (d : list (string * V)) (k : string) : option V :=
  match d with
  | [] => None
  | (k', v) :: d' => if String.eqb k k' then Some v else dict_get d' k
  end.

(** [d[k]], raising [KeyError] when the key is absent. *)
Definition dict_index {V : Type} (d : list (string * V)) (k : string) : outcome V :=
  match dict_get d k with
  | Some v => Ok v
  | None => Raise KeyError
  end.

Definition SCALE_INTERVALS : list (string * list Z) :=
  [ ("major",            [0; 2; 4; 5; 7; 9; 11]);
    ("minor",            [0; 2; 3; 5; 7; 8; 10]);
    ("pentatonic_major", [0; 2; 4; 7; 9]);
    ("pentatonic_minor", [0; 3; 5; 7; 10]);
    ("blues",            [0; 3; 5; 6; 7; 10]);
    ("dorian",           [0; 2; 3; 5; 7; 9; 10]);
    ("mixolydian",       [0; 2; 4; 5; 7; 9; 10]) ].

Definition KEY_OFFSETS : list (string * Z) :=
  [ ("C", 0);  ("C#", 1); ("Db", 1);
    ("D", 2);  ("D#", 3); ("Eb", 3);
    ("E", 4);  ("F", 5);  ("F#", 6);
    ("Gb", 6); ("G", 7);  ("G#", 8);
    ("Ab", 8); ("A", 9);  ("A#", 10);
    ("Bb", 10); ("B", 11) ].

Definition RHYTHM_PATTERNS : list (string * option (list Q)) :=
  [ ("straight",   Some [1; 1; 1; 1]%Q);
    ("dotted",     Some [1.5; 0.5; 1.5; 0.5]%Q);
    ("syncopated", Some [0.5; 1; 1.5; 0.5; 0.5]%Q);
    ("triplet",    Some [0.667; 0.667; 0.667]%Q);
    ("waltz",      Some [1.5; 0.75; 0.75]%Q);
    ("swing",      Some [0.75; 0.25; 0.75; 0.25]%Q);
    ("mixed",      None) ].

Definition NOTE_DURATIONS : list (string * Q) :=
  [ ("whole",          4%Q);
    ("half",           2%Q);
    ("quarter",        1%Q);
    ("eighth",         0.5%Q);
    ("sixteenth",      0.25%Q);
    ("dotted_quarter", 1.5%Q);
    ("dotted_eighth",  0.75%Q) ].

Definition DURATION_PROFILES : list (string * list (string * Q)) :=
  [ ("low",    [ ("quarter", 0.7%Q); ("half", 0.2%Q); ("eighth", 0.1%Q) ]);
    ("medium", [ ("quarter", 0.4%Q); ("half", 0.15%Q); ("eighth", 0.25%Q);
                 ("dotted_quarter", 0.1%Q); ("sixteenth", 0.1%Q) ]);
    ("high",   [ ("quarter", 0.2%Q); ("half", 0.1%Q); ("eighth", 0.2%Q);
                 ("sixteenth", 0.2%Q); ("dotted_quarter", 0.15%Q);
                 ("dotted_eighth", 0.1%Q); ("whole", 0.05%Q) ]) ].

(* ------------------------------------------------------------------ *)
(** ** The configuration dataclass *)

Record SequenceConfig : Type := {
  key : string;
  scale : string;
  tempo : Z;
  time_signature_num : Z;
  time_signature_den : Z;
  num_bars : Z;
  octave_range : Z * Z;
  rhythm_pattern : string;
  note_duration_variety : string;
  rest_probability : Q;
  velocity_variation : bool;
  instrument : Z
}.

(** [SequenceConfig()]: every field at its default. *)
Definition default_config : SequenceConfig := {|
  key := "C";
  scale := "major";
  tempo := 120;
  time_signature_num := 4;
  time_signature_den := 4;
  num_bars := 8;
  octave_range := (4, 6);
  rhythm_pattern := "straight";
  note_duration_variety := "medium";
  rest_probability := 0.1%Q;
  velocity_variation := true;
  instrument := 0
|}.

(** The invariants of a configuration: a known key and scale, a positive
    tempo, at least one bar, an ordered octave range and a rest
    probability in [[0, 1]]. *)
Definition valid_config (cfg : SequenceConfig) : Prop :=
  is_Some (dict_get KEY_OFFSETS (key cfg)) /\
  is_Some (dict_get SCALE_INTERVALS (scale cfg)) /\
  0 < tempo cfg /\
  1 <= num_bars cfg /\
  fst (octave_range cfg) <= snd (octave_range cfg) /\
  (0 <= rest_probability cfg)%Q /\ (rest_probability cfg <= 1)%Q.

(* ------------------------------------------------------------------ *)
(** ** Scale notes *)

(** [range(lo, hi)] *)
Definition py_range (lo hi : Z) : list Z :=
  List.map (fun i => lo + Z.of_nat i) (seq 0 (Z.to_nat (hi - lo))).

(** The body of the two nested [for] loops of [_get_scale_notes]: the
    notes appended, in order. *)
Definition scale_candidates (root : Z) (intervals : list Z) (lo hi : Z) : list Z :=
  List.flat_map
    (fun octave =>
       List.filter
         (fun midi_note => (21 <=? midi_note) && (midi_note <=? 108))
         (List.map (fun interval => (octave + 1) * 12 + root + interval) intervals))
    (py_range lo (hi + 1)).

Definition _get_scale_notes (cfg : SequenceConfig) : outcome (list Z) :=
  match dict_index KEY_OFFSETS (key cfg) with
  | Ok root =>
      match dict_index SCALE_INTERVALS (scale cfg) with
      | Ok intervals =>
          let '(lo, hi) := octave_range cfg in
          Ok (merge_sort Z.le (scale_candidates root intervals lo hi))
      | Raise e => Raise e
      | OutOfFuel => OutOfFuel
      end
  | Raise e => Raise e
  | OutOfFuel => OutOfFuel
  end.

(* ------------------------------------------------------------------ *)
(** ** Dictionary form of a configuration *)

(** The values a dictionary (a decoded JSON body, or [asdict]) can hold. *)
#[local] Unset Elimination Schemes.
Inductive pyval : Type :=
  | PNone
  | PBool (b : bool)
  | PInt (z : Z)
  | PFloat (q : Q)
  | PStr (s : string)
  | PList (l : list pyval)
  | PTuple (l : list pyval)
  | PDict (kvs : list (string * pyval)).
#[local] Set Elimination Schemes.

(** The characters of a string, each as a one-character string. *)
Fixpoint chars (s : string) : list pyval :=
  match s with
  | EmptyString => []
  | String c s' => PStr (String c EmptyString) :: chars s'
  end.

(** [tuple(v)]: the items of an iterable; [TypeError] otherwise. *)
Definition py_tuple (v : pyval) : outcome pyval :=
  match v with
  | PList l => Ok (PTuple l)
  | PTuple l => Ok (PTuple l)
  | PStr s => Ok (PTuple (chars s))
  | PDict kvs => Ok (PTuple (List.map (fun kv => PStr (fst kv)) kvs))
  | PNone | PBool _ | PInt _ | PFloat _ => Raise TypeError
  end.

(** The names of the dataclass fields, in declaration order. *)
Definition field_names : list string :=
  [ "key"; "scale"; "tempo"; "time_signature_num"; "time_signature_den";
    "num_bars"; "octave_range"; "rhythm_pattern"; "note_duration_variety";
    "rest_probability"; "velocity_variation"; "instrument" ]%string.

(** [to_dict]: [asdict(self)] with [octave_range] replaced by a list. *)
Definition to_dict (cfg : SequenceConfig) : gmap string pyval :=
  <[ "octave_range" := PList [PInt (fst (octave_range cfg)); PInt (snd (octave_range cfg))] ]>
  (list_to_map
     [ ("key", PStr (key cfg));
       ("scale", PStr (scale cfg));
       ("tempo", PInt (tempo cfg));
       ("time_signature_num", PInt (time_signature_num cfg));
       ("time_signature_den", PInt (time_signature_den cfg));
       ("num_bars", PInt (num_bars cfg));
       ("octave_range", PTuple [PInt (fst (octave_range cfg)); PInt (snd (octave_range cfg))]);
       ("rhythm_pattern", PStr (rhythm_pattern cfg));
       ("note_duration_variety", PStr (note_duration_variety cfg));
       ("rest_probability", PFloat (rest_probability cfg));
       ("velocity_variation", PBool (velocity_variation cfg));
       ("instrument", PInt (instrument cfg)) ]).

(** An instance as the dataclass constructor builds it: the annotations
    are not enforced, so each attribute holds whatever value was passed. *)
Record ConfigObject : Type := {
  o_key : pyval;
  o_scale : pyval;
  o_tempo : pyval;
  o_time_signature_num : pyval;
  o_time_signature_den : pyval;
  o_num_bars : pyval;
  o_octave_range : pyval;
  o_rhythm_pattern : pyval;
  o_note_duration_variety : pyval;
  o_rest_probability : pyval;
  o_velocity_variation : pyval;
  o_instrument : pyval
}.

(** The instance holding the fields of a well-typed configuration. *)
Definition object_of (cfg : SequenceConfig) : ConfigObject := {|
  o_key := PStr (key cfg);
  o_scale := PStr (scale cfg);
  o_tempo := PInt (tempo cfg);
  o_time_signature_num := PInt (time_signature_num cfg);
  o_time_signature_den := PInt (time_signature_den cfg);
  o_num_bars := PInt (num_bars cfg);
  o_octave_range := PTuple [PInt (fst (octave_range cfg)); PInt (snd (octave_range cfg))];
  o_rhythm_pattern := PStr (rhythm_pattern cfg);
  o_note_duration_variety := PStr (note_duration_variety cfg);
  o_rest_probability := PFloat (rest_probability cfg);
  o_velocity_variation := PBool (velocity_variation cfg);
  o_instrument := PInt (instrument cfg)
|}.

(** The well-typed configuration an instance holds, when its attributes
    conform to the annotations. *)
Definition config_of (o : ConfigObject) : option SequenceConfig :=
  match o_key o, o_scale o, o_tempo o, o_time_signature_num o,
        o_time_signature_den o, o_num_bars o, o_octave_range o,
        o_rhythm_pattern o, o_note_duration_variety o, o_rest_probability o,
        o_velocity_variation o, o_instrument o with
  | PStr k, PStr s, PInt t, PInt n, PInt d, PInt b, PTuple [PInt lo; PInt hi],
    PStr r, PStr v, PFloat p, PBool vv, PInt i =>
      Some {| key := k; scale := s; tempo := t; time_signature_num := n;
              time_signature_den := d; num_bars := b; octave_range := (lo, hi);
              rhythm_pattern := r; note_duration_variety := v;
              rest_probability := p; velocity_variation := vv; instrument := i |}
  | _, _, _, _, _, _, _, _, _, _, _, _ => None
  end.

(** The constructor called with the entries of [d] as keyword arguments:
    a keyword that is not a field is a [TypeError]; a field that is not
    passed takes its default. *)
Definition construct (d : gmap string pyval) : outcome ConfigObject :=
  if forallb (fun kv => bool_decide (fst kv ∈ field_names)) (map_to_list d) then
    let dflt := object_of default_config in
    Ok {| o_key := default (o_key dflt) (d !! "key");
          o_scale := default (o_scale dflt) (d !! "scale");
          o_tempo := default (o_tempo dflt) (d !! "tempo");
          o_time_signature_num := default (o_time_signature_num dflt) (d !! "time_signature_num");
          o_time_signature_den := default (o_time_signature_den dflt) (d !! "time_signature_den");
          o_num_bars := default (o_num_bars dflt) (d !! "num_bars");
          o_octave_range := default (o_octave_range dflt) (d !! "octave_range");
          o_rhythm_pattern := default (o_rhythm_pattern dflt) (d !! "rhythm_pattern");
          o_note_duration_variety :=
            default (o_note_duration_variety dflt) (d !! "note_duration_variety");
          o_rest_probability := default (o_rest_probability dflt) (d !! "rest_probability");
          o_velocity_variation := default (o_velocity_variation dflt) (d !! "velocity_variation");
          o_instrument := default (o_instrument dflt) (d !! "instrument") |}
  else Raise TypeError.

Definition from_dict (d : gmap string pyval) : outcome ConfigObject :=
  match d !! "octave_range" with
  | Some v =>
      match py_tuple v with
      | Ok t => construct (<[ "octave_range" := t ]> d)
      | Raise e => Raise e
      | OutOfFuel => OutOfFuel
      end
  | None => construct d
  end.

(* ------------------------------------------------------------------ *)
(** ** The generator *)

(** [pretty_midi.Note], [pretty_midi.Instrument], [pretty_midi.PrettyMIDI]:
    plain containers, as far as [generate] uses them. *)
Record Note : Type := {
  velocity : Z;
  pitch : Z;
  start : Q;
  end_ : Q
}.

Record Instrument : Type := {
  program : Z;
  notes : list Note
}.

Record PrettyMIDI : Type := {
  initial_tempo : Z;
  instruments : list Instrument
}.

Record Stats : Type := {
  note_count : Z;
  duration_seconds : Q;
  pitch_histogram : list Z;
  scale_notes_used : list Z
}.

(** The metadata dictionary; its [id], a fresh [uuid4], is left out. *)
Record Metadata : Type := {
  config : gmap string pyval;
  stats : Stats
}.

(** [60.0 / tempo] *)
Definition py_div (x : Q) (d : Z) : outcome Q :=
  if d =? 0 then Raise ZeroDivisionError else Ok (x / inject_Z d)%Q.

Definition _pick_duration (cfg : SequenceConfig) : Rand Q :=
  do medium <- lift (dict_index DURATION_PROFILES "medium");
  let profile := default medium (dict_get DURATION_PROFILES (note_duration_variety cfg)) in
  let names := List.map fst profile in
  let weights := List.map snd profile in
  do chosen <- choices names weights;
  lift (dict_index NOTE_DURATIONS chosen).

Definition _get_rhythm_pattern (cfg : SequenceConfig) : Rand (option (list Q)) :=
  let pattern_key := rhythm_pattern cfg in
  if String.eqb pattern_key "mixed" then
    do v <- choice (omap snd RHYTHM_PATTERNS); ret (Some v)
  else
    do straight <- lift (dict_index RHYTHM_PATTERNS "straight");
    ret (default straight (dict_get RHYTHM_PATTERNS pattern_key)).

Definition _velocity (cfg : SequenceConfig) : Rand Z :=
  if velocity_variation cfg then randint 55 110 else ret 80.

(** The variables the fill loop updates: the time cursor [t], the notes
    of the instrument, [note_count] and [pitch_histogram]. *)
Record GenState : Type := {
  st_t : Q;
  st_notes : list Note;
  st_note_count : Z;
  st_pitch_histogram : list Z
}.

(** [pitch_histogram[i] += 1] *)
Definition histogram_incr (h : list Z) (i : Z) : outcome (list Z) :=
  match h !! Z.to_nat i with
  | Some c => Ok (<[ Z.to_nat i := c + 1 ]> h)
  | None => Raise IndexError
  end.

(** One iteration of the [while] loop: the slot at [t] becomes a rest or
    a note. *)
Definition fill_slot (cfg : SequenceConfig) (scale_notes : list Z)
    (quarter_duration bar_end : Q) (st : GenState) : Rand GenState :=
  let t := st_t st in
  let remaining := (bar_end - t)%Q in
  do r <- random;
  if Qlt_bool r (rest_probability cfg) then
    do d <- _pick_duration cfg;
    let rest_dur := py_min (d * quarter_duration)%Q remaining in
    ret {| st_t := (t + rest_dur)%Q;
           st_notes := st_notes st;
           st_note_count := st_note_count st;
           st_pitch_histogram := st_pitch_histogram st |}
  else
    do note_midi <- choice scale_notes;
    do dur_beats <- _pick_duration cfg;
    let dur_sec := py_min (dur_beats * quarter_duration)%Q remaining in
    do jitter <- uniform (-0.01)%Q 0.01%Q;
    let start' := (t + jitter)%Q in
    do gate <- uniform 0.85%Q 0.98%Q;
    let end' := (start' + dur_sec * gate)%Q in
    do v <- _velocity cfg;
    let note := {| velocity := v;
                   pitch := note_midi;
                   start := py_max 0 start';
                   end_ := py_max (start' + 0.05)%Q end' |} in
    do h <- lift (histogram_incr (st_pitch_histogram st) (note_midi mod 12));
    ret {| st_t := (t + dur_sec)%Q;
           st_notes := st_notes st ++ [note];
           st_note_count := st_note_count st + 1;
           st_pitch_histogram := h |}.

(** [while t < bar_end - 0.01: ...] *)
Fixpoint fill_bar (fuel : nat) (cfg : SequenceConfig) (scale_notes : list Z)
    (quarter_duration bar_end : Q) (st : GenState) : Rand GenState :=
  if Qlt_bool (st_t st) (bar_end - 0.01)%Q then
    match fuel with
    | O => out_of_fuel
    | S fuel' =>
        do st' <- fill_slot cfg scale_notes quarter_duration bar_end st;
        fill_bar fuel' cfg scale_notes quarter_duration bar_end st'
    end
  else ret st.

(** [for bar in range(total_bars): ...] *)
Fixpoint fill_bars (fuel : nat) (cfg : SequenceConfig) (scale_notes : list Z)
    (quarter_duration bar_duration : Q) (bars : list Z) (st : GenState)
    : Rand GenState :=
  match bars with
  | [] => ret st
  | bar :: bars' =>
      let bar_start := (inject_Z bar * bar_duration)%Q in
      let bar_end := (bar_start + bar_duration)%Q in
      do st' <- fill_bar fuel cfg scale_notes quarter_duration bar_end
                  {| st_t := bar_start;
                     st_notes := st_notes st;
                     st_note_count := st_note_count st;
                     st_pitch_histogram := st_pitch_histogram st |};
      fill_bars fuel cfg scale_notes quarter_duration bar_duration bars' st'
  end.

Definition initial_state : GenState :=
  {| st_t := 0; st_notes := []; st_note_count := 0;
     st_pitch_histogram := replicate 12 0 |}.

(** [generate]; [fuel] bounds the iterations of each [while] loop.  The
    two objects of the library, [PrettyMIDI(initial_tempo=cfg.tempo)] and
    [Instrument(program=cfg.instrument)], are built where the track is
    appended.  The constructor of [PrettyMIDI], library code, divides by
    the tempo when it is called, before the tables are looked at: with
    tempo 0 the [ZeroDivisionError] of the code comes from there, and a
    statement that tells it from the [KeyError] of the tables assumes a
    tempo other than 0. *)
Definition generate (fuel : nat) (cfg : SequenceConfig) : Rand (PrettyMIDI * Metadata) :=
  do scale_notes <- lift (_get_scale_notes cfg);
  let beats_per_bar := time_signature_num cfg in
  do quarter_duration <- lift (py_div 60 (tempo cfg));
  let bar_duration := (inject_Z beats_per_bar * quarter_duration)%Q in
  let total_bars := num_bars cfg in
  do st <- fill_bars fuel cfg scale_notes quarter_duration bar_duration
             (py_range 0 total_bars) initial_state;
  let instrument' := {| program := instrument cfg; notes := st_notes st |} in
  let pm := {| initial_tempo := tempo cfg; instruments := [] ++ [instrument'] |} in
  do per_beat <- lift (py_div 60 (tempo cfg));
  let metadata :=
    {| config := to_dict cfg;
       stats := {| note_count := st_note_count st;
                   duration_seconds :=
                     py_round2 (inject_Z (total_bars * beats_per_bar) * per_beat)%Q;
                   pitch_histogram := st_pitch_histogram st;
                   scale_notes_used := scale_notes |} |} in
  ret (pm, metadata).

(** A source that always draws the same number. *)
Definition constant_source (u : Q) : RandomSource := fun _ => u.

(* ------------------------------------------------------------------ *)
(** ** Notions used in the statements *)

(** Every duration name of a profile has a beat length, between a
    sixteenth and a whole note. *)
Definition has_beat_length (name : string) : Prop :=
  exists d, dict_get NOTE_DURATIONS name = Some d /\ (1 # 4 <= d)%Q /\ (d <= 4)%Q.

(** The jitter and the gate factor, from the draws that produce them. *)
Definition jitter_of (u : Q) : Q := (-0.01 + (0.01 - -0.01) * u)%Q.
Definition gate_of (u : Q) : Q := (0.85 + (0.98 - 0.85) * u)%Q.

(** The note [fill_slot] builds at cursor [t]. *)
Definition note_at (t dur_sec jitter gate : Q) (v p : Z) : Note :=
  {| velocity := v;
     pitch := p;
     start := py_max 0 (t + jitter);
     end_ := py_max (t + jitter + 0.05) (t + jitter + dur_sec * gate) |}.

(** What a successful iteration did: a rest, which only moves the cursor,
    or a note, which also extends the notes and the two counters. *)
Inductive slot_result (cfg : SequenceConfig) (scale_notes : list Z)
    (quarter_duration bar_end : Q) (rnd : RandomSource) (pos : nat)
    (st st' : GenState) (pos' : nat) : Prop :=
  | slot_rest (d : Q) :
      (rnd pos < rest_probability cfg)%Q ->
      (1 # 4 <= d)%Q -> (d <= 4)%Q ->
      pos' = S (S pos) ->
      st' = {| st_t := st_t st + py_min (d * quarter_duration) (bar_end - st_t st);
               st_notes := st_notes st;
               st_note_count := st_note_count st;
               st_pitch_histogram := st_pitch_histogram st |} ->
      slot_result cfg scale_notes quarter_duration bar_end rnd pos st st' pos'
  | slot_note (p : Z) (d : Q) (v : Z) (h : list Z) :
      (rest_probability cfg <= rnd pos)%Q ->
      p ∈ scale_notes ->
      (1 # 4 <= d)%Q -> (d <= 4)%Q ->
      (velocity_variation cfg = false -> v = 80) ->
      (S (S pos) < pos')%nat ->
      histogram_incr (st_pitch_histogram st) (p mod 12) = Ok h ->
      st' = {| st_t := st_t st + py_min (d * quarter_duration) (bar_end - st_t st);
               st_notes :=
                 st_notes st ++
                 [note_at (st_t st)
                    (py_min (d * quarter_duration) (bar_end - st_t st))
                    (jitter_of (rnd (S (S (S pos)))))
                    (gate_of (rnd (S (S (S (S pos)))))) v p];
               st_note_count := st_note_count st + 1;
               st_pitch_histogram := h |} ->
      slot_result cfg scale_notes quarter_duration bar_end rnd pos st st' pos'.

(** [sum(pitch_histogram)] *)
Definition py_sum (l : list Z) : Z := foldr Z.add 0 l.

(** The least amount by which an iteration moves the cursor. *)
Definition min_step (quarter_duration : Q) : Q :=
  py_min (quarter_duration * (1 # 4)) (1 # 100).

(** A property of the notes, the note count and the histogram, read off
    the loop state. *)
Definition state_holds (P : list Note -> Z -> list Z -> Prop) (st : GenState) : Prop :=
  P (st_notes st) (st_note_count st) (st_pitch_histogram st).

(** Iterations that always suffice for one bar of the configuration. *)
Definition iterations_bound (cfg : SequenceConfig) : nat :=
  match py_div 60 (tempo cfg) with
  | Ok quarter_duration =>
      Z.to_nat (Qceiling (inject_Z (time_signature_num cfg) * quarter_duration
                          / min_step quarter_duration))
  | _ => O
  end.

(** The default configuration moved to octave 9, above the piano range. *)
Definition octave9_config : SequenceConfig := {|
  key := "C"; scale := "major"; tempo := 120;
  time_signature_num := 4; time_signature_den := 4; num_bars := 8;
  octave_range := (9, 9); rhythm_pattern := "straight";
  note_duration_variety := "medium"; rest_probability := 0.1%Q;
  velocity_variation := true; instrument := 0
|}.

(** The default configuration moved to octave 0. *)
Definition octave0_config : SequenceConfig := {|
  key := "C"; scale := "major"; tempo := 120;
  time_signature_num := 4; time_signature_den := 4; num_bars := 8;
  octave_range := (0, 0); rhythm_pattern := "straight";
  note_duration_variety := "medium"; rest_probability := 0.1%Q;
  velocity_variation := true; instrument := 0
|}.

(** No notes and a zero count: the state of a silent sequence. *)
Definition silent (ns : list Note) (count : Z) (h : list Z) : Prop :=
  ns = [] /\ count = 0.

(** The default configuration with every slot a rest. *)
Definition all_rest_config : SequenceConfig := {|
  key := "C"; scale := "major"; tempo := 120;
  time_signature_num := 4; time_signature_den := 4; num_bars := 8;
  octave_range := (4, 6); rhythm_pattern := "straight";
  note_duration_variety := "medium"; rest_probability := 1;
  velocity_variation := true; instrument := 0
|}.

(** The counters agree with the notes: as many notes as [note_count],
    which is the sum of the twelve histogram classes. *)
Definition counted (ns : list Note) (count : Z) (h : list Z) : Prop :=
  Z.of_nat (length ns) = count /\ count = py_sum h /\ length h = 12%nat.

(** The worked example: one bar of C major in octave 4, no rests,
    constant velocity. *)
Definition example_config : SequenceConfig := {|
  key := "C"; scale := "major"; tempo := 120;
  time_signature_num := 4; time_signature_den := 4; num_bars := 1;
  octave_range := (4, 4); rhythm_pattern := "straight";
  note_duration_variety := "low"; rest_probability := 0;
  velocity_variation := false; instrument := 0
|}.

(** The cursor stands on a quarter of a second of the bar [[0, 2]]. *)
Definition on_quarter_second (st : GenState) : Prop :=
  exists k : Z, 0 <= k <= 8 /\ (st_t st == inject_Z k * (1 # 4))%Q.

(** Every note so far has velocity 80. *)
Definition constant_velocity (ns : list Note) (count : Z) (h : list Z) : Prop :=
  Forall (fun n => velocity n = 80) ns.

(** [num_bars * time_signature_num * (60 / tempo)] *)
Definition nominal_duration (cfg : SequenceConfig) : Q :=
  (inject_Z (num_bars cfg) * inject_Z (time_signature_num cfg)
   * (60 / inject_Z (tempo cfg)))%Q.

(** The default configuration at 70 beats per minute. *)
Definition tempo70_config : SequenceConfig := {|
  key := "C"; scale := "major"; tempo := 70;
  time_signature_num := 4; time_signature_den := 4; num_bars := 8;
  octave_range := (4, 6); rhythm_pattern := "straight";
  note_duration_variety := "medium"; rest_probability := 0.1%Q;
  velocity_variation := true; instrument := 0
|}.

(** Two configurations that agree on every field but [rhythm_pattern]. *)
Definition differ_only_in_rhythm (c1 c2 : SequenceConfig) : Prop :=
  key c1 = key c2 /\ scale c1 = scale c2 /\ tempo c1 = tempo c2 /\
  time_signature_num c1 = time_signature_num c2 /\
  time_signature_den c1 = time_signature_den c2 /\
  num_bars c1 = num_bars c2 /\ octave_range c1 = octave_range c2 /\
  note_duration_variety c1 = note_duration_variety c2 /\
  rest_probability c1 = rest_probability c2 /\
  velocity_variation c1 = velocity_variation c2 /\
  instrument c1 = instrument c2.

(** The configuration with its rhythm pattern replaced. *)
Definition with_rhythm_pattern (p : string) (cfg : SequenceConfig) : SequenceConfig := {|
  key := key cfg; scale := scale cfg; tempo := tempo cfg;
  time_signature_num := time_signature_num cfg;
  time_signature_den := time_signature_den cfg;
  num_bars := num_bars cfg; octave_range := octave_range cfg;
  rhythm_pattern := p;
  note_duration_variety := note_duration_variety cfg;
  rest_probability := rest_probability cfg;
  velocity_variation := velocity_variation cfg;
  instrument := instrument cfg
|}.

(** What a run shows of its notes and statistics: the MIDI object, the
    statistics record and the position reached in the random source. *)
Definition notes_and_stats (o : outcome ((PrettyMIDI * Metadata) * nat))
    : outcome (PrettyMIDI * Stats * nat) :=
  outcome_map (fun r => (fst (fst r), stats (snd (fst r)), snd r)) o.

(** The attributes of an instance, by name. *)
Definition attributes (o : ConfigObject) : list (string * pyval) :=
  [ ("key", o_key o); ("scale", o_scale o); ("tempo", o_tempo o);
    ("time_signature_num", o_time_signature_num o);
    ("time_signature_den", o_time_signature_den o);
    ("num_bars", o_num_bars o); ("octave_range", o_octave_range o);
    ("rhythm_pattern", o_rhythm_pattern o);
    ("note_duration_variety", o_note_duration_variety o);
    ("rest_probability", o_rest_probability o);
    ("velocity_variation", o_velocity_variation o);
    ("instrument", o_instrument o) ]%string.

(** [getattr(o, name)] *)
Definition attribute (o : ConfigObject) (name : string) : option pyval :=
  dict_get (attributes o) name.

(** The dictionaries [from_dict] accepts: every key names a field, and
    the value at [octave_range], if any, is iterable. *)
Definition accepted (d : gmap string pyval) : Prop :=
  (forall k, is_Some (d !! k) -> k ∈ field_names) /\
  (forall v, d !! "octave_range" = Some v -> exists t, py_tuple v = Ok t).

(** A source that plays a given list of draws, then repeats [d]. *)
Definition source_of_list (l : list Q) (d : Q) : RandomSource :=
  fun n => nth n l d.

(** The configuration with its rest probability replaced by [p]. *)
Definition with_rest_probability (p : Q) (cfg : SequenceConfig) : SequenceConfig := {|
  key := key cfg; scale := scale cfg; tempo := tempo cfg;
  time_signature_num := time_signature_num cfg;
  time_signature_den := time_signature_den cfg;
  num_bars := num_bars cfg; octave_range := octave_range cfg;
  rhythm_pattern := rhythm_pattern cfg;
  note_duration_variety := note_duration_variety cfg;
  rest_probability := p;
  velocity_variation := velocity_variation cfg;
  instrument := instrument cfg
|}.

(** A rest consumes two draws, so a run of rests that starts at draw
    [pos] decides its slots on the draws [pos], [pos + 2], [pos + 4], ...
    Every such slot before draw [pos'] is drawn as a rest: *)
Definition only_rests_drawn (cfg : SequenceConfig) (rnd : RandomSource)
    (pos pos' : nat) : Prop :=
  forall k : nat, (pos + 2 * k < pos')%nat ->
    (rnd (pos + 2 * k)%nat < rest_probability cfg)%Q.

(** ... or one of them is not: *)
Definition note_drawn (cfg : SequenceConfig) (rnd : RandomSource)
    (pos pos' : nat) : Prop :=
  exists k : nat, (pos + 2 * k < pos')%nat /\
    (rest_probability cfg <= rnd (pos + 2 * k)%nat)%Q.

(** Draws 0.05 (a rest), 0.5 (its length), then 0.5 for ever: the second
    slot is the first that is not a rest. *)
Definition rest_then_note : RandomSource :=
  source_of_list [0.05]%Q 0.5%Q.

(** The default configuration at 240 beats per minute. *)
Definition tempo240_config : SequenceConfig := {|
  key := "C"; scale := "major"; tempo := 240;
  time_signature_num := 4; time_signature_den := 4; num_bars := 8;
  octave_range := (4, 6); rhythm_pattern := "straight";
  note_duration_variety := "medium"; rest_probability := 0.1%Q;
  velocity_variation := true; instrument := 0
|}.

(** The first slot: no rest (0.5), the first scale note (0), a sixteenth
    (0.95), a jitter of -0.005 s (0.25), the shortest gate 0.85 (0). *)
Definition early_draws : RandomSource :=
  source_of_list [0.5; 0; 0.95; 0.25; 0]%Q 0.5%Q.

(** What does hold of every emitted note: a pitch of the piano range, a
    start that is not negative, an end after the start, and the minimum
    length of 0.05 s for every note that starts after time 0. *)
Definition well_shaped (n : Note) : Prop :=
  21 <= pitch n <= 108 /\
  (0 <= start n)%Q /\
  (start n < end_ n)%Q /\
  ((0 < start n)%Q -> (0.05 <= end_ n - start n)%Q).

(** The loop invariant behind it: the cursor never goes below 0. *)
Definition cursor_and_notes_ok (st : GenState) : Prop :=
  (0 <= st_t st)%Q /\ Forall well_shaped (st_notes st).

(* ------------------------------------------------------------------ *)
(** ** Notions used in the further properties *)

(** The number of notes of a pitch class. *)
Definition class_count (k : Z) (ns : list Note) : Z :=
  Z.of_nat (length (List.filter (fun n => pitch n mod 12 =? k) ns)).

(** Every class of the histogram counts the notes of that class. *)
Definition histogram_exact (ns : list Note) (count : Z) (h : list Z) : Prop :=
  length h = 12%nat /\
  forall k : nat, (k < 12)%nat -> h !! k = Some (class_count (Z.of_nat k) ns).

(** Every note so far was picked from [scale_notes]. *)
Definition pitches_from (scale_notes : list Z) (ns : list Note) (count : Z)
    (h : list Z) : Prop :=
  Forall (fun n => pitch n ∈ scale_notes) ns.

(** A note that starts before time [total] and ends less than 0.05 s
    after it. *)
Definition within (total : Q) (n : Note) : Prop :=
  (start n < total)%Q /\ (end_ n < total + 0.05)%Q.

(** The length of a bar, as [generate] computes it. *)
Definition bar_seconds (cfg : SequenceConfig) : Q :=
  (inject_Z (time_signature_num cfg) * (60 / inject_Z (tempo cfg)))%Q.

(** The key and the scale of the configuration are entries of the tables. *)
Definition known_key_and_scale (cfg : SequenceConfig) : Prop :=
  is_Some (dict_get KEY_OFFSETS (key cfg)) /\
  is_Some (dict_get SCALE_INTERVALS (scale cfg)).

(** Python converts an integer to a float where it meets one
    ([60.0 / tempo], [beats_per_bar * quarter_duration], the product under
    [round]), and raises [OverflowError] when the integer is beyond the
    range of the floats, which ends a little below [2 ^ 1024].  The
    constructor of [PrettyMIDI] also multiplies the tempo by its
    resolution of a few hundred ticks, whence the margin. *)
Definition float_sized (z : Z) : Prop := Z.abs z < 2 ^ 1000.

(** The integers of the configuration that [generate] turns into floats. *)
Definition float_sized_config (cfg : SequenceConfig) : Prop :=
  float_sized (tempo cfg) /\
  float_sized (time_signature_num cfg) /\
  float_sized (num_bars cfg * time_signature_num cfg).

(** The default configuration at 48000 beats per minute: a bar of four
    beats lasts 0.005 s. *)
Definition tempo48000_config : SequenceConfig := {|
  key := "C"; scale := "major"; tempo := 48000;
  time_signature_num := 4; time_signature_den := 4; num_bars := 8;
  octave_range := (4, 6); rhythm_pattern := "straight";
  note_duration_variety := "medium"; rest_probability := 0.1%Q;
  velocity_variation := true; instrument := 0
|}.

(** The default configuration with a key that is no entry of the table. *)
Definition unknown_key_config : SequenceConfig := {|
  key := "H"; scale := "major"; tempo := 120;
  time_signature_num := 4; time_signature_den := 4; num_bars := 8;
  octave_range := (4, 6); rhythm_pattern := "straight";
  note_duration_variety := "medium"; rest_probability := 0.1%Q;
  velocity_variation := true; instrument := 0
|}.

(** [SequenceConfig.random()]: every field drawn from its pool, in the
    order of the keyword arguments. *)
Definition SequenceConfig_random : Rand SequenceConfig :=
  do k <- choice (List.map fst KEY_OFFSETS);
  do s <- choice (List.map fst SCALE_INTERVALS);
  do t <- randint 60 180;
  do n <- choice [3; 4; 4; 4; 6];
  do b <- choice [4; 4; 8; 8; 8; 12; 16];
  do lo <- choice [3; 4];
  do hi <- choice [5; 6];
  do r <- choice (List.map fst RHYTHM_PATTERNS);
  do v <- choice ["low"; "medium"; "high"]%string;
  do p <- uniform 0.05%Q 0.25%Q;
  do vv <- choice [true; false];
  do i <- choice [0; 4; 12; 19; 24; 25; 40; 48; 73];
  ret {| key := k; scale := s; tempo := t;
         time_signature_num := n; time_signature_den := 4;
         num_bars := b; octave_range := (lo, hi);
         rhythm_pattern := r; note_duration_variety := v;
         rest_probability := py_round2 p;
         velocity_variation := vv; instrument := i |}.

(** The pools [SequenceConfig.random()] draws from. *)
Definition from_the_pools (cfg : SequenceConfig) : Prop :=
  key cfg ∈ List.map fst KEY_OFFSETS /\
  scale cfg ∈ List.map fst SCALE_INTERVALS /\
  60 <= tempo cfg <= 180 /\
  time_signature_num cfg ∈ [3; 4; 6] /\
  time_signature_den cfg = 4 /\
  num_bars cfg ∈ [4; 8; 12; 16] /\
  fst (octave_range cfg) ∈ [3; 4] /\
  snd (octave_range cfg) ∈ [5; 6] /\
  rhythm_pattern cfg ∈ List.map fst RHYTHM_PATTERNS /\
  note_duration_variety cfg ∈ ["low"; "medium"; "high"]%string /\
  (0.05 <= rest_probability cfg)%Q /\ (rest_probability cfg <= 0.25)%Q /\
  (exists z : Z, rest_probability cfg = (inject_Z z / 100)%Q) /\
  instrument cfg ∈ [0; 4; 12; 19; 24; 25; 40; 48; 73].


(** The profile [_pick_duration] draws from: the one of the configured
    variety, or the medium one when the variety is no entry of the table. *)
Definition duration_profile (cfg : SequenceConfig) : list (string * Q) :=
  default (default [] (dict_get DURATION_PROFILES "medium"))
    (dict_get DURATION_PROFILES (note_duration_variety cfg)).

(** [sum(weights)] *)
Definition sum_weights (ws : list Q) : Q := foldr Qplus 0%Q ws.

(** The total [random.choices] scales its draw by: the last cumulative
    weight. *)
Definition total_weight (profile : list (string * Q)) : Q :=
  List.last (accumulate 0 (List.map snd profile)) 0%Q.

(** The dictionary of the default configuration, as decoded JSON. *)
Definition default_dict : gmap string pyval :=
  list_to_map
    [ ("key", PStr "C"); ("scale", PStr "major"); ("tempo", PInt 120);
      ("time_signature_num", PInt 4); ("time_signature_den", PInt 4);
      ("num_bars", PInt 8); ("octave_range", PList [PInt 4; PInt 6]);
      ("rhythm_pattern", PStr "straight");
      ("note_duration_variety", PStr "medium");
      ("rest_probability", PFloat 0.1%Q); ("velocity_variation", PBool true);
      ("instrument", PInt 0) ]%string.

(* ------------------------------------------------------------------ *)
(** ** The batch generator *)

(** [s.endswith("/")] *)
Fixpoint ends_with_slash (s : string) : bool :=
  match s with
  | EmptyString => false
  | String c EmptyString => String.eqb (String c EmptyString) "/"
  | String _ s' => ends_with_slash s'
  end.

(** [os.path.join(a, b)] on a POSIX system. *)
Definition path_join (a b : string) : string :=
  if String.prefix "/" b then b
  else if String.eqb a "" || ends_with_slash a then String.append a b
  else String.append a (String.append "/" b).

(** A metadata dictionary once [generate_batch] has added [file_path] and
    [filename] to it; [entry_id] is its [id]. *)
Record BatchEntry : Type := {
  entry_id : string;
  entry_metadata : Metadata;
  entry_file_path : string;
  entry_filename : string
}.

(** What a file holds: a MIDI file written by [pm.write], or the JSON
    manifest (the list that was dumped, its text layout left out). *)
Inductive FileContent : Type :=
  | MidiFile (pm : PrettyMIDI)
  | JsonFile (results : list BatchEntry).

(** The lines [generate_batch] prints. *)
Inductive Printed : Type :=
  | Progress (done total : Z)
  | Summary (count : Z) (output_dir : string)
  | ManifestSaved (path : string).

(** The calls [generate_batch] makes on the platform. *)
Inductive IOCall : Type :=
  | MakeDir (dir : string)
  | WriteFile (path : string)
  | PrintLine (line : Printed).

(** The world [generate_batch] acts on: directories made, files written
    and lines printed, and the exception, if any, with which the platform
    answers a call ([w_refused]): a directory that cannot be created, a
    file that cannot be opened or written, a line that standard output
    cannot encode. *)
Record World : Type := {
  w_dirs : list string;
  w_files : gmap string FileContent;
  w_stdout : list Printed;
  w_refused : IOCall -> option pyerr
}.

(** [os.makedirs(dir, exist_ok=True)]; the empty path names no directory
    and raises [FileNotFoundError] on every platform. *)
Definition makedirs (dir : string) (w : World) : outcome World :=
  if String.eqb dir EmptyString then Raise OSError
  else match w_refused w (MakeDir dir) with
       | Some e => Raise e
       | None =>
           Ok {| w_dirs := dir :: w_dirs w; w_files := w_files w;
                 w_stdout := w_stdout w; w_refused := w_refused w |}
       end.

(** Opening [path] for writing and writing [c] to it: [pm.write(path)],
    and [open(path, "w")] followed by [json.dump]. *)
Definition write_file (path : string) (c : FileContent) (w : World) : outcome World :=
  match w_refused w (WriteFile path) with
  | Some e => Raise e
  | None =>
      Ok {| w_dirs := w_dirs w; w_files := <[ path := c ]> (w_files w);
            w_stdout := w_stdout w; w_refused := w_refused w |}
  end.

Definition print (line : Printed) (w : World) : outcome World :=
  match w_refused w (PrintLine line) with
  | Some e => Raise e
  | None =>
      Ok {| w_dirs := w_dirs w; w_files := w_files w;
            w_stdout := w_stdout w ++ [line]; w_refused := w_refused w |}
  end.

(** The body of [for i in range(count)]; call number [i] of [generate]
    takes its [uuid4] from [ids i]. *)
Fixpoint batch_loop (fuel : nat) (count : Z) (output_dir : string)
    (randomize : bool) (ids : nat -> string) (indices : list Z)
    (w : World) (results : list BatchEntry) : Rand (World * list BatchEntry) :=
  match indices with
  | [] => ret (w, results)
  | i :: indices' =>
      do cfg <- (if randomize then SequenceConfig_random else ret default_config);
      do r <- generate fuel cfg;
      let id := ids (Z.to_nat i) in
      let filename := String.append id ".mid" in
      let filepath := path_join output_dir filename in
      do w1 <- lift (write_file filepath (MidiFile (fst r)) w);
      let entry := {| entry_id := id; entry_metadata := snd r;
                      entry_file_path := filepath; entry_filename := filename |} in
      do w2 <- lift (if (i + 1) mod 10 =? 0
                     then print (Progress (i + 1) count) w1 else Ok w1);
      batch_loop fuel count output_dir randomize ids indices' w2 (results ++ [entry])
  end.

Definition generate_batch (fuel : nat) (count : Z) (output_dir : string)
    (randomize : bool) (ids : nat -> string) (w : World)
    : Rand (World * list BatchEntry) :=
  do w0 <- lift (makedirs output_dir w);
  do out <- batch_loop fuel count output_dir randomize ids (py_range 0 count) w0 [];
  let manifest_path := path_join output_dir "manifest.json" in
  do w1 <- lift (write_file manifest_path (JsonFile (snd out)) (fst out));
  do w2 <- lift (print (Summary count output_dir) w1);
  do w3 <- lift (print (ManifestSaved manifest_path) w2);
  ret (w3, snd out).

(** Nothing made, written or printed yet, on a platform that refuses
    nothing. *)
Definition empty_world : World :=
  {| w_dirs := []; w_files := ∅; w_stdout := []; w_refused := fun _ => None |}.

(** The same on a platform that refuses every call. *)
Definition read_only_world : World :=
  {| w_dirs := []; w_files := ∅; w_stdout := [];
     w_refused := fun _ => Some OSError |}.

(** The identifiers ["seq0"], ["seq1"], ... *)
Definition numbered_ids (n : nat) : string :=
  String.append "seq" (String (Ascii.ascii_of_nat (48 + n)) EmptyString).

(** A MIDI file that agrees with a metadata record: one track, with as
    many notes as the statistics count. *)
Definition file_matches (c : FileContent) (md : Metadata) : Prop :=
  exists pm track,
    c = MidiFile pm /\
    instruments pm = [track] /\
    Z.of_nat (length (notes track)) = note_count (stats md).

(** Every result whose path no later result reuses has its MIDI file. *)
Definition files_in_place (w : World) (results : list BatchEntry) : Prop :=
  forall (k : nat) entry,
    results !! k = Some entry ->
    (forall (j : nat) entry',
        (k < j)%nat -> results !! j = Some entry' ->
        entry_file_path entry' <> entry_file_path entry) ->
    exists c,
      w_files w !! entry_file_path entry = Some c /\
      file_matches c (entry_metadata entry).

(** The default configuration with a variety that is no entry of the
    table of profiles. *)
Definition unknown_variety_config : SequenceConfig := {|
  key := "C"; scale := "major"; tempo := 120;
  time_signature_num := 4; time_signature_den := 4; num_bars := 8;
  octave_range := (4, 6); rhythm_pattern := "straight";
  note_duration_variety := "wild"; rest_probability := 0.1%Q;
  velocity_variation := true; instrument := 0
|}.

(* ================================================================== *)
(** * Properties *)

(* ------------------------------------------------------------------ *)
(** ** The model on concrete inputs *)

Example scale_notes_default_octave4 :
  _get_scale_notes
    {| key := "C"; scale := "major"; tempo := 120; time_signature_num := 4;
       time_signature_den := 4; num_bars := 1; octave_range := (4, 4);
       rhythm_pattern := "straight"; note_duration_variety := "low";
       rest_probability := 0; velocity_variation := false; instrument := 0 |}
  = Ok [60; 62; 64; 65; 67; 69; 71].
Proof. vm_compute. reflexivity. Qed.

Example from_dict_empty : from_dict ∅ = Ok (object_of default_config).
Proof. vm_compute. reflexivity. Qed.

Example from_dict_unknown_key :
  from_dict {[ "mood" := PStr "calm" ]} = Raise TypeError.
Proof. vm_compute. reflexivity. Qed.

Example round_trip_default :
  from_dict (to_dict default_config) = Ok (object_of default_config).
Proof. vm_compute. reflexivity. Qed.

Example generate_one_bar :
  outcome_map (fun r => (note_count (stats (snd (fst r))), snd r))
    (generate 10
       {| key := "C"; scale := "major"; tempo := 120; time_signature_num := 4;
          time_signature_den := 4; num_bars := 1; octave_range := (4, 4);
          rhythm_pattern := "straight"; note_duration_variety := "low";
          rest_probability := 0; velocity_variation := false; instrument := 0 |}
       (constant_source 0.5) 0%nat)
  = Ok (4, 20%nat).
Proof. vm_compute. reflexivity. Qed.

(* ------------------------------------------------------------------ *)
(** ** Comparisons, minimum, maximum and rounding *)

Lemma Qlt_bool_true (x y : Q) : Qlt_bool x y = true <-> (x < y)%Q.
Proof.
  unfold Qlt_bool. rewrite negb_true_iff. split.
  - intros H. apply Qnot_le_lt. intros Hle.
    apply Qle_bool_iff in Hle. congruence.
  - intros H. destruct (Qle_bool y x) eqn:E; [|reflexivity].
    apply Qle_bool_iff in E. lra.
Qed.

Lemma Qlt_bool_false (x y : Q) : Qlt_bool x y = false <-> (y <= x)%Q.
Proof.
  unfold Qlt_bool. rewrite negb_false_iff. apply Qle_bool_iff.
Qed.

Ltac case_Qlt x y :=
  let E := fresh "E" in
  destruct (Qlt_bool x y) eqn:E;
  [apply Qlt_bool_true in E | apply Qlt_bool_false in E].

Lemma py_min_cases (a b : Q) :
  ((b < a)%Q /\ py_min a b = b) \/ ((a <= b)%Q /\ py_min a b = a).
Proof. unfold py_min. case_Qlt b a; [left | right]; split; auto. Qed.

Lemma py_max_cases (a b : Q) :
  ((a < b)%Q /\ py_max a b = b) \/ ((b <= a)%Q /\ py_max a b = a).
Proof. unfold py_max. case_Qlt a b; [left | right]; split; auto. Qed.

Lemma round_half_even_near (x : Q) :
  (Qabs (inject_Z (round_half_even x) - x) <= 1 # 2)%Q.
Proof.
  apply Qabs_Qle_condition.
  pose proof (Qfloor_le x) as Hlo. pose proof (Qlt_floor x) as Hhi.
  rewrite inject_Z_plus in Hhi. change (inject_Z 1) with 1%Q in Hhi.
  unfold round_half_even.
  case_Qlt (x - inject_Z (Qfloor x))%Q (1 # 2)%Q.
  - split; lra.
  - case_Qlt (1 # 2)%Q (x - inject_Z (Qfloor x))%Q.
    + rewrite inject_Z_plus. change (inject_Z 1) with 1%Q. split; lra.
    + destruct (Z.even (Qfloor x));
        [|rewrite inject_Z_plus; change (inject_Z 1) with 1%Q]; split; lra.
Qed.

Lemma py_round2_near (x : Q) : (Qabs (py_round2 x - x) <= 1 # 200)%Q.
Proof.
  unfold py_round2.
  pose proof (round_half_even_near (x * 100)) as H.
  apply Qabs_Qle_condition in H. apply Qabs_Qle_condition.
  set (r := inject_Z (round_half_even (x * 100))) in *.
  assert (Hq : (r / 100 == r * (1 # 100))%Q) by (field; discriminate).
  rewrite Hq. split; lra.
Qed.

(** A value that already is a multiple of 1/100 is left as it is. *)
Lemma py_round2_exact (z : Z) (x : Q) :
  (x == inject_Z z / 100)%Q -> (py_round2 x == x)%Q.
Proof.
  intros Hx. unfold py_round2.
  assert (Hz : (x * 100 == inject_Z z)%Q) by (rewrite Hx; field).
  assert (Hr : round_half_even (x * 100) = z).
  { unfold round_half_even. rewrite (Qfloor_comp _ _ Hz), Qfloor_Z.
    case_Qlt (x * 100 - inject_Z z)%Q (1 # 2)%Q; [reflexivity | lra]. }
  rewrite Hr, Hx. reflexivity.
Qed.

(* ------------------------------------------------------------------ *)
(** ** The random primitives *)

Lemma bisect_le (a : list Q) (x : Q) (hi : nat) : (bisect a x hi <= hi)%nat.
Proof.
  revert a. induction hi as [|hi IH]; intros [|c a]; simpl; try lia.
  destruct (Qle_bool c x); [specialize (IH a)|]; lia.
Qed.

Lemma choices_ok {A : Type} (population : list A) (weights : list Q)
    (rnd : RandomSource) (pos : nat) :
  population <> [] ->
  exists x, choices population weights rnd pos = Ok (x, S pos) /\ x ∈ population.
Proof.
  intros Hne. unfold choices, bind, random.
  set (i := bisect _ _ _).
  assert (Hi : (i < length population)%nat).
  { pose proof (bisect_le (accumulate 0 weights)
                  (rnd pos * List.last (accumulate 0 weights) 0)%Q
                  (length population - 1)) as Hb.
    fold i in Hb. destruct population; [congruence | simpl in *; lia]. }
  destruct (lookup_lt_is_Some_2 population i Hi) as [x Hx].
  rewrite Hx. exists x. split; [reflexivity|].
  apply list_elem_of_lookup. eauto.
Qed.

Lemma Qfloor_index (u : Q) (n : nat) :
  (0 <= u)%Q -> (u < 1)%Q -> (0 < n)%nat ->
  (Z.to_nat (Qfloor (u * inject_Z (Z.of_nat n))) < n)%nat.
Proof.
  intros H0 H1 Hn.
  assert (Hpos : (0 < inject_Z (Z.of_nat n))%Q).
  { change 0%Q with (inject_Z 0). rewrite <- Zlt_Qlt. lia. }
  pose proof (Qfloor_le (u * inject_Z (Z.of_nat n))) as Hf.
  assert (Hlt : (inject_Z (Qfloor (u * inject_Z (Z.of_nat n)))
                 < inject_Z (Z.of_nat n))%Q) by nra.
  rewrite <- Zlt_Qlt in Hlt. lia.
Qed.

Lemma choice_ok {A : Type} (l : list A) (rnd : RandomSource) (pos : nat) :
  (0 <= rnd pos)%Q -> (rnd pos < 1)%Q -> l <> [] ->
  exists x, choice l rnd pos = Ok (x, S pos) /\ x ∈ l.
Proof.
  intros H0 H1 Hne. unfold choice, bind, random.
  assert (Hlen : (0 < length l)%nat) by (destruct l; [congruence | simpl; lia]).
  pose proof (Qfloor_index (rnd pos) (length l) H0 H1 Hlen) as Hi.
  destruct (lookup_lt_is_Some_2 l _ Hi) as [x Hx].
  rewrite Hx. exists x. split; [reflexivity|].
  apply list_elem_of_lookup. eauto.
Qed.

Lemma choice_inv {A : Type} (l : list A) (rnd : RandomSource) (pos pos' : nat) (x : A) :
  choice l rnd pos = Ok (x, pos') -> x ∈ l /\ pos' = S pos.
Proof.
  unfold choice, bind, random.
  destruct (l !! _) as [y|] eqn:E; [|discriminate].
  unfold ret. intros [= <- <-]. split; [|reflexivity].
  apply list_elem_of_lookup. eauto.
Qed.

Lemma choice_nil {A : Type} (rnd : RandomSource) (pos : nat) :
  choice (@nil A) rnd pos = Raise IndexError.
Proof. reflexivity. Qed.

(* ------------------------------------------------------------------ *)
(** ** Durations *)

Lemma profile_names_have_length (v : string) (medium : list (string * Q)) :
  dict_get DURATION_PROFILES "medium" = Some medium ->
  let profile := default medium (dict_get DURATION_PROFILES v) in
  List.map fst profile <> [] /\ Forall has_beat_length (List.map fst profile).
Proof.
  intros [= <-]. simpl.
  destruct (String.eqb v "low"); [|destruct (String.eqb v "medium");
    [|destruct (String.eqb v "high")]]; simpl;
    (split; [discriminate|]);
    repeat constructor;
    (eexists; split; [vm_compute; reflexivity | split; vm_compute; discriminate]).
Qed.

Lemma _pick_duration_ok (cfg : SequenceConfig) (rnd : RandomSource) (pos : nat) :
  exists d, _pick_duration cfg rnd pos = Ok (d, S pos)
            /\ (1 # 4 <= d)%Q /\ (d <= 4)%Q.
Proof.
  unfold _pick_duration.
  destruct (profile_names_have_length (note_duration_variety cfg) _ eq_refl)
    as [Hne Hall].
  unfold bind at 1. unfold lift at 1.
  change (dict_index DURATION_PROFILES "medium")
    with (Ok (default [] (dict_get DURATION_PROFILES "medium"))).
  cbv beta iota.
  set (profile := default _ (dict_get DURATION_PROFILES (note_duration_variety cfg))) in *.
  destruct (choices_ok (List.map fst profile) (List.map snd profile) rnd pos Hne)
    as (name & Hc & Hin).
  unfold bind. rewrite Hc.
  rewrite Forall_forall in Hall. destruct (Hall name Hin) as (d & Hd & Hlo & Hhi).
  exists d. unfold lift, dict_index. rewrite Hd. auto.
Qed.

(* ------------------------------------------------------------------ *)
(** ** Scale notes *)

Lemma scale_candidates_in_range (root : Z) (intervals : list Z) (lo hi : Z) :
  Forall (fun p => 21 <= p <= 108) (scale_candidates root intervals lo hi).
Proof.
  apply Forall_forall. intros p Hp. apply list_elem_of_In in Hp.
  unfold scale_candidates in Hp. apply in_flat_map in Hp.
  destruct Hp as (octave & _ & Hp). apply filter_In in Hp.
  destruct Hp as [_ Hp]. apply andb_true_iff in Hp. lia.
Qed.

Lemma _get_scale_notes_inv (cfg : SequenceConfig) (sn : list Z) :
  _get_scale_notes cfg = Ok sn ->
  exists root intervals,
    dict_get KEY_OFFSETS (key cfg) = Some root /\
    dict_get SCALE_INTERVALS (scale cfg) = Some intervals /\
    sn = merge_sort Z.le
           (scale_candidates root intervals
              (fst (octave_range cfg)) (snd (octave_range cfg))).
Proof.
  unfold _get_scale_notes, dict_index.
  destruct (dict_get KEY_OFFSETS (key cfg)) as [root|]; [|discriminate].
  destruct (dict_get SCALE_INTERVALS (scale cfg)) as [intervals|]; [|discriminate].
  destruct (octave_range cfg) as [lo hi]. intros [= <-]. eauto.
Qed.

Lemma _get_scale_notes_in_range (cfg : SequenceConfig) (sn : list Z) :
  _get_scale_notes cfg = Ok sn -> Forall (fun p => 21 <= p <= 108) sn.
Proof.
  intros H. apply _get_scale_notes_inv in H.
  destruct H as (root & intervals & _ & _ & ->).
  rewrite merge_sort_Permutation. apply scale_candidates_in_range.
Qed.

Lemma _get_scale_notes_ok (cfg : SequenceConfig) :
  is_Some (dict_get KEY_OFFSETS (key cfg)) ->
  is_Some (dict_get SCALE_INTERVALS (scale cfg)) ->
  exists sn, _get_scale_notes cfg = Ok sn.
Proof.
  intros [root Hr] [intervals Hi]. unfold _get_scale_notes, dict_index.
  rewrite Hr, Hi. destruct (octave_range cfg). eauto.
Qed.

(* ------------------------------------------------------------------ *)
(** ** One iteration of the fill loop *)

Lemma fill_slot_inv cfg scale_notes quarter_duration bar_end st rnd pos st' pos' :
  fill_slot cfg scale_notes quarter_duration bar_end st rnd pos = Ok (st', pos') ->
  slot_result cfg scale_notes quarter_duration bar_end rnd pos st st' pos'.
Proof.
  unfold fill_slot. unfold bind at 1. unfold random at 1.
  case_Qlt (rnd pos) (rest_probability cfg).
  - destruct (_pick_duration_ok cfg rnd (S pos)) as (d & Hd & Hlo & Hhi).
    unfold bind. rewrite Hd. unfold ret. intros [= <- <-].
    eapply slot_rest; eauto.
  - unfold bind at 1.
    destruct (choice scale_notes rnd (S pos)) as [[p pos1]| |] eqn:Hc;
      try discriminate.
    apply choice_inv in Hc. destruct Hc as [Hin ->].
    destruct (_pick_duration_ok cfg rnd (S (S pos))) as (d & Hd & Hlo & Hhi).
    unfold bind at 1. rewrite Hd.
    unfold bind at 1. unfold uniform at 1, bind at 1, random at 1, ret at 1.
    unfold bind at 1. unfold uniform at 1, bind at 1, random at 1, ret at 1.
    unfold bind at 1.
    destruct (_velocity cfg rnd (S (S (S (S (S pos)))))) as [[v pos2]| |] eqn:Hv;
      try discriminate.
    unfold bind at 1, lift.
    destruct (histogram_incr (st_pitch_histogram st) (p mod 12)) as [h| |] eqn:Hh;
      try discriminate.
    unfold ret. intros [= <- <-].
    eapply (slot_note _ _ _ _ _ _ _ _ _ p d v h); eauto.
    + intros Hvv. unfold _velocity in Hv. rewrite Hvv in Hv.
      unfold ret in Hv. congruence.
    + unfold _velocity, randint, bind, random, ret in Hv.
      destruct (velocity_variation cfg); injection Hv as _ <-; lia.
Qed.

Lemma histogram_incr_length (h h' : list Z) (i : Z) :
  histogram_incr h i = Ok h' -> length h' = length h.
Proof.
  unfold histogram_incr. destruct (h !! Z.to_nat i); [|discriminate].
  intros [= <-]. apply length_insert.
Qed.

Lemma insert_incr_sum (h : list Z) (i : nat) (c : Z) :
  h !! i = Some c -> py_sum (<[ i := c + 1 ]> h) = py_sum h + 1.
Proof.
  revert i. induction h as [|x h IH]; intros [|i] Hi; simpl in *; try discriminate.
  - injection Hi as ->. lia.
  - rewrite (IH i Hi). lia.
Qed.

Lemma histogram_incr_sum (h h' : list Z) (i : Z) :
  histogram_incr h i = Ok h' -> py_sum h' = py_sum h + 1.
Proof.
  unfold histogram_incr. destruct (h !! Z.to_nat i) as [c|] eqn:E; [|discriminate].
  intros [= <-]. apply insert_incr_sum, E.
Qed.

Lemma histogram_incr_ok (h : list Z) (p : Z) :
  length h = 12%nat -> exists h', histogram_incr h (p mod 12) = Ok h'.
Proof.
  intros Hlen. unfold histogram_incr.
  assert (Hi : (Z.to_nat (p mod 12) < length h)%nat).
  { pose proof (Z.mod_pos_bound p 12 ltac:(lia)). lia. }
  destruct (lookup_lt_is_Some_2 h _ Hi) as [c Hc]. rewrite Hc. eauto.
Qed.

(** An iteration succeeds whenever the histogram has its twelve classes
    and the slot either is a rest or has a scale note to pick. *)
Lemma fill_slot_ok cfg scale_notes quarter_duration bar_end st rnd pos :
  valid_draws rnd ->
  length (st_pitch_histogram st) = 12%nat ->
  scale_notes <> [] \/ (rnd pos < rest_probability cfg)%Q ->
  exists st' pos',
    fill_slot cfg scale_notes quarter_duration bar_end st rnd pos = Ok (st', pos').
Proof.
  intros Hrnd Hlen Hcase.
  unfold fill_slot. unfold bind at 1. unfold random at 1.
  case_Qlt (rnd pos) (rest_probability cfg).
  - destruct (_pick_duration_ok cfg rnd (S pos)) as (d & Hd & _).
    unfold bind. rewrite Hd. unfold ret. eauto.
  - destruct Hcase as [Hne | Hlt]; [|lra].
    destruct (Hrnd (S pos)) as [H0 H1].
    destruct (choice_ok scale_notes rnd (S pos) H0 H1 Hne) as (p & Hp & _).
    unfold bind at 1. rewrite Hp.
    destruct (_pick_duration_ok cfg rnd (S (S pos))) as (d & Hd & _).
    unfold bind at 1. rewrite Hd.
    unfold bind at 1. unfold uniform at 1, bind at 1, random at 1, ret at 1.
    unfold bind at 1. unfold uniform at 1, bind at 1, random at 1, ret at 1.
    destruct (histogram_incr_ok (st_pitch_histogram st) p Hlen) as [h Hh].
    unfold bind at 1. unfold _velocity.
    destruct (velocity_variation cfg);
      unfold randint, bind, random, ret, lift; rewrite Hh; eauto.
Qed.

Lemma min_step_pos (quarter_duration : Q) :
  (0 < quarter_duration)%Q -> (0 < min_step quarter_duration)%Q.
Proof.
  intros H. unfold min_step.
  destruct (py_min_cases (quarter_duration * (1 # 4)) (1 # 100)) as [[_ ->]|[_ ->]]; lra.
Qed.

(** Both branches advance the cursor by the clamped duration, which is
    at least [min_step] and never overshoots the end of the bar. *)
Lemma slot_result_advance cfg scale_notes quarter_duration bar_end rnd pos st st' pos' :
  (0 < quarter_duration)%Q ->
  (st_t st < bar_end - 0.01)%Q ->
  slot_result cfg scale_notes quarter_duration bar_end rnd pos st st' pos' ->
  (st_t st + min_step quarter_duration <= st_t st')%Q /\ (st_t st' <= bar_end)%Q.
Proof.
  intros Hq Ht Hres.
  assert (Hmin : forall d, (1 # 4 <= d)%Q ->
            (min_step quarter_duration
               <= py_min (d * quarter_duration) (bar_end - st_t st))%Q
            /\ (py_min (d * quarter_duration) (bar_end - st_t st)
                  <= bar_end - st_t st)%Q).
  { intros d Hd. unfold min_step.
    destruct (py_min_cases (quarter_duration * (1 # 4)) (1 # 100)) as [[? ->]|[? ->]];
      destruct (py_min_cases (d * quarter_duration) (bar_end - st_t st))
        as [[? ->]|[? ->]]; split; nra. }
  destruct Hres as [d _ Hlo _ _ -> | p d v h _ _ Hlo _ _ _ _ ->]; simpl;
    destruct (Hmin d Hlo); split; lra.
Qed.

Lemma slot_result_histogram_length cfg scale_notes quarter_duration bar_end rnd pos st st' pos' :
  slot_result cfg scale_notes quarter_duration bar_end rnd pos st st' pos' ->
  length (st_pitch_histogram st') = length (st_pitch_histogram st).
Proof.
  intros [d _ _ _ _ -> | p d v h _ _ _ _ _ _ Hh ->]; simpl; [reflexivity|].
  eapply histogram_incr_length, Hh.
Qed.

(* ------------------------------------------------------------------ *)
(** ** The loops *)

Lemma fill_bar_unfold fuel cfg scale_notes quarter_duration bar_end st :
  fill_bar fuel cfg scale_notes quarter_duration bar_end st =
  if Qlt_bool (st_t st) (bar_end - 0.01)%Q then
    match fuel with
    | O => out_of_fuel
    | S fuel' =>
        do st' <- fill_slot cfg scale_notes quarter_duration bar_end st;
        fill_bar fuel' cfg scale_notes quarter_duration bar_end st'
    end
  else ret st.
Proof. destruct fuel; reflexivity. Qed.

Section LoopInvariant.

Variable cfg : SequenceConfig.
Variable scale_notes : list Z.
Variable quarter_duration : Q.
Variable rnd : RandomSource.

(** An invariant of the loop state, kept by every iteration that the loop
    condition lets through. *)
Variable Inv : GenState -> Prop.

Hypothesis slot_keeps :
  forall bar_end pos st st' pos',
    Inv st ->
    (st_t st < bar_end - 0.01)%Q ->
    slot_result cfg scale_notes quarter_duration bar_end rnd pos st st' pos' ->
    Inv st'.

Lemma fill_bar_invariant fuel bar_end :
  forall st pos st' pos',
    fill_bar fuel cfg scale_notes quarter_duration bar_end st rnd pos = Ok (st', pos') ->
    Inv st -> Inv st'.
Proof.
  induction fuel as [|fuel IH]; intros st pos st' pos'; rewrite fill_bar_unfold;
    case_Qlt (st_t st) (bar_end - 0.01)%Q;
    try (unfold ret; intros [= <- <-]; tauto); try discriminate.
  unfold bind.
  destruct (fill_slot cfg scale_notes quarter_duration bar_end st rnd pos)
    as [[st1 pos1]| |] eqn:Hs; try discriminate.
  intros Hrec Hst. apply fill_slot_inv in Hs.
  eapply IH; [exact Hrec|]. eapply slot_keeps; eauto.
Qed.

(** Entering a bar moves the cursor to the start of the bar. *)
Lemma fill_bars_invariant fuel bar_duration bars :
  (forall bar st,
      bar ∈ bars -> Inv st ->
      Inv {| st_t := inject_Z bar * bar_duration;
             st_notes := st_notes st;
             st_note_count := st_note_count st;
             st_pitch_histogram := st_pitch_histogram st |}) ->
  forall st pos st' pos',
    fill_bars fuel cfg scale_notes quarter_duration bar_duration bars st rnd pos
      = Ok (st', pos') ->
    Inv st -> Inv st'.
Proof.
  induction bars as [|bar bars IH]; intros Henter st pos st' pos'; simpl.
  - unfold ret. intros [= <- <-]. tauto.
  - unfold bind.
    destruct (fill_bar fuel cfg scale_notes quarter_duration _ _ rnd pos)
      as [[st1 pos1]| |] eqn:Hb; try discriminate.
    intros Hrec Hst. eapply IH; [|exact Hrec|].
    + intros b s Hb' Hs. apply Henter; [right; exact Hb' | exact Hs].
    + eapply fill_bar_invariant; [exact Hb|].
      apply Henter; [left | exact Hst].
Qed.

End LoopInvariant.

(** The instance for a property of the notes and the two counters, which
    the cursor does not enter. *)
Lemma fill_bars_preserves cfg scale_notes quarter_duration rnd
    (P : list Note -> Z -> list Z -> Prop) :
  (forall bar_end pos st st' pos',
      state_holds P st ->
      slot_result cfg scale_notes quarter_duration bar_end rnd pos st st' pos' ->
      state_holds P st') ->
  forall fuel bar_duration bars st pos st' pos',
    fill_bars fuel cfg scale_notes quarter_duration bar_duration bars st rnd pos
      = Ok (st', pos') ->
    state_holds P st -> state_holds P st'.
Proof.
  intros Hslot fuel bar_duration bars st pos st' pos' Hb Hst.
  eapply (fill_bars_invariant cfg scale_notes quarter_duration rnd (state_holds P));
    [| |exact Hb|exact Hst].
  - intros be p0 s s' p1 Hs _ Hr. eapply Hslot; eauto.
  - intros bar s _ Hs. exact Hs.
Qed.

(** *** Invariants of the fill loop, bar by bar *)

Section BarLoop.

Variable cfg : SequenceConfig.
Variable scale_notes : list Z.
Variable quarter_duration : Q.
Variable rnd : RandomSource.
Variable Inv : GenState -> Prop.

Lemma fill_bar_keeps fuel bar_end :
  (forall pos st st' pos',
      Inv st -> (st_t st < bar_end - 0.01)%Q ->
      fill_slot cfg scale_notes quarter_duration bar_end st rnd pos = Ok (st', pos') ->
      Inv st') ->
  forall st pos st' pos',
    fill_bar fuel cfg scale_notes quarter_duration bar_end st rnd pos = Ok (st', pos') ->
    Inv st -> Inv st'.
Proof.
  intros Hslot.
  induction fuel as [|fuel IH]; intros st pos st' pos'; rewrite fill_bar_unfold;
    case_Qlt (st_t st) (bar_end - 0.01)%Q;
    try (unfold ret; intros [= <- <-]; tauto); try discriminate.
  unfold bind.
  destruct (fill_slot cfg scale_notes quarter_duration bar_end st rnd pos)
    as [[st1 pos1]| |] eqn:Hs; try discriminate.
  intros Hrec Hst. eapply IH; [exact Hrec|]. eapply Hslot; eauto.
Qed.

Lemma fill_bars_keeps fuel bar_duration bars :
  (forall bar pos st st' pos',
      bar ∈ bars -> Inv st ->
      (st_t st < inject_Z bar * bar_duration + bar_duration - 0.01)%Q ->
      fill_slot cfg scale_notes quarter_duration
        (inject_Z bar * bar_duration + bar_duration) st rnd pos = Ok (st', pos') ->
      Inv st') ->
  (forall bar st,
      bar ∈ bars -> Inv st ->
      Inv {| st_t := inject_Z bar * bar_duration;
             st_notes := st_notes st;
             st_note_count := st_note_count st;
             st_pitch_histogram := st_pitch_histogram st |}) ->
  forall st pos st' pos',
    fill_bars fuel cfg scale_notes quarter_duration bar_duration bars st rnd pos
      = Ok (st', pos') ->
    Inv st -> Inv st'.
Proof.
  induction bars as [|bar bars IH]; intros Hslot Henter st pos st' pos'; simpl.
  - unfold ret. intros [= <- <-]. tauto.
  - unfold bind.
    destruct (fill_bar fuel cfg scale_notes quarter_duration _ _ rnd pos)
      as [[st1 pos1]| |] eqn:Hb; try discriminate.
    intros Hrec Hst. eapply IH; [| |exact Hrec|].
    + intros b p0 s s' p1 Hb'. apply Hslot. right. exact Hb'.
    + intros b s Hb'. apply Henter. right. exact Hb'.
    + eapply fill_bar_keeps; [|exact Hb|].
      * intros p0 s s' p1. apply Hslot. left.
      * apply Henter; [left | exact Hst].
Qed.

End BarLoop.

Lemma generate_inv fuel cfg rnd pos pm md pos' :
  generate fuel cfg rnd pos = Ok ((pm, md), pos') ->
  exists scale_notes quarter_duration st,
    _get_scale_notes cfg = Ok scale_notes /\
    py_div 60 (tempo cfg) = Ok quarter_duration /\
    fill_bars fuel cfg scale_notes quarter_duration
      (inject_Z (time_signature_num cfg) * quarter_duration)
      (py_range 0 (num_bars cfg)) initial_state rnd pos = Ok (st, pos') /\
    pm = {| initial_tempo := tempo cfg;
            instruments := [ {| program := instrument cfg; notes := st_notes st |} ] |} /\
    md = {| config := to_dict cfg;
            stats := {| note_count := st_note_count st;
                        duration_seconds :=
                          py_round2 (inject_Z (num_bars cfg * time_signature_num cfg)
                                     * quarter_duration);
                        pitch_histogram := st_pitch_histogram st;
                        scale_notes_used := scale_notes |} |}.
Proof.
  unfold generate. unfold bind at 1, lift at 1.
  destruct (_get_scale_notes cfg) as [sn| |]; try discriminate.
  unfold bind at 1, lift at 1.
  destruct (py_div 60 (tempo cfg)) as [qd| |]; try discriminate.
  unfold bind at 1.
  destruct (fill_bars fuel cfg sn qd _ _ _ rnd pos) as [[st pos1]| |] eqn:Hb;
    try discriminate.
  unfold bind, lift, ret. intros [= <- <- <-].
  exists sn, qd, st. auto.
Qed.

Lemma generate_of_fill_bars fuel cfg rnd pos scale_notes quarter_duration st pos' :
  _get_scale_notes cfg = Ok scale_notes ->
  py_div 60 (tempo cfg) = Ok quarter_duration ->
  fill_bars fuel cfg scale_notes quarter_duration
    (inject_Z (time_signature_num cfg) * quarter_duration)
    (py_range 0 (num_bars cfg)) initial_state rnd pos = Ok (st, pos') ->
  exists r, generate fuel cfg rnd pos = Ok (r, pos').
Proof.
  intros Hs Hq Hb. unfold generate. unfold bind at 1, lift at 1. rewrite Hs.
  unfold bind at 1, lift at 1. rewrite Hq.
  unfold bind at 1. rewrite Hb.
  unfold bind, lift, ret. eauto.
Qed.

(* ------------------------------------------------------------------ *)
(** ** Termination of the fill loop *)

Section Termination.

Variable cfg : SequenceConfig.
Variable scale_notes : list Z.
Variable quarter_duration : Q.
Variable rnd : RandomSource.

Hypothesis quarter_pos : (0 < quarter_duration)%Q.
Hypothesis draws : valid_draws rnd.
Hypothesis can_fill : scale_notes <> [] \/ (1 <= rest_probability cfg)%Q.

Lemma can_fill_at (pos : nat) :
  scale_notes <> [] \/ (rnd pos < rest_probability cfg)%Q.
Proof.
  destruct can_fill as [H|H]; [left; exact H | right].
  destruct (draws pos). lra.
Qed.

(** A bar that is [n] minimal steps long is filled within [n]
    iterations. *)
Lemma fill_bar_returns bar_end (n : nat) :
  forall fuel st pos,
    (n <= fuel)%nat ->
    length (st_pitch_histogram st) = 12%nat ->
    (bar_end - st_t st <= inject_Z (Z.of_nat n) * min_step quarter_duration)%Q ->
    exists st' pos',
      fill_bar fuel cfg scale_notes quarter_duration bar_end st rnd pos
        = Ok (st', pos')
      /\ length (st_pitch_histogram st') = 12%nat.
Proof.
  pose proof (min_step_pos _ quarter_pos) as Hstep.
  induction n as [|n IH]; intros fuel st pos Hfuel Hlen Hrem;
    rewrite fill_bar_unfold;
    case_Qlt (st_t st) (bar_end - 0.01)%Q;
    try (unfold ret; eauto; fail).
  - change (inject_Z (Z.of_nat 0)) with 0%Q in Hrem. lra.
  - destruct fuel as [|fuel]; [lia|].
    destruct (fill_slot_ok cfg scale_notes quarter_duration bar_end st rnd pos
                draws Hlen (can_fill_at pos)) as (st1 & pos1 & Hs).
    unfold bind. rewrite Hs.
    pose proof (fill_slot_inv _ _ _ _ _ _ _ _ _ Hs) as Hres.
    destruct (slot_result_advance _ _ _ _ _ _ _ _ _ quarter_pos E Hres) as [Hadv _].
    apply IH; [lia | |].
    + rewrite (slot_result_histogram_length _ _ _ _ _ _ _ _ _ Hres). exact Hlen.
    + rewrite Nat2Z.inj_succ in Hrem. unfold Z.succ in Hrem.
      rewrite inject_Z_plus in Hrem. change (inject_Z 1) with 1%Q in Hrem.
      lra.
Qed.

Lemma fill_bars_returns fuel bar_duration bars :
  (bar_duration <= inject_Z (Z.of_nat fuel) * min_step quarter_duration)%Q ->
  forall st pos,
    length (st_pitch_histogram st) = 12%nat ->
    exists st' pos',
      fill_bars fuel cfg scale_notes quarter_duration bar_duration bars st rnd pos
        = Ok (st', pos').
Proof.
  intros Hfuel. induction bars as [|bar bars IH]; intros st pos Hlen; simpl.
  - unfold ret. eauto.
  - set (st0 := {| st_t := inject_Z bar * bar_duration;
                   st_notes := st_notes st;
                   st_note_count := st_note_count st;
                   st_pitch_histogram := st_pitch_histogram st |}).
    destruct (fill_bar_returns (inject_Z bar * bar_duration + bar_duration)
                fuel fuel st0 pos (le_n _) Hlen) as (st1 & pos1 & Hb & Hlen1).
    { simpl. lra. }
    unfold bind. rewrite Hb. apply IH, Hlen1.
Qed.

End Termination.

Lemma py_div_pos (d : Z) :
  0 < d -> exists q, py_div 60 d = Ok q /\ (0 < q)%Q.
Proof.
  intros Hd. unfold py_div. destruct (Z.eqb_spec d 0) as [->|_]; [lia|].
  eexists. split; [reflexivity|].
  assert (Hq : (0 < inject_Z d)%Q).
  { change 0%Q with (inject_Z 0). rewrite <- Zlt_Qlt. exact Hd. }
  apply Qlt_shift_div_l; [exact Hq | lra].
Qed.

Lemma generate_returns fuel cfg rnd pos scale_notes :
  0 < tempo cfg ->
  _get_scale_notes cfg = Ok scale_notes ->
  scale_notes <> [] \/ (1 <= rest_probability cfg)%Q ->
  valid_draws rnd ->
  (iterations_bound cfg <= fuel)%nat ->
  exists r pos', generate fuel cfg rnd pos = Ok (r, pos').
Proof.
  intros Htempo Hsn Hcan Hrnd Hfuel.
  destruct (py_div_pos _ Htempo) as (qd & Hqd & Hpos).
  unfold iterations_bound in Hfuel. rewrite Hqd in Hfuel.
  pose proof (min_step_pos _ Hpos) as Hstep.
  set (bar_duration := (inject_Z (time_signature_num cfg) * qd)%Q) in *.
  assert (Hbound : (bar_duration <= inject_Z (Z.of_nat fuel) * min_step qd)%Q).
  { pose proof (Qle_ceiling (bar_duration / min_step qd)) as Hc.
    assert (Hz : (inject_Z (Qceiling (bar_duration / min_step qd))
                  <= inject_Z (Z.of_nat fuel))%Q).
    { rewrite <- Zle_Qle. lia. }
    assert (Hd : (bar_duration == bar_duration / min_step qd * min_step qd)%Q).
    { field. lra. }
    rewrite Hd. nra. }
  destruct (fill_bars_returns cfg scale_notes qd rnd Hpos Hrnd Hcan fuel
              bar_duration (py_range 0 (num_bars cfg)) Hbound initial_state pos
              eq_refl) as (st & pos' & Hb).
  destruct (generate_of_fill_bars _ _ _ _ _ _ _ _ Hsn Hqd Hb) as [r Hr].
  eauto.
Qed.

(* ================================================================== *)
(** * The claims *)

(* ------------------------------------------------------------------ *)
(** ** C1: an empty scale-note universe *)

Lemma silent_result fuel cfg rnd pos r pos' :
  (forall bar_end pos st st' pos' scale_notes quarter_duration,
      _get_scale_notes cfg = Ok scale_notes ->
      state_holds silent st ->
      slot_result cfg scale_notes quarter_duration bar_end rnd pos st st' pos' ->
      state_holds silent st') ->
  generate fuel cfg rnd pos = Ok (r, pos') ->
  instruments (fst r) = [ {| program := instrument cfg; notes := [] |} ]
  /\ note_count (stats (snd r)) = 0.
Proof.
  intros Hslot Hgen. destruct r as [pm md].
  apply generate_inv in Hgen.
  destruct Hgen as (sn & qd & st & Hsn & Hqd & Hb & -> & ->).
  eapply (fill_bars_preserves cfg sn qd rnd silent) in Hb.
  - destruct Hb as [Hn Hc]. simpl. rewrite Hn, Hc. auto.
  - intros be p0 s s' p1 Hs Hr. eapply Hslot; eauto.
  - split; reflexivity.
Qed.

(** *** The run with an empty universe against the run of rests *)

Lemma fill_slot_rest_eq cfg scale_notes quarter_duration bar_end st rnd pos :
  (rnd pos < rest_probability cfg)%Q ->
  fill_slot cfg scale_notes quarter_duration bar_end st rnd pos
  = (do d <- _pick_duration cfg;
     ret {| st_t := st_t st + py_min (d * quarter_duration) (bar_end - st_t st);
            st_notes := st_notes st;
            st_note_count := st_note_count st;
            st_pitch_histogram := st_pitch_histogram st |}) rnd (S pos).
Proof.
  intros Hc. unfold fill_slot. unfold bind at 1. unfold random at 1.
  case_Qlt (rnd pos) (rest_probability cfg); [|lra].
  reflexivity.
Qed.

Lemma fill_slot_rest (p : Q) cfg scale_notes quarter_duration bar_end st rnd pos :
  (rnd pos < p)%Q ->
  (rnd pos < rest_probability cfg)%Q ->
  fill_slot cfg scale_notes quarter_duration bar_end st rnd pos
  = fill_slot (with_rest_probability p cfg) scale_notes quarter_duration bar_end st rnd pos.
Proof.
  intros Hp Hc. rewrite !fill_slot_rest_eq by assumption. reflexivity.
Qed.

Lemma fill_slot_nil_inv cfg quarter_duration bar_end st rnd pos st' pos' :
  fill_slot cfg [] quarter_duration bar_end st rnd pos = Ok (st', pos') ->
  (rnd pos < rest_probability cfg)%Q /\ pos' = S (S pos).
Proof.
  intros H. apply fill_slot_inv in H.
  destruct H as [d Hr _ _ -> _ | p d v h _ Hin _ _ _ _ _ _]; [auto|].
  inversion Hin.
Qed.

Lemma fill_slot_nil_raise cfg quarter_duration bar_end st rnd pos :
  (rest_probability cfg <= rnd pos)%Q ->
  fill_slot cfg [] quarter_duration bar_end st rnd pos = Raise IndexError.
Proof.
  intros H. unfold fill_slot. unfold bind at 1, random at 1.
  case_Qlt (rnd pos) (rest_probability cfg); [lra|]. reflexivity.
Qed.

Lemma only_rests_drawn_nil cfg rnd pos : only_rests_drawn cfg rnd pos pos.
Proof. intros k Hk. lia. Qed.

Lemma only_rests_drawn_step cfg rnd pos pos' :
  (rnd pos < rest_probability cfg)%Q ->
  only_rests_drawn cfg rnd (S (S pos)) pos' ->
  only_rests_drawn cfg rnd pos pos'.
Proof.
  intros H0 H [|k] Hk.
  - replace (pos + 2 * 0)%nat with pos by lia. exact H0.
  - replace (pos + 2 * S k)%nat with (S (S pos) + 2 * k)%nat in * by lia.
    apply H, Hk.
Qed.

Lemma note_drawn_step cfg rnd pos pos' :
  note_drawn cfg rnd (S (S pos)) pos' -> note_drawn cfg rnd pos pos'.
Proof.
  intros (k & Hk & H). exists (S k).
  replace (pos + 2 * S k)%nat with (S (S pos) + 2 * k)%nat by lia. auto.
Qed.

Lemma only_rests_drawn_app cfg rnd pos m pos' :
  only_rests_drawn cfg rnd pos (pos + 2 * m) ->
  only_rests_drawn cfg rnd (pos + 2 * m) pos' ->
  only_rests_drawn cfg rnd pos pos'.
Proof.
  intros H1 H2 k Hk.
  destruct (Nat.lt_ge_cases k m) as [Hlt|Hge].
  - apply H1. lia.
  - replace (pos + 2 * k)%nat with (pos + 2 * m + 2 * (k - m))%nat in * by lia.
    apply H2, Hk.
Qed.

Lemma rests_or_note cfg rnd pos pos' :
  only_rests_drawn cfg rnd pos pos' -> note_drawn cfg rnd pos pos' -> False.
Proof.
  intros H (k & Hk & Hn). specialize (H k Hk). lra.
Qed.

(** With no scale note to pick, a bar runs as the bar of rests does until
    a slot is not drawn as a rest, where it raises [IndexError]. *)
Lemma fill_bar_empty_universe cfg quarter_duration bar_end rnd fuel :
  forall st pos stR posR,
    fill_bar fuel (with_rest_probability 1 cfg) [] quarter_duration bar_end st rnd pos
      = Ok (stR, posR) ->
    (exists m : nat, posR = (pos + 2 * m)%nat) /\
    ((only_rests_drawn cfg rnd pos posR /\
      fill_bar fuel cfg [] quarter_duration bar_end st rnd pos = Ok (stR, posR))
     \/ (note_drawn cfg rnd pos posR /\
         fill_bar fuel cfg [] quarter_duration bar_end st rnd pos = Raise IndexError)).
Proof.
  induction fuel as [|fuel IH]; intros st pos stR posR;
    rewrite !fill_bar_unfold;
    case_Qlt (st_t st) (bar_end - 0.01)%Q; try discriminate;
    try (unfold ret; intros [= <- <-]; split;
         [exists 0%nat; lia | left; split; [apply only_rests_drawn_nil | reflexivity]]).
  unfold bind at 1.
  destruct (fill_slot (with_rest_probability 1 cfg) [] quarter_duration bar_end st rnd pos)
    as [[st1 pos1]| |] eqn:Hs; try discriminate.
  intros Hrec.
  destruct (fill_slot_nil_inv _ _ _ _ _ _ _ _ Hs) as [H1 ->].
  cbn [rest_probability with_rest_probability] in H1.
  destruct (IH _ _ _ _ Hrec) as [[m ->] Hcases].
  split; [exists (S m); lia|].
  destruct (Qlt_le_dec (rnd pos) (rest_probability cfg)) as [Hrest|Hnote].
  - unfold bind. rewrite (fill_slot_rest 1 cfg [] quarter_duration bar_end st rnd pos H1 Hrest).
    rewrite Hs.
    destruct Hcases as [[Hall Hrun]|[Hsome Hrun]].
    + left. split; [apply only_rests_drawn_step; assumption | exact Hrun].
    + right. split; [apply note_drawn_step; assumption | exact Hrun].
  - right. split.
    + exists 0%nat. replace (pos + 2 * 0)%nat with pos by lia. split; [lia | exact Hnote].
    + unfold bind. rewrite fill_slot_nil_raise by exact Hnote. reflexivity.
Qed.

Lemma fill_bars_empty_universe cfg quarter_duration bar_duration rnd fuel bars :
  forall st pos stR posR,
    fill_bars fuel (with_rest_probability 1 cfg) [] quarter_duration bar_duration bars
      st rnd pos = Ok (stR, posR) ->
    (exists m : nat, posR = (pos + 2 * m)%nat) /\
    ((only_rests_drawn cfg rnd pos posR /\
      fill_bars fuel cfg [] quarter_duration bar_duration bars st rnd pos = Ok (stR, posR))
     \/ (note_drawn cfg rnd pos posR /\
         fill_bars fuel cfg [] quarter_duration bar_duration bars st rnd pos
           = Raise IndexError)).
Proof.
  induction bars as [|bar bars IH]; intros st pos stR posR; simpl.
  - unfold ret. intros [= <- <-]. split; [exists 0%nat; lia|].
    left. split; [apply only_rests_drawn_nil | reflexivity].
  - unfold bind at 1.
    destruct (fill_bar fuel (with_rest_probability 1 cfg) [] quarter_duration _ _ rnd pos)
      as [[st1 pos1]| |] eqn:Hb; try discriminate.
    intros Hrec.
    destruct (fill_bar_empty_universe _ _ _ _ _ _ _ _ _ Hb) as [[m ->] Hbar].
    destruct (IH _ _ _ _ Hrec) as [[m' ->] Hrest].
    split; [exists (m + m')%nat; lia|].
    unfold bind.
    destruct Hbar as [[Hall Hrun]|[(k & Hk & Hn) Hrun]]; rewrite Hrun.
    + destruct Hrest as [[Hall' Hrun']|[(k & Hk & Hn) Hrun']].
      * left. split; [|exact Hrun']. eapply only_rests_drawn_app; eassumption.
      * right. split; [|exact Hrun']. exists (m + k)%nat.
        replace (pos + 2 * (m + k))%nat with (pos + 2 * m + 2 * k)%nat by lia. auto.
    + right. split; [|reflexivity]. exists k. split; [lia | exact Hn].
Qed.

Lemma generate_empty_universe cfg rnd fuel pos rR posR :
  _get_scale_notes cfg = Ok [] ->
  generate fuel (with_rest_probability 1 cfg) rnd pos = Ok (rR, posR) ->
  (only_rests_drawn cfg rnd pos posR /\
   exists r, generate fuel cfg rnd pos = Ok (r, posR))
  \/ (note_drawn cfg rnd pos posR /\ generate fuel cfg rnd pos = Raise IndexError).
Proof.
  intros Hsn Hgen. destruct rR as [pm md].
  apply generate_inv in Hgen.
  destruct Hgen as (sn & qd & st & Hsn' & Hqd & Hb & _).
  change (_get_scale_notes (with_rest_probability 1 cfg))
    with (_get_scale_notes cfg) in Hsn'.
  assert (sn = []) as -> by congruence.
  cbn [tempo time_signature_num num_bars with_rest_probability] in Hqd, Hb.
  destruct (fill_bars_empty_universe _ _ _ _ _ _ _ _ _ _ Hb) as [_ [[Hall Hrun]|[Hsome Hrun]]].
  - left. split; [exact Hall|].
    eapply generate_of_fill_bars; eassumption.
  - right. split; [exact Hsome|].
    unfold generate. unfold bind at 1, lift at 1. rewrite Hsn.
    unfold bind at 1, lift at 1. rewrite Hqd.
    unfold bind at 1. rewrite Hrun. reflexivity.
Qed.

Lemma rest_then_note_run :
  exists rR posR,
    generate 64 (with_rest_probability 1 octave9_config) rest_then_note 0%nat
      = Ok (rR, posR) /\ (2 < posR)%nat.
Proof.
  destruct (generate 64 (with_rest_probability 1 octave9_config) rest_then_note 0%nat)
    as [[rR posR]| |] eqn:E; [|vm_compute in E; discriminate..].
  exists rR, posR. split; [reflexivity|].
  assert (H : outcome_map snd (generate 64 (with_rest_probability 1 octave9_config)
                                 rest_then_note 0%nat) = Ok posR) by (rewrite E; reflexivity).
  vm_compute in H. injection H as <-. lia.
Qed.

(** C1 (counterexample).  Octave 9 of C major lies above MIDI 108, so the
    enumeration is empty; when every slot is drawn as a rest, [generate]
    still returns a result, whose note sequence is empty.  And octave 0
    of C major is not an instance of the claim at all: its enumeration
    keeps the pitches 21 and 23. *)
Lemma C1_counterexample :
  _get_scale_notes octave9_config = Ok [] /\
  (exists r pos',
      generate 4 octave9_config (constant_source 0) 0%nat = Ok (r, pos') /\
      instruments (fst r) = [ {| program := 0; notes := [] |} ]) /\
  _get_scale_notes octave0_config = Ok [21; 23].
Proof.
  split; [vm_compute; reflexivity|]. split; [|vm_compute; reflexivity].
  destruct (generate 4 octave9_config (constant_source 0) 0%nat)
    as [[r pos']| |] eqn:E; [|vm_compute in E; discriminate..].
  exists r, pos'. split; [reflexivity|].
  eapply silent_result in E; [apply E|].
  intros be p0 s s' p1 sn qd Hsn Hs Hr.
  assert (sn = []) as -> by (vm_compute in Hsn; congruence).
  destruct Hr as [d _ _ _ _ -> | p d v h _ Hin _ _ _ _ _ ->]; [exact Hs|].
  inversion Hin.
Qed.

(** C1 (amended).  With an empty scale-note enumeration [generate] never
    returns a note.  Whatever it returns has an empty note sequence and a
    zero note count.  It raises [IndexError] at the first slot that is not
    drawn as a rest: at once when that is the first slot of the run (the
    tempo being positive and a bar longer than the 0.01 s guard), and in
    general, measured against the run of the same configuration in which
    every slot is a rest, as soon as one of the slots of that run draws
    no rest; when all of them draw a rest, [generate] returns, having
    consumed the same draws.  The run of rests exists for every positive
    tempo, integers within the range of the floats, draws of [[0, 1)] and
    enough iterations. *)
Theorem C1_empty_universe (cfg : SequenceConfig) (rnd : RandomSource) (fuel pos : nat) :
  _get_scale_notes cfg = Ok [] ->
  (forall r pos',
      generate fuel cfg rnd pos = Ok (r, pos') ->
      instruments (fst r) = [ {| program := instrument cfg; notes := [] |} ]
      /\ note_count (stats (snd r)) = 0)
  /\ (0 < tempo cfg -> 1 <= num_bars cfg ->
      (0.01 < inject_Z (time_signature_num cfg) * (60 / inject_Z (tempo cfg)))%Q ->
      (rest_probability cfg <= rnd pos)%Q ->
      generate (S fuel) cfg rnd pos = Raise IndexError)
  /\ (forall rR posR,
        generate fuel (with_rest_probability 1 cfg) rnd pos = Ok (rR, posR) ->
        (note_drawn cfg rnd pos posR ->
           generate fuel cfg rnd pos = Raise IndexError)
        /\ (only_rests_drawn cfg rnd pos posR ->
              exists r, generate fuel cfg rnd pos = Ok (r, posR)))
  /\ (0 < tempo cfg -> float_sized_config cfg -> valid_draws rnd ->
      (iterations_bound cfg <= fuel)%nat ->
      exists rR posR,
        generate fuel (with_rest_probability 1 cfg) rnd pos = Ok (rR, posR)).
Proof.
  intros Hsn. split; [|split; [|split]].
  - intros r pos' Hgen. eapply silent_result; [|exact Hgen].
    intros be p0 s s' p1 sn qd Hsn' Hs Hr.
    assert (sn = []) as -> by congruence.
    destruct Hr as [d _ _ _ _ -> | p d v h _ Hin _ _ _ _ _ ->]; [exact Hs|].
    inversion Hin.
  - intros Htempo Hbars Hbar Hdraw.
    unfold generate. unfold bind at 1, lift at 1. rewrite Hsn.
    unfold bind at 1, lift at 1. unfold py_div.
    destruct (Z.eqb_spec (tempo cfg) 0) as [H0|_]; [lia|].
    unfold bind at 1. unfold py_range.
    destruct (Z.to_nat (num_bars cfg - 0)) as [|k] eqn:Hk; [lia|].
    cbn [seq List.map fill_bars]. unfold bind at 1.
    rewrite fill_bar_unfold. cbn [st_t].
    change (inject_Z (0 + Z.of_nat 0)) with 0%Q.
    set (bd := (inject_Z (time_signature_num cfg) * (60 / inject_Z (tempo cfg)))%Q) in *.
    case_Qlt (0 * bd)%Q (0 * bd + bd - 0.01)%Q; [|lra].
    unfold bind at 1. unfold fill_slot. unfold bind at 1, random at 1.
    case_Qlt (rnd pos) (rest_probability cfg); [lra|].
    reflexivity.
  - intros rR posR HR.
    destruct (generate_empty_universe _ _ _ _ _ _ Hsn HR) as [[Hall Hrun]|[Hsome Hrun]].
    + split; [|intros _; exact Hrun].
      intros Hsome. destruct (rests_or_note _ _ _ _ Hall Hsome).
    + split; [intros _; exact Hrun|].
      intros Hall. destruct (rests_or_note _ _ _ _ Hall Hsome).
  - intros Htempo _ Hrnd Hfuel.
    eapply (generate_returns fuel (with_rest_probability 1 cfg) rnd pos []);
      [exact Htempo | exact Hsn | right; simpl; lra | exact Hrnd | exact Hfuel].
Qed.

(** C1 (witness): octave 9, a rest and then a slot drawn as a note. *)
Lemma C1_empty_universe_witness :
  generate 64 octave9_config rest_then_note 0%nat = Raise IndexError.
Proof.
  destruct rest_then_note_run as (rR & posR & Hrun & Hpos).
  refine (proj1 (proj1 (proj2 (proj2
            (C1_empty_universe octave9_config rest_then_note 64 0 _))) rR posR Hrun) _).
  - vm_compute. reflexivity.
  - exists 1%nat. split; [simpl; lia | vm_compute; discriminate].
Defined.

(* ------------------------------------------------------------------ *)
(** ** C7: rest probability one *)

Lemma valid_draws_constant (u : Q) :
  (0 <= u)%Q -> (u < 1)%Q -> valid_draws (constant_source u).
Proof. intros H0 H1 n. unfold constant_source. auto. Qed.

(** C7.  For a valid configuration whose rest probability is 1, every
    draw of [random()] is below it, so every slot is a rest: [generate]
    returns, with no note in its single track and a note count of 0,
    whatever the number of bars. *)
Theorem C7_all_rests (cfg : SequenceConfig) (rnd : RandomSource) (fuel pos : nat) :
  valid_config cfg ->
  (rest_probability cfg == 1)%Q ->
  valid_draws rnd ->
  (iterations_bound cfg <= fuel)%nat ->
  exists r pos',
    generate fuel cfg rnd pos = Ok (r, pos') /\
    note_count (stats (snd r)) = 0 /\
    instruments (fst r) = [ {| program := instrument cfg; notes := [] |} ].
Proof.
  intros (Hkey & Hscale & Htempo & _) Hrest Hrnd Hfuel.
  destruct (_get_scale_notes_ok cfg Hkey Hscale) as [sn Hsn].
  destruct (generate_returns fuel cfg rnd pos sn Htempo Hsn) as (r & pos' & Hgen);
    [right; lra | exact Hrnd | exact Hfuel |].
  exists r, pos'. split; [exact Hgen|].
  eapply silent_result in Hgen; [tauto|].
  intros be p0 s s' p1 sn' qd _ Hs Hr.
  destruct Hr as [d _ _ _ _ -> | p d v h Hge _ _ _ _ _ _ ->]; [exact Hs|].
  destruct (Hrnd p0). lra.
Qed.

(** C7 (witness): the default configuration with rest probability 1. *)
Lemma C7_all_rests_witness :
  exists r pos',
    generate 400 all_rest_config (constant_source 0.5) 0%nat = Ok (r, pos') /\
    note_count (stats (snd r)) = 0 /\
    instruments (fst r) = [ {| program := 0; notes := [] |} ].
Proof.
  apply (C7_all_rests all_rest_config (constant_source 0.5) 400 0).
  - unfold valid_config. simpl.
    repeat split; try (eexists; reflexivity); try lia; vm_compute; discriminate.
  - reflexivity.
  - apply valid_draws_constant; vm_compute; [discriminate | reflexivity].
  - vm_compute. lia.
Defined.

(* ------------------------------------------------------------------ *)
(** ** C10: one track, and counters that agree *)

Lemma counted_slot cfg scale_notes quarter_duration bar_end rnd pos st st' pos' :
  state_holds counted st ->
  slot_result cfg scale_notes quarter_duration bar_end rnd pos st st' pos' ->
  state_holds counted st'.
Proof.
  intros (Hn & Hc & Hl) [d _ _ _ _ -> | p d v h _ _ _ _ _ _ Hh ->];
    unfold state_holds, counted; simpl; [auto|].
  rewrite length_app, (histogram_incr_sum _ _ _ Hh), (histogram_incr_length _ _ _ Hh).
  simpl. repeat split; lia.
Qed.

(** C10.  Whatever [generate] returns holds exactly one instrument track,
    whose program is the configured instrument and whose number of notes
    is the reported [note_count], itself the sum of the 12 classes of the
    pitch histogram; and for a valid configuration with a non-empty
    scale-note universe [generate] does return. *)
Theorem C10_track_and_counts (cfg : SequenceConfig) (rnd : RandomSource) (fuel pos : nat) :
  (forall r pos',
      generate fuel cfg rnd pos = Ok (r, pos') ->
      exists track,
        instruments (fst r) = [track] /\
        program track = instrument cfg /\
        Z.of_nat (length (notes track)) = note_count (stats (snd r)) /\
        note_count (stats (snd r)) = py_sum (pitch_histogram (stats (snd r))) /\
        length (pitch_histogram (stats (snd r))) = 12%nat)
  /\ (valid_config cfg -> valid_draws rnd ->
      (exists p ps, _get_scale_notes cfg = Ok (p :: ps)) ->
      (iterations_bound cfg <= fuel)%nat ->
      exists r pos', generate fuel cfg rnd pos = Ok (r, pos')).
Proof.
  split.
  - intros [pm md] pos' Hgen. apply generate_inv in Hgen.
    destruct Hgen as (sn & qd & st & _ & _ & Hb & -> & ->).
    eapply (fill_bars_preserves cfg sn qd rnd counted) in Hb.
    + destruct Hb as (Hn & Hc & Hl). eexists. simpl. repeat split; assumption.
    + intros be p0 s s' p1. apply counted_slot.
    + repeat split.
  - intros (_ & _ & Htempo & _) Hrnd (p & ps & Hsn) Hfuel.
    eapply generate_returns; eauto; left; discriminate.
Qed.

(** C10 (witness): the default configuration. *)
Lemma C10_track_and_counts_witness :
  exists r pos', generate 400 default_config (constant_source 0.5) 0%nat = Ok (r, pos').
Proof.
  apply (proj2 (C10_track_and_counts default_config (constant_source 0.5) 400 0)).
  - unfold valid_config. simpl.
    repeat split; try (eexists; reflexivity); try lia; vm_compute; discriminate.
  - apply valid_draws_constant; vm_compute; [discriminate | reflexivity].
  - eexists _, _. vm_compute. reflexivity.
  - vm_compute. lia.
Defined.

(* ------------------------------------------------------------------ *)
(** ** C2: one bar of C major in octave 4 *)

(** C2 (counterexample).  The scale-note universe of the example is not
    the set {60,62,64,65,67,69,71,72}: the enumeration stops at the last
    interval of octave 4, and 72 is not in it. *)
Lemma C2_counterexample :
  ~ (exists sn, _get_scale_notes example_config = Ok sn /\
                forall p, p ∈ sn <-> p ∈ [60; 62; 64; 65; 67; 69; 71; 72]).
Proof.
  intros (sn & Hsn & Hset).
  assert (sn = [60; 62; 64; 65; 67; 69; 71]) as ->
    by (vm_compute in Hsn; congruence).
  assert (H72 : 72 ∈ [60; 62; 64; 65; 67; 69; 71]).
  { apply Hset. repeat first [apply list_elem_of_here | apply list_elem_of_further]. }
  apply list_elem_of_In in H72. simpl in H72. lia.
Qed.

(** Both branches of an iteration move the cursor by the clamped length
    that [_pick_duration] returned. *)
Lemma fill_slot_cursor cfg scale_notes quarter_duration bar_end st rnd pos st' pos' :
  fill_slot cfg scale_notes quarter_duration bar_end st rnd pos = Ok (st', pos') ->
  exists d p p',
    _pick_duration cfg rnd p = Ok (d, p') /\
    st_t st' = (st_t st + py_min (d * quarter_duration) (bar_end - st_t st))%Q.
Proof.
  unfold fill_slot. unfold bind at 1. unfold random at 1.
  case_Qlt (rnd pos) (rest_probability cfg).
  - unfold bind.
    destruct (_pick_duration cfg rnd (S pos)) as [[d p']| |] eqn:Hd; try discriminate.
    unfold ret. intros [= <- <-]. exists d, (S pos), p'. auto.
  - unfold bind at 1.
    destruct (choice scale_notes rnd (S pos)) as [[p pos1]| |] eqn:Hc;
      try discriminate.
    unfold bind at 1.
    destruct (_pick_duration cfg rnd pos1) as [[d p']| |] eqn:Hd; try discriminate.
    unfold bind at 1. unfold uniform at 1, bind at 1, random at 1, ret at 1.
    unfold bind at 1. unfold uniform at 1, bind at 1, random at 1, ret at 1.
    unfold bind at 1.
    destruct (_velocity cfg rnd (S (S p'))) as [[v pos2]| |] eqn:Hv;
      try discriminate.
    unfold bind at 1, lift.
    destruct (histogram_incr (st_pitch_histogram st) (p mod 12)) as [h| |] eqn:Hh;
      try discriminate.
    unfold ret. intros [= <- <-]. exists d, pos1, p'. auto.
Qed.

(** The profile of low variety: a quarter, a half or an eighth note. *)
Lemma _pick_duration_low cfg rnd pos d pos' :
  note_duration_variety cfg = "low" ->
  _pick_duration cfg rnd pos = Ok (d, pos') ->
  d = 1%Q \/ d = 2%Q \/ d = 0.5%Q.
Proof.
  intros Hlow. unfold _pick_duration. rewrite Hlow.
  unfold bind at 1, lift at 1.
  change (dict_index DURATION_PROFILES "medium")
    with (Ok (default [] (dict_get DURATION_PROFILES "medium"))).
  cbv beta iota.
  change (dict_get DURATION_PROFILES "low")
    with (Some [ ("quarter", 0.7%Q); ("half", 0.2%Q); ("eighth", 0.1%Q) ]).
  cbn [default List.map fst snd].
  unfold bind, choices, bind, random.
  match goal with
  | |- context [ ?l !! ?i ] => destruct i as [|[|[|n]]]
  end; cbn [lookup list_lookup]; unfold ret, raise, lift; try discriminate.
  all: vm_compute; intros [= <- <-]; auto.
Qed.

Lemma example_slot_on_quarter bar pos st st' pos' rnd :
  bar ∈ py_range 0 (num_bars example_config) ->
  on_quarter_second st ->
  (st_t st < inject_Z bar * bar_seconds example_config
             + bar_seconds example_config - 0.01)%Q ->
  fill_slot example_config [60; 62; 64; 65; 67; 69; 71]
    (60 / inject_Z (tempo example_config))
    (inject_Z bar * bar_seconds example_config + bar_seconds example_config)
    st rnd pos = Ok (st', pos') ->
  on_quarter_second st'.
Proof.
  intros Hbar (k & Hk & Ht) Hlt Hs.
  assert (bar = 0) as ->.
  { change (py_range 0 (num_bars example_config)) with [0] in Hbar.
    apply list_elem_of_In in Hbar. destruct Hbar as [<-|[]]. reflexivity. }
  apply fill_slot_cursor in Hs. destruct Hs as (d & p & p' & Hd & Ht').
  apply _pick_duration_low in Hd; [|reflexivity].
  assert (Hbs : (bar_seconds example_config == 2)%Q) by (vm_compute; reflexivity).
  assert (Hqd : (60 / inject_Z (tempo example_config) == 1 # 2)%Q)
    by (vm_compute; reflexivity).
  unfold on_quarter_second. rewrite Ht'.
  set (be := (inject_Z 0 * bar_seconds example_config + bar_seconds example_config)%Q) in *.
  assert (Hbe : (be == 2)%Q).
  { unfold be. rewrite Hbs. change (inject_Z 0) with 0%Q. lra. }
  set (qd := (60 / inject_Z (tempo example_config))%Q) in *.
  clearbody be qd.
  assert (Hstep : exists j : Z, (j = 1 \/ j = 2 \/ j = 4) /\ (d * qd == inject_Z j * (1 # 4))%Q).
  { destruct Hd as [-> | [-> | ->]].
    - exists 2. split; [auto|]. change (inject_Z 2) with 2%Q. lra.
    - exists 4. split; [auto|]. change (inject_Z 4) with 4%Q. lra.
    - exists 1. split; [auto|]. change (inject_Z 1) with 1%Q. lra. }
  destruct Hstep as (j & Hj & Hdq).
  destruct (py_min_cases (d * qd) (be - st_t st)) as [[Hle ->]|[Hle ->]].
  - exists 8. split; [lia|]. change (inject_Z 8) with 8%Q. lra.
  - exists (k + j). split.
    + split; [lia|].
      assert (H : (inject_Z (k + j) <= inject_Z 8)%Q).
      { rewrite inject_Z_plus. change (inject_Z 8) with 8%Q. lra. }
      rewrite <- Zle_Qle in H. exact H.
    + rewrite inject_Z_plus. lra.
Qed.

(** When the loop of a bar returns, the cursor has passed the guard. *)
Lemma fill_bar_exit cfg scale_notes quarter_duration bar_end rnd fuel :
  forall st pos st' pos',
    fill_bar fuel cfg scale_notes quarter_duration bar_end st rnd pos = Ok (st', pos') ->
    (bar_end - 0.01 <= st_t st')%Q.
Proof.
  induction fuel as [|fuel IH]; intros st pos st' pos'; rewrite fill_bar_unfold;
    case_Qlt (st_t st) (bar_end - 0.01)%Q;
    try (unfold ret; intros [= <- <-]; lra); try discriminate.
  unfold bind.
  destruct (fill_slot cfg scale_notes quarter_duration bar_end st rnd pos)
    as [[st1 pos1]| |]; try discriminate.
  apply IH.
Qed.

Lemma example_cursor fuel rnd pos st pos' :
  fill_bars fuel example_config [60; 62; 64; 65; 67; 69; 71]
    (60 / inject_Z (tempo example_config)) (bar_seconds example_config)
    (py_range 0 (num_bars example_config)) initial_state rnd pos = Ok (st, pos') ->
  (st_t st == 2)%Q.
Proof.
  intros Hb.
  assert (Hq : on_quarter_second st).
  { eapply (fill_bars_keeps example_config _ _ rnd on_quarter_second);
      [| |exact Hb|].
    - intros bar p0 s s' p1 Hbar Hs Hlt Hslot.
      eapply example_slot_on_quarter; eassumption.
    - intros bar s Hbar _.
      assert (bar = 0) as ->.
      { change (py_range 0 (num_bars example_config)) with [0] in Hbar.
    apply list_elem_of_In in Hbar. destruct Hbar as [<-|[]]. reflexivity. }
      exists 0. split; [lia|]. simpl. vm_compute. reflexivity.
    - exists 0. split; [lia|]. vm_compute. reflexivity. }
  change (py_range 0 (num_bars example_config)) with [0] in Hb.
  cbn [fill_bars] in Hb. unfold bind in Hb.
  destruct (fill_bar fuel example_config _ _ _ _ rnd pos) as [[st1 pos1]| |] eqn:Hbar;
    try discriminate.
  unfold ret in Hb. injection Hb as <- <-.
  apply fill_bar_exit in Hbar.
  assert (Hbs : (bar_seconds example_config == 2)%Q) by (vm_compute; reflexivity).
  change (inject_Z 0) with 0%Q in Hbar.
  destruct Hq as (k & Hk & Ht).
  assert (Hk8 : (inject_Z 8 <= inject_Z k)%Q).
  { destruct (Z.le_gt_cases 8 k) as [H|H]; [rewrite <- Zle_Qle; exact H|].
    assert (Hk7 : (inject_Z k <= inject_Z 7)%Q) by (rewrite <- Zle_Qle; lia).
    change (inject_Z 7) with 7%Q in Hk7. lra. }
  rewrite <- Zle_Qle in Hk8. assert (k = 8) as -> by lia.
  rewrite Ht. reflexivity.
Qed.

(** C2 (amended).  For the example configuration the scale-note universe
    is [60,62,64,65,67,69,71] (the seven pitches of C major in octave 4,
    without 72); every run of [generate] that returns has filled one bar
    whose length, as the fill loop uses it, is 2 seconds: the cursor of
    the loop ends on 2 and the reported duration is 2; and [generate]
    returns a result in which every note has velocity 80. *)
Theorem C2_example (rnd : RandomSource) (fuel pos : nat) :
  _get_scale_notes example_config = Ok [60; 62; 64; 65; 67; 69; 71]
  /\ (forall r pos',
        generate fuel example_config rnd pos = Ok (r, pos') ->
        exists st,
          fill_bars fuel example_config [60; 62; 64; 65; 67; 69; 71]
            (60 / inject_Z (tempo example_config)) (bar_seconds example_config)
            (py_range 0 (num_bars example_config)) initial_state rnd pos
            = Ok (st, pos') /\
          instruments (fst r)
            = [ {| program := instrument example_config; notes := st_notes st |} ] /\
          (bar_seconds example_config == 2)%Q /\
          (st_t st == 2)%Q /\
          (duration_seconds (stats (snd r)) == 2)%Q)
  /\ (valid_draws rnd -> (200 <= fuel)%nat ->
      exists r pos' track,
        generate fuel example_config rnd pos = Ok (r, pos') /\
        instruments (fst r) = [track] /\
        Forall (fun n => velocity n = 80) (notes track) /\
        scale_notes_used (stats (snd r)) = [60; 62; 64; 65; 67; 69; 71]).
Proof.
  assert (Hsn : _get_scale_notes example_config = Ok [60; 62; 64; 65; 67; 69; 71])
    by (vm_compute; reflexivity).
  split; [exact Hsn|]. split.
  - intros [pm md] pos' Hgen. apply generate_inv in Hgen.
    destruct Hgen as (sn & qd & st & Hsn' & Hqd & Hb & -> & ->).
    assert (sn = [60; 62; 64; 65; 67; 69; 71]) as -> by congruence.
    assert (qd = (60 / inject_Z (tempo example_config))%Q) as ->
      by (vm_compute in Hqd; injection Hqd as <-; reflexivity).
    exists st. split; [exact Hb|]. split; [reflexivity|].
    split; [vm_compute; reflexivity|].
    split; [eapply example_cursor; exact Hb|].
    vm_compute. reflexivity.
  - intros Hrnd Hfuel.
    destruct (generate_returns fuel example_config rnd pos _ ltac:(simpl; lia) Hsn)
      as ([pm md] & pos' & Hgen);
      [left; discriminate | exact Hrnd | vm_compute; lia |].
    pose proof Hgen as Hinv. apply generate_inv in Hinv.
    destruct Hinv as (sn & qd & st & Hsn' & _ & Hb & -> & ->).
    eexists _, pos', _. split; [exact Hgen|]. simpl.
    split; [reflexivity|]. split; [|congruence].
    eapply (fill_bars_preserves example_config sn qd rnd constant_velocity) in Hb.
    + exact Hb.
    + intros be p0 s s' p1 Hs [d _ _ _ _ -> | p d v h _ _ _ _ Hv _ _ ->];
        unfold state_holds, constant_velocity in *; simpl; [exact Hs|].
      apply Forall_app. split; [exact Hs|].
      constructor; [|constructor]. simpl. apply Hv. reflexivity.
    + constructor.
Qed.

(** C2 (witness): every draw equal to one half. *)
Lemma C2_example_witness :
  exists r pos' track,
    generate 200 example_config (constant_source 0.5) 0%nat = Ok (r, pos') /\
    instruments (fst r) = [track] /\
    Forall (fun n => velocity n = 80) (notes track) /\
    scale_notes_used (stats (snd r)) = [60; 62; 64; 65; 67; 69; 71] /\
    (duration_seconds (stats (snd r)) == 2)%Q.
Proof.
  destruct (C2_example (constant_source 0.5) 200 0) as (_ & Hbar & Hrun).
  destruct Hrun as (r & pos' & track & Hgen & Htrack & Hvel & Hsn).
  - apply valid_draws_constant; vm_compute; [discriminate | reflexivity].
  - lia.
  - exists r, pos', track. repeat (split; [assumption|]).
    destruct (Hbar r pos' Hgen) as (st & _ & _ & _ & _ & Hdur). exact Hdur.
Defined.

(* ------------------------------------------------------------------ *)
(** ** C4: the reported duration *)

Lemma Qlt_bool_comp (x x' y y' : Q) :
  (x == x')%Q -> (y == y')%Q -> Qlt_bool x y = Qlt_bool x' y'.
Proof. intros Hx Hy. unfold Qlt_bool. rewrite Hx, Hy. reflexivity. Qed.

Lemma py_round2_comp (x y : Q) : (x == y)%Q -> py_round2 x = py_round2 y.
Proof.
  intros H. unfold py_round2, round_half_even.
  assert (H100 : (x * 100 == y * 100)%Q) by (rewrite H; reflexivity).
  rewrite (Qfloor_comp _ _ H100).
  rewrite (Qlt_bool_comp (x * 100 - inject_Z (Qfloor (y * 100)))
             (y * 100 - inject_Z (Qfloor (y * 100))) (1 # 2) (1 # 2))
    by (rewrite ?H100; reflexivity).
  rewrite (Qlt_bool_comp (1 # 2) (1 # 2)
             (x * 100 - inject_Z (Qfloor (y * 100)))
             (y * 100 - inject_Z (Qfloor (y * 100))))
    by (rewrite ?H100; reflexivity).
  reflexivity.
Qed.

(** C4 (counterexample).  At 70 beats per minute, 8 bars of 4 beats last
    192/7 seconds; the statistic reports 27.43. *)
Lemma C4_counterexample :
  exists r pos',
    generate 400 tempo70_config (constant_source 0.5) 0%nat = Ok (r, pos') /\
    duration_seconds (stats (snd r)) = 27.43%Q /\
    ~ (duration_seconds (stats (snd r)) == nominal_duration tempo70_config)%Q.
Proof.
  destruct (generate 400 tempo70_config (constant_source 0.5) 0%nat)
    as [[[pm md] pos']| |] eqn:E; [|vm_compute in E; discriminate..].
  exists (pm, md), pos'. split; [reflexivity|].
  apply generate_inv in E. destruct E as (sn & qd & st & _ & Hqd & _ & _ & ->).
  injection Hqd as <-. simpl. split; [vm_compute; reflexivity|].
  vm_compute. discriminate.
Qed.

(** C4 (amended).  The [duration_seconds] statistic is the nominal
    duration [num_bars * time_signature_num * (60 / tempo)] rounded to two
    decimals: a whole number of hundredths that lies within 0.005 of the
    nominal duration and equals it whenever the nominal duration is itself
    a whole number of hundredths; it depends on the configuration only,
    every run that returns reporting the same value, whatever it drew. *)
Theorem C4_duration_rounded (cfg : SequenceConfig) (rnd : RandomSource)
    (fuel pos : nat) (r : PrettyMIDI * Metadata) (pos' : nat) :
  generate fuel cfg rnd pos = Ok (r, pos') ->
  (exists z : Z, (duration_seconds (stats (snd r)) == inject_Z z / 100)%Q)
  /\ (Qabs (duration_seconds (stats (snd r)) - nominal_duration cfg) <= 1 # 200)%Q
  /\ (forall z : Z,
        (nominal_duration cfg == inject_Z z / 100)%Q ->
        (duration_seconds (stats (snd r)) == nominal_duration cfg)%Q)
  /\ (forall (rnd2 : RandomSource) (fuel2 pos2 : nat) r2 pos2',
        generate fuel2 cfg rnd2 pos2 = Ok (r2, pos2') ->
        duration_seconds (stats (snd r2)) = duration_seconds (stats (snd r))).
Proof.
  intros Hgen. destruct r as [pm md]. apply generate_inv in Hgen.
  destruct Hgen as (sn & qd & st & _ & Hqd & _ & _ & ->).
  assert (Hsame : forall (rnd2 : RandomSource) (fuel2 pos2 : nat) r2 pos2',
            generate fuel2 cfg rnd2 pos2 = Ok (r2, pos2') ->
            duration_seconds (stats (snd r2))
            = py_round2 (inject_Z (num_bars cfg * time_signature_num cfg) * qd)).
  { intros rnd2 fuel2 pos2 [pm2 md2] pos2' Hgen2. apply generate_inv in Hgen2.
    destruct Hgen2 as (sn2 & qd2 & st2 & _ & Hqd2 & _ & _ & ->).
    simpl. congruence. }
  unfold py_div in Hqd. destruct (tempo cfg =? 0); [discriminate|].
  injection Hqd as <-. cbn [snd stats duration_seconds].
  assert (Heq : py_round2 (inject_Z (num_bars cfg * time_signature_num cfg)
                           * (60 / inject_Z (tempo cfg)))
                = py_round2 (nominal_duration cfg)).
  { apply py_round2_comp. unfold nominal_duration.
    rewrite inject_Z_mult. reflexivity. }
  split; [|split; [|split]].
  - unfold py_round2. eexists. reflexivity.
  - rewrite Heq. apply py_round2_near.
  - rewrite Heq. intros z Hz. eapply py_round2_exact, Hz.
  - exact Hsame.
Qed.

(** C4 (witness): the example configuration, one bar of 2 seconds. *)
Lemma C4_duration_rounded_witness :
  exists r pos',
    generate 200 example_config (constant_source 0.5) 0%nat = Ok (r, pos') /\
    (Qabs (duration_seconds (stats (snd r)) - nominal_duration example_config)
       <= 1 # 200)%Q.
Proof.
  destruct (generate 200 example_config (constant_source 0.5) 0%nat)
    as [[r pos']| |] eqn:E; [|vm_compute in E; discriminate..].
  exists r, pos'. split; [reflexivity|].
  exact (proj1 (proj2 (C4_duration_rounded example_config (constant_source 0.5)
                         200 0 r pos' E))).
Defined.

(* ------------------------------------------------------------------ *)
(** ** C8: the rhythm pattern does not reach the notes *)

Lemma differ_only_in_rhythm_eq (c1 c2 : SequenceConfig) :
  differ_only_in_rhythm c1 c2 ->
  c1 = with_rhythm_pattern (rhythm_pattern c1) c2.
Proof.
  destruct c1, c2. unfold differ_only_in_rhythm, with_rhythm_pattern. simpl.
  intros (-> & -> & -> & -> & -> & -> & -> & -> & -> & -> & ->). reflexivity.
Qed.

Lemma fill_bar_rhythm (p : string) (cfg : SequenceConfig) fuel scale_notes
    quarter_duration bar_end rnd :
  forall st pos,
    fill_bar fuel (with_rhythm_pattern p cfg) scale_notes quarter_duration bar_end
      st rnd pos
    = fill_bar fuel cfg scale_notes quarter_duration bar_end st rnd pos.
Proof.
  induction fuel as [|fuel IH]; intros st pos; [reflexivity|].
  cbn [fill_bar]. destruct (Qlt_bool (st_t st) (bar_end - 0.01)); [|reflexivity].
  unfold bind.
  change (fill_slot (with_rhythm_pattern p cfg) scale_notes quarter_duration bar_end st)
    with (fill_slot cfg scale_notes quarter_duration bar_end st).
  destruct (fill_slot cfg scale_notes quarter_duration bar_end st rnd pos)
    as [[st1 pos1]| |]; [apply IH | reflexivity..].
Qed.

Lemma fill_bars_rhythm (p : string) (cfg : SequenceConfig) fuel scale_notes
    quarter_duration bar_duration rnd bars :
  forall st pos,
    fill_bars fuel (with_rhythm_pattern p cfg) scale_notes quarter_duration
      bar_duration bars st rnd pos
    = fill_bars fuel cfg scale_notes quarter_duration bar_duration bars st rnd pos.
Proof.
  induction bars as [|bar bars IH]; intros st pos; [reflexivity|].
  cbn [fill_bars]. unfold bind. rewrite fill_bar_rhythm.
  destruct (fill_bar fuel cfg scale_notes quarter_duration _ _ rnd pos)
    as [[st1 pos1]| |]; [apply IH | reflexivity..].
Qed.

(** C8.  Two configurations that differ only in [rhythm_pattern], run on
    the same random draws, produce the same MIDI object and the same
    statistics, and consume the same number of draws: durations come from
    [_pick_duration], which reads the duration-variety profile, and the
    rhythm pattern is never consulted. *)
Theorem C8_rhythm_pattern_unused (c1 c2 : SequenceConfig) (rnd : RandomSource)
    (fuel pos : nat) :
  differ_only_in_rhythm c1 c2 ->
  notes_and_stats (generate fuel c1 rnd pos)
  = notes_and_stats (generate fuel c2 rnd pos).
Proof.
  intros Hd. rewrite (differ_only_in_rhythm_eq c1 c2 Hd).
  generalize (rhythm_pattern c1). intros p.
  unfold generate.
  change (_get_scale_notes (with_rhythm_pattern p c2)) with (_get_scale_notes c2).
  unfold bind at 1 6, lift at 1 4.
  destruct (_get_scale_notes c2) as [sn| |]; [|reflexivity..].
  cbn [tempo time_signature_num num_bars instrument with_rhythm_pattern].
  unfold bind at 1 5, lift at 1 3.
  destruct (py_div 60 (tempo c2)) as [qd| |]; [|reflexivity..].
  unfold bind at 1 3. rewrite fill_bars_rhythm.
  destruct (fill_bars fuel c2 sn qd _ _ _ rnd pos) as [[st pos1]| |];
    reflexivity.
Qed.

(** C8 (witness): the default configuration as a waltz. *)
Lemma C8_rhythm_pattern_unused_witness :
  notes_and_stats (generate 400 (with_rhythm_pattern "waltz" default_config)
                     (constant_source 0.5) 0%nat)
  = notes_and_stats (generate 400 default_config (constant_source 0.5) 0%nat).
Proof.
  apply (C8_rhythm_pattern_unused (with_rhythm_pattern "waltz" default_config)
           default_config (constant_source 0.5) 400 0).
  unfold differ_only_in_rhythm. simpl. repeat split; reflexivity.
Defined.

Example rhythm_patterns_differ :
  _get_rhythm_pattern default_config (constant_source 0.5) 0%nat
  <> _get_rhythm_pattern (with_rhythm_pattern "waltz" default_config)
       (constant_source 0.5) 0%nat.
Proof. vm_compute. discriminate. Qed.

(* ------------------------------------------------------------------ *)
(** ** C9: the fill loop terminates *)

(** C9.  For a configuration with a positive tempo, at least one bar and a
    non-empty scale-note universe, and draws of [[0, 1)]: every iteration
    of the fill loop succeeds and moves the time cursor strictly forward,
    by at least [min_step] and never past the end of the bar, whichever
    branch it takes; hence [iterations_bound] iterations per bar always
    suffice and [generate] returns a result. *)
Theorem C9_fill_loop_terminates (cfg : SequenceConfig) (rnd : RandomSource)
    (scale_notes : list Z) :
  0 < tempo cfg ->
  1 <= num_bars cfg ->
  _get_scale_notes cfg = Ok scale_notes ->
  scale_notes <> [] ->
  valid_draws rnd ->
  (forall quarter_duration bar_end st pos,
      py_div 60 (tempo cfg) = Ok quarter_duration ->
      length (st_pitch_histogram st) = 12%nat ->
      (st_t st < bar_end - 0.01)%Q ->
      exists st' pos',
        fill_slot cfg scale_notes quarter_duration bar_end st rnd pos = Ok (st', pos') /\
        (st_t st < st_t st')%Q /\
        (st_t st + min_step quarter_duration <= st_t st')%Q /\
        (st_t st' <= bar_end)%Q)
  /\ (forall fuel pos,
        (iterations_bound cfg <= fuel)%nat ->
        exists r pos', generate fuel cfg rnd pos = Ok (r, pos')).
Proof.
  intros Htempo _ Hsn Hne Hrnd. split.
  - intros qd be st pos Hqd Hlen Ht.
    destruct (py_div_pos _ Htempo) as (qd' & Hqd' & Hpos).
    assert (qd' = qd) as -> by congruence.
    destruct (fill_slot_ok cfg scale_notes qd be st rnd pos Hrnd Hlen (or_introl Hne))
      as (st' & pos' & Hs).
    exists st', pos'. split; [exact Hs|].
    apply fill_slot_inv in Hs.
    destruct (slot_result_advance _ _ _ _ _ _ _ _ _ Hpos Ht Hs) as [Hadv Hend].
    pose proof (min_step_pos _ Hpos). repeat split; lra.
  - intros fuel pos Hfuel.
    eapply generate_returns; eauto.
Qed.

(** C9 (witness): the default configuration, draws all equal to 0.5. *)
Lemma C9_fill_loop_terminates_witness :
  exists r pos', generate 400 default_config (constant_source 0.5) 0%nat = Ok (r, pos').
Proof.
  refine (proj2 (C9_fill_loop_terminates default_config (constant_source 0.5)
                   _ _ _ _ _ _) 400%nat 0%nat _).
  - simpl. lia.
  - simpl. lia.
  - vm_compute. reflexivity.
  - discriminate.
  - apply valid_draws_constant; vm_compute; [discriminate | reflexivity].
  - vm_compute. lia.
Defined.

(* ------------------------------------------------------------------ *)
(** ** C5: the dictionary round trip *)

(** C5.  [from_dict (to_dict cfg)] is the instance holding exactly the
    fields of [cfg]; in the dictionary [octave_range] is the two-element
    list [[lo, hi]], restored as the tuple [(lo, hi)] in that order. *)
Theorem C5_round_trip (cfg : SequenceConfig) :
  from_dict (to_dict cfg) = Ok (object_of cfg)
  /\ config_of (object_of cfg) = Some cfg
  /\ to_dict cfg !! "octave_range"
     = Some (PList [PInt (fst (octave_range cfg)); PInt (snd (octave_range cfg))])
  /\ o_octave_range (object_of cfg)
     = PTuple [PInt (fst (octave_range cfg)); PInt (snd (octave_range cfg))].
Proof.
  destruct cfg as [k s t n d b [lo hi] r v p vv i].
  repeat split; vm_compute; reflexivity.
Qed.

(* ------------------------------------------------------------------ *)
(** ** C3: what [from_dict] accepts *)

Lemma keys_check (d : gmap string pyval) :
  forallb (fun kv => bool_decide (fst kv ∈ field_names)) (map_to_list d) = true
  <-> (forall k, is_Some (d !! k) -> k ∈ field_names).
Proof.
  rewrite forallb_forall. split.
  - intros H k [v Hv]. apply elem_of_map_to_list, list_elem_of_In in Hv.
    apply H in Hv. apply bool_decide_eq_true in Hv. exact Hv.
  - intros H [k v] Hin. apply list_elem_of_In, elem_of_map_to_list in Hin.
    apply bool_decide_eq_true. simpl. apply H. eauto.
Qed.

Lemma construct_ok (d : gmap string pyval) :
  (forall k, is_Some (d !! k) -> k ∈ field_names) ->
  exists o, construct d = Ok o /\
    forall name,
      attribute o name =
      match d !! name with
      | Some v => Some v
      | None => attribute (object_of default_config) name
      end.
Proof.
  intros Hkeys. unfold construct.
  rewrite (proj2 (keys_check d) Hkeys). eexists. split; [reflexivity|].
  intros name. unfold attribute, attributes.
  cbn [dict_get o_key o_scale o_tempo o_time_signature_num o_time_signature_den
       o_num_bars o_octave_range o_rhythm_pattern o_note_duration_variety
       o_rest_probability o_velocity_variation o_instrument object_of].
  repeat match goal with
  | |- context [String.eqb name ?s] =>
      destruct (String.eqb_spec name s) as [->|?];
        [destruct (d !! s); reflexivity|]
  end.
  destruct (d !! name) as [v|] eqn:Hv; [|reflexivity].
  assert (Hin : name ∈ field_names) by (apply Hkeys; eauto).
  apply list_elem_of_In in Hin. simpl in Hin. intuition congruence.
Qed.

Lemma construct_fail (d : gmap string pyval) :
  ~ (forall k, is_Some (d !! k) -> k ∈ field_names) ->
  construct d = Raise TypeError.
Proof.
  intros Hkeys. unfold construct.
  destruct (forallb _ (map_to_list d)) eqn:E; [|reflexivity].
  exfalso. apply Hkeys, keys_check, E.
Qed.

Lemma py_tuple_cases (v : pyval) :
  (exists t, py_tuple v = Ok t) \/ py_tuple v = Raise TypeError.
Proof. destruct v; simpl; eauto. Qed.

Lemma keys_insert_present (d : gmap string pyval) (k : string) (v t : pyval) :
  d !! k = Some v ->
  (forall j, is_Some (<[ k := t ]> d !! j) -> j ∈ field_names)
  <-> (forall j, is_Some (d !! j) -> j ∈ field_names).
Proof.
  intros Hk. split; intros H j Hj; apply H.
  - destruct (decide (k = j)) as [->|Hne].
    + rewrite lookup_insert_eq. eauto.
    + rewrite lookup_insert_ne by exact Hne. exact Hj.
  - destruct (decide (k = j)) as [->|Hne].
    + eauto.
    + rewrite lookup_insert_ne in Hj by exact Hne. exact Hj.
Qed.

(** C3 (counterexample).  With every field missing [from_dict] builds the
    default configuration; a negative tempo and a rest probability that
    is a string are stored as they come; and a key that is not a field is
    not ignored but makes the call fail, with [TypeError]. *)
Lemma C3_counterexample :
  from_dict ∅ = Ok (object_of default_config)
  /\ (exists o, from_dict {[ "tempo" := PInt (-5) ]} = Ok o /\ o_tempo o = PInt (-5))
  /\ (exists o, from_dict {[ "rest_probability" := PStr "often" ]} = Ok o
                /\ o_rest_probability o = PStr "often")
  /\ from_dict {[ "mood" := PStr "calm" ]} = Raise TypeError.
Proof.
  split; [vm_compute; reflexivity|].
  split; [eexists; split; vm_compute; reflexivity|].
  split; [eexists; split; vm_compute; reflexivity|].
  vm_compute. reflexivity.
Qed.

(** C3 (amended).  [from_dict] validates nothing: it succeeds exactly on
    the dictionaries whose keys all name fields (and whose [octave_range],
    if present, is iterable), storing each supplied value unchecked
    ([octave_range] as a tuple) and giving each missing field its
    default; on every other dictionary it fails with [TypeError]. *)
Theorem C3_from_dict (d : gmap string pyval) :
  (accepted d ->
   exists o,
     from_dict d = Ok o /\
     (forall name v,
        name <> "octave_range"%string -> d !! name = Some v ->
        attribute o name = Some v) /\
     (forall v, d !! "octave_range" = Some v -> py_tuple v = Ok (o_octave_range o)) /\
     (forall name,
        d !! name = None ->
        attribute o name = attribute (object_of default_config) name))
  /\ (~ accepted d -> from_dict d = Raise TypeError).
Proof.
  unfold from_dict. split.
  - intros [Hkeys Htuple].
    destruct (d !! "octave_range") as [v|] eqn:Hv.
    + destruct (Htuple v eq_refl) as [t Ht]. rewrite Ht.
      destruct (construct_ok (<[ "octave_range" := t ]> d)) as (o & Ho & Hattr).
      { eapply keys_insert_present; eauto. }
      exists o. split; [exact Ho|]. split; [|split].
      * intros name w Hne Hw. rewrite Hattr, lookup_insert_ne by congruence.
        rewrite Hw. reflexivity.
      * intros w [= <-]. rewrite Ht. f_equal.
        specialize (Hattr "octave_range"%string).
        rewrite lookup_insert_eq in Hattr. unfold attribute in Hattr.
        simpl in Hattr. congruence.
      * intros name Hnone. rewrite Hattr.
        rewrite lookup_insert_ne by congruence. rewrite Hnone. reflexivity.
    + destruct (construct_ok d Hkeys) as (o & Ho & Hattr).
      exists o. split; [exact Ho|]. split; [|split].
      * intros name w _ Hw. rewrite Hattr, Hw. reflexivity.
      * intros w Hw. discriminate.
      * intros name Hnone. rewrite Hattr, Hnone. reflexivity.
  - intros Hno.
    destruct (d !! "octave_range") as [v|] eqn:Hv.
    + destruct (py_tuple_cases v) as [[t Ht] | Hfail]; rewrite ?Ht, ?Hfail;
        [|reflexivity].
      apply construct_fail. intros Hkeys. apply Hno. split.
      * eapply keys_insert_present; eauto.
      * intros w Hw. rewrite Hv in Hw. injection Hw as <-. eauto.
    + apply construct_fail. intros Hkeys. apply Hno. split; [exact Hkeys|].
      intros w Hw. rewrite Hv in Hw. discriminate.
Qed.

(** C3 (witness): a dictionary that overrides the tempo only. *)
Lemma C3_from_dict_witness :
  exists o,
    from_dict {[ "tempo" := PInt 90 ]} = Ok o /\
    attribute o "tempo" = Some (PInt 90) /\
    attribute o "num_bars" = Some (PInt 8).
Proof.
  destruct (proj1 (C3_from_dict {[ "tempo" := PInt 90 ]})) as (o & Ho & Hset & _ & Hdflt).
  - split.
    + intros k [v Hv]. apply lookup_singleton_Some in Hv. destruct Hv as [<- _].
      vm_compute. repeat first [apply list_elem_of_here | apply list_elem_of_further].
    + intros v Hv. vm_compute in Hv. discriminate.
  - exists o. split; [exact Ho|]. split.
    + apply Hset; [discriminate | vm_compute; reflexivity].
    + rewrite Hdflt by (vm_compute; reflexivity). reflexivity.
Defined.

(* ------------------------------------------------------------------ *)
(** ** C6: the shape of the emitted notes *)

(** C6 (the code at a failing input).  At 240 beats per minute a
    sixteenth lasts 0.0625 s.  When the first slot is such a note and its
    jitter is negative, [start] is clamped to 0 while [end] is clamped
    against the unclamped start, [-0.005 + 0.05]: the note runs from 0 to
    0.048125 s, shorter than 0.05 s. *)
Theorem C6_first_note_too_short :
  valid_config tempo240_config /\ valid_draws early_draws /\
  exists r pos' track n others,
    generate 400 tempo240_config early_draws 0%nat = Ok (r, pos') /\
    instruments (fst r) = [track] /\
    notes track = n :: others /\
    start n = 0%Q /\
    (end_ n == 0.048125)%Q /\
    (end_ n - start n < 0.05)%Q.
Proof.
  split; [|split].
  - unfold valid_config. simpl.
    repeat split; try (eexists; reflexivity); try lia; vm_compute; discriminate.
  - intros n. unfold early_draws, source_of_list.
    do 5 (destruct n as [|n]; [vm_compute; split; [discriminate | reflexivity]|]).
    destruct n; vm_compute; split; try discriminate; reflexivity.
  - eexists _, _, _, _, _.
    split; [vm_compute; reflexivity|].
    split; [reflexivity|]. split; [reflexivity|].
    split; [reflexivity|]. split; vm_compute; reflexivity.
Qed.

Lemma note_at_well_shaped (t dur_sec u gate : Q) (v p : Z) :
  (0 <= t)%Q -> (0 <= u)%Q -> 21 <= p <= 108 ->
  well_shaped (note_at t dur_sec (jitter_of u) gate v p).
Proof.
  intros Ht Hu Hp. unfold well_shaped, note_at, jitter_of. simpl.
  set (s := (t + (-0.01 + (0.01 - -0.01) * u))%Q).
  assert (Hs : (-0.01 <= s)%Q) by (unfold s; nra).
  set (e := (s + dur_sec * gate)%Q).
  destruct (py_max_cases 0 s) as [[H0 ->]|[H0 ->]];
    destruct (py_max_cases (s + 0.05) e) as [[H1 ->]|[H1 ->]];
    repeat split; try lia; try lra.
Qed.

Lemma py_range_nonneg (n bar : Z) : bar ∈ py_range 0 n -> 0 <= bar.
Proof.
  intros H. apply list_elem_of_In in H. unfold py_range in H.
  apply in_map_iff in H. destruct H as (i & <- & _). lia.
Qed.

(** X18.  With a positive tempo, a meter numerator that is not negative
    and draws of [[0, 1)], every emitted note is well shaped: a pitch of
    the piano range 21..108, a start that is not negative, an end after
    the start, and a length of at least 0.05 s whenever the note starts
    after time 0 (the part of C6 that the code does establish). *)
Lemma emitted_notes_shape (cfg : SequenceConfig) (rnd : RandomSource)
    (fuel pos : nat) (r : PrettyMIDI * Metadata) (pos' : nat) :
  0 < tempo cfg ->
  0 <= time_signature_num cfg ->
  valid_draws rnd ->
  generate fuel cfg rnd pos = Ok (r, pos') ->
  forall track, track ∈ instruments (fst r) -> Forall well_shaped (notes track).
Proof.
  intros Htempo Hnum Hrnd Hgen track Htrack. destruct r as [pm md].
  apply generate_inv in Hgen.
  destruct Hgen as (sn & qd & st & Hsn & Hqd & Hb & -> & _).
  destruct (py_div_pos _ Htempo) as (qd' & Hqd' & Hpos).
  assert (qd' = qd) as -> by congruence.
  apply _get_scale_notes_in_range in Hsn.
  eapply (fill_bars_invariant cfg sn qd rnd cursor_and_notes_ok) in Hb.
  - simpl in Htrack. apply list_elem_of_singleton in Htrack. subst track.
    apply Hb.
  - intros be p0 s s' p1 [Ht Hnotes] Hlt Hres.
    destruct (slot_result_advance _ _ _ _ _ _ _ _ _ Hpos Hlt Hres) as [Hadv _].
    pose proof (min_step_pos _ Hpos) as Hstep.
    split; [lra|].
    destruct Hres as [d _ _ _ _ -> | p d v h _ Hin _ _ _ _ _ ->]; simpl;
      [exact Hnotes|].
    apply Forall_app. split; [exact Hnotes|].
    constructor; [|constructor].
    apply note_at_well_shaped; [exact Ht | apply Hrnd |].
    rewrite Forall_forall in Hsn. apply Hsn, Hin.
  - intros bar s Hbar [_ Hnotes]. split; [|exact Hnotes]. simpl.
    apply py_range_nonneg in Hbar.
    assert (H0 : (0 <= inject_Z bar)%Q).
    { change 0%Q with (inject_Z 0). rewrite <- Zle_Qle. exact Hbar. }
    assert (H1 : (0 <= inject_Z (time_signature_num cfg))%Q).
    { change 0%Q with (inject_Z 0). rewrite <- Zle_Qle. exact Hnum. }
    apply Qmult_le_0_compat; [exact H0|].
    apply Qmult_le_0_compat; [exact H1 | lra].
  - split; [simpl; lra | constructor].
Qed.

(* ================================================================== *)
(** * Further properties of the code *)

(* ------------------------------------------------------------------ *)
(** ** The scale-note universe as a set and as a list *)

Lemma dict_get_elem {V : Type} (d : list (string * V)) (k : string) (v : V) :
  dict_get d k = Some v -> (k, v) ∈ d.
Proof.
  induction d as [|[k' v'] d IH]; simpl; [discriminate|].
  destruct (String.eqb_spec k k') as [->|_].
  - intros [= ->]. left.
  - intros H. right. apply IH, H.
Qed.

Lemma key_offset_range (k : string) (root : Z) :
  dict_get KEY_OFFSETS k = Some root -> 0 <= root <= 11.
Proof.
  intros H. apply dict_get_elem in H.
  assert (Hall : Forall (fun kv : string * Z => 0 <= snd kv <= 11) KEY_OFFSETS)
    by (repeat constructor; simpl; lia).
  rewrite Forall_forall in Hall. apply (Hall _ H).
Qed.

(** The shape every entry of [SCALE_INTERVALS] has: strictly ascending
    offsets within one octave, the first being the root. *)
Lemma scale_intervals_shape (s : string) (intervals : list Z) :
  dict_get SCALE_INTERVALS s = Some intervals ->
  StronglySorted Z.lt intervals /\
  Forall (fun i => 0 <= i <= 11) intervals /\
  0 ∈ intervals.
Proof.
  intros H. apply dict_get_elem in H.
  assert (Hall : Forall (fun kv : string * list Z =>
                           StronglySorted Z.lt (snd kv) /\
                           Forall (fun i => 0 <= i <= 11) (snd kv) /\
                           0 ∈ snd kv) SCALE_INTERVALS).
  { repeat (apply Forall_cons; split;
            [simpl; split; [repeat constructor; lia
                           | split; [repeat constructor; lia | left]] |]).
    apply Forall_nil. exact I. }
  rewrite Forall_forall in Hall. apply (Hall _ H).
Qed.

Lemma py_range_elem (lo hi x : Z) : x ∈ py_range lo hi <-> lo <= x < hi.
Proof.
  unfold py_range. rewrite list_elem_of_In, in_map_iff. split.
  - intros (i & <- & Hi). apply in_seq in Hi. lia.
  - intros Hx. exists (Z.to_nat (x - lo)). split; [lia|].
    apply in_seq. lia.
Qed.

Lemma py_range_NoDup (lo hi : Z) : NoDup (py_range lo hi).
Proof.
  unfold py_range. apply NoDup_fmap_2; [|apply NoDup_seq].
  intros i j Hij. lia.
Qed.

Lemma scale_candidates_elem (root : Z) (intervals : list Z) (lo hi p : Z) :
  p ∈ scale_candidates root intervals lo hi <->
  21 <= p <= 108 /\
  exists octave interval,
    lo <= octave <= hi /\ interval ∈ intervals /\
    p = (octave + 1) * 12 + root + interval.
Proof.
  unfold scale_candidates. rewrite list_elem_of_In, in_flat_map. split.
  - intros (octave & Ho & Hp). apply filter_In in Hp. destruct Hp as [Hp Hr].
    apply in_map_iff in Hp. destruct Hp as (interval & <- & Hi).
    apply list_elem_of_In, py_range_elem in Ho.
    apply andb_true_iff in Hr. split; [lia|].
    exists octave, interval. rewrite list_elem_of_In. repeat split; auto; lia.
  - intros (Hr & octave & interval & Ho & Hi & ->).
    exists octave. split.
    + apply list_elem_of_In, py_range_elem. lia.
    + apply filter_In. split.
      * apply in_map_iff. exists interval. split; [reflexivity|].
        apply list_elem_of_In, Hi.
      * apply andb_true_iff. lia.
Qed.

Lemma scale_candidates_NoDup (root : Z) (intervals : list Z) (lo hi : Z) :
  StronglySorted Z.lt intervals ->
  Forall (fun i => 0 <= i <= 11) intervals ->
  NoDup (scale_candidates root intervals lo hi).
Proof.
  intros Hsorted Hrange.
  assert (Hnd : NoDup intervals).
  { clear Hrange. induction Hsorted as [|i l _ IH Hlt]; constructor; [|exact IH].
    intros Hin. rewrite Forall_forall in Hlt. specialize (Hlt _ Hin). lia. }
  unfold scale_candidates.
  replace (List.flat_map _ (py_range lo (hi + 1)))
    with (py_range lo (hi + 1) ≫=
            (fun octave =>
               List.filter (fun midi_note => (21 <=? midi_note) && (midi_note <=? 108))
                 (List.map (fun interval => (octave + 1) * 12 + root + interval)
                    intervals))).
  2: { induction (py_range lo (hi + 1)) as [|o l IH]; simpl; [reflexivity|].
       rewrite <- IH. reflexivity. }
  rewrite Forall_forall in Hrange.
  apply NoDup_bind; [| |apply py_range_NoDup].
  - intros o1 o2 p _ _ H1 H2.
    apply list_elem_of_In, filter_In in H1. destruct H1 as [H1 _].
    apply list_elem_of_In, filter_In in H2. destruct H2 as [H2 _].
    apply in_map_iff in H1. destruct H1 as (i1 & <- & Hi1).
    apply in_map_iff in H2. destruct H2 as (i2 & Heq & Hi2).
    apply list_elem_of_In, Hrange in Hi1. apply list_elem_of_In, Hrange in Hi2.
    lia.
  - intros o _. apply NoDup_ListNoDup, List.NoDup_filter, NoDup_ListNoDup.
    apply NoDup_fmap_2; [|exact Hnd]. intros i j Hij. lia.
Qed.

Lemma StronglySorted_le_lt (l : list Z) :
  StronglySorted Z.le l -> NoDup l -> StronglySorted Z.lt l.
Proof.
  induction 1 as [|x l _ IH Hle]; intros Hnd; constructor.
  - apply IH. apply NoDup_cons in Hnd. tauto.
  - apply NoDup_cons in Hnd. destruct Hnd as [Hx _].
    rewrite Forall_forall in *. intros y Hy.
    specialize (Hle y Hy). assert (x <> y) by (intros ->; auto). lia.
Qed.

(** X1.  The list [_get_scale_notes] returns is strictly ascending: it is
    sorted and holds no pitch twice. *)
Theorem scale_notes_strictly_ascending (cfg : SequenceConfig) (sn : list Z) :
  _get_scale_notes cfg = Ok sn -> StronglySorted Z.lt sn.
Proof.
  intros H. apply _get_scale_notes_inv in H.
  destruct H as (root & intervals & _ & Hs & ->).
  destruct (scale_intervals_shape _ _ Hs) as (Hsorted & Hrange & _).
  apply StronglySorted_le_lt.
  - apply StronglySorted_merge_sort; [exact Z.le_trans | intros x y; lia].
  - rewrite merge_sort_Permutation. apply scale_candidates_NoDup; assumption.
Qed.

(** X1 (witness). *)
Lemma scale_notes_strictly_ascending_witness :
  StronglySorted Z.lt [60; 62; 64; 65; 67; 69; 71].
Proof.
  apply (scale_notes_strictly_ascending example_config). vm_compute. reflexivity.
Defined.

(** X2.  A pitch belongs to the list [_get_scale_notes] returns exactly
    when it lies in the piano range 21..108 and is the root of the key,
    raised by an interval of the scale, in an octave of the range. *)
Theorem scale_notes_membership (cfg : SequenceConfig) (sn : list Z) (root : Z)
    (intervals : list Z) (p : Z) :
  _get_scale_notes cfg = Ok sn ->
  dict_get KEY_OFFSETS (key cfg) = Some root ->
  dict_get SCALE_INTERVALS (scale cfg) = Some intervals ->
  (p ∈ sn <->
   21 <= p <= 108 /\
   exists octave interval,
     fst (octave_range cfg) <= octave <= snd (octave_range cfg) /\
     interval ∈ intervals /\
     p = (octave + 1) * 12 + root + interval).
Proof.
  intros H Hk Hs. apply _get_scale_notes_inv in H.
  destruct H as (root' & intervals' & Hk' & Hs' & ->).
  assert (root' = root) as -> by congruence.
  assert (intervals' = intervals) as -> by congruence.
  rewrite merge_sort_Permutation. apply scale_candidates_elem.
Qed.

(** X2 (witness): middle C in the example configuration. *)
Lemma scale_notes_membership_witness :
  60 ∈ [60; 62; 64; 65; 67; 69; 71] <->
  21 <= 60 <= 108 /\
  exists octave interval,
    4 <= octave <= 4 /\ interval ∈ [0; 2; 4; 5; 7; 9; 11] /\
    60 = (octave + 1) * 12 + 0 + interval.
Proof.
  apply (scale_notes_membership example_config [60; 62; 64; 65; 67; 69; 71] 0
           [0; 2; 4; 5; 7; 9; 11] 60); vm_compute; reflexivity.
Defined.

Lemma _get_scale_notes_nonempty (cfg : SequenceConfig) :
  is_Some (dict_get KEY_OFFSETS (key cfg)) ->
  is_Some (dict_get SCALE_INTERVALS (scale cfg)) ->
  1 <= fst (octave_range cfg) <= 7 ->
  fst (octave_range cfg) <= snd (octave_range cfg) ->
  exists p ps, _get_scale_notes cfg = Ok (p :: ps).
Proof.
  intros [root Hk] [intervals Hs] Hlo Hhi.
  destruct (_get_scale_notes_ok cfg) as [sn Hsn]; [eauto..|].
  pose proof (key_offset_range _ _ Hk) as Hroot.
  destruct (scale_intervals_shape _ _ Hs) as (_ & _ & H0).
  assert (Hin : (fst (octave_range cfg) + 1) * 12 + root + 0 ∈ sn).
  { pose proof Hsn as Hinv. apply _get_scale_notes_inv in Hinv.
    destruct Hinv as (root' & intervals' & Hk' & Hs' & ->).
    assert (root' = root) as -> by congruence.
    assert (intervals' = intervals) as -> by congruence.
    rewrite merge_sort_Permutation. apply scale_candidates_elem.
    split; [lia|]. exists (fst (octave_range cfg)), 0. repeat split; auto; lia. }
  destruct sn as [|p ps]; [inversion Hin | eauto].
Qed.

(** X3.  For a known key and scale and an octave range that starts in
    octaves 1..7 and is not reversed, the scale-note universe is not
    empty: it holds the root of the lowest octave. *)
Theorem scale_notes_nonempty (cfg : SequenceConfig) :
  known_key_and_scale cfg ->
  1 <= fst (octave_range cfg) <= 7 ->
  fst (octave_range cfg) <= snd (octave_range cfg) ->
  exists p ps, _get_scale_notes cfg = Ok (p :: ps).
Proof.
  intros [Hk Hs]. apply _get_scale_notes_nonempty; assumption.
Qed.

(** X3 (witness): the default configuration. *)
Lemma scale_notes_nonempty_witness :
  exists p ps, _get_scale_notes default_config = Ok (p :: ps).
Proof.
  apply scale_notes_nonempty; simpl; try lia.
  split; eexists; reflexivity.
Defined.

(* ------------------------------------------------------------------ *)
(** ** What the emitted notes are made of *)

(** A concrete run used by the witnesses: the example configuration on
    draws all equal to 0.5 emits at least one note. *)
Lemma example_run :
  exists r pos' track n others,
    generate 8 example_config (constant_source 0.5) 0%nat = Ok (r, pos') /\
    instruments (fst r) = [track] /\ notes track = n :: others.
Proof.
  eexists _, _, _, _, _. split; [vm_compute; reflexivity|].
  split; reflexivity.
Qed.

Lemma half_draws_valid : valid_draws (constant_source 0.5).
Proof. apply valid_draws_constant; vm_compute; [discriminate | reflexivity]. Qed.

(** X4.  Every note [generate] emits has a pitch of the scale-note list
    reported in the statistics. *)
Theorem emitted_pitches_from_universe (cfg : SequenceConfig) (rnd : RandomSource)
    (fuel pos : nat) (r : PrettyMIDI * Metadata) (pos' : nat) :
  generate fuel cfg rnd pos = Ok (r, pos') ->
  forall track n,
    track ∈ instruments (fst r) -> n ∈ notes track ->
    pitch n ∈ scale_notes_used (stats (snd r)).
Proof.
  intros Hgen track n Htrack Hn. destruct r as [pm md].
  apply generate_inv in Hgen.
  destruct Hgen as (sn & qd & st & _ & _ & Hb & -> & ->).
  eapply (fill_bars_preserves cfg sn qd rnd (pitches_from sn)) in Hb.
  - simpl in *. apply list_elem_of_singleton in Htrack. subst track.
    unfold state_holds, pitches_from in Hb. rewrite Forall_forall in Hb.
    apply Hb, Hn.
  - intros be p0 s s' p1 Hs [d _ _ _ _ -> | p d v h _ Hin _ _ _ _ _ ->];
      unfold state_holds, pitches_from in *; simpl; [exact Hs|].
    apply Forall_app. split; [exact Hs|]. repeat constructor. exact Hin.
  - constructor.
Qed.

(** X4 (witness): the first note of a run of the example configuration. *)
Lemma emitted_pitches_from_universe_witness :
  exists r pos' n,
    generate 8 example_config (constant_source 0.5) 0%nat = Ok (r, pos') /\
    pitch n ∈ scale_notes_used (stats (snd r)).
Proof.
  destruct example_run as (r & pos' & track & n & others & E & Ht & Hn).
  exists r, pos', n. split; [exact E|].
  apply (emitted_pitches_from_universe _ _ _ _ _ _ E track n).
  - rewrite Ht. left.
  - rewrite Hn. left.
Defined.

Lemma _velocity_range (cfg : SequenceConfig) (rnd : RandomSource) (pos pos' : nat)
    (v : Z) :
  valid_draws rnd ->
  _velocity cfg rnd pos = Ok (v, pos') -> 55 <= v <= 110.
Proof.
  intros Hrnd. unfold _velocity, randint, bind, random, ret.
  destruct (velocity_variation cfg); [|intros [= <- _]; lia].
  change (inject_Z (110 - 55 + 1)) with 56%Q.
  destruct (Hrnd pos) as [H0 H1].
  pose proof (Qfloor_le (rnd pos * 56)) as Hlo.
  pose proof (Qlt_floor (rnd pos * 56)) as Hhi.
  assert (Ha : 0 <= Qfloor (rnd pos * 56)).
  { rewrite <- (Qfloor_Z 0). apply Qfloor_resp_le.
    change (inject_Z 0) with 0%Q. nra. }
  assert (Hb : Qfloor (rnd pos * 56) < 56).
  { rewrite Zlt_Qlt. change (inject_Z 56) with 56%Q. nra. }
  set (f := Qfloor (rnd pos * 56)) in *. intros [= <- _].
  lia.
Qed.

(** What an iteration adds to the notes, with the velocity it drew. *)
Lemma fill_slot_notes cfg scale_notes quarter_duration bar_end st rnd pos st' pos' :
  fill_slot cfg scale_notes quarter_duration bar_end st rnd pos = Ok (st', pos') ->
  st_notes st' = st_notes st \/
  exists n pos5 pos6,
    st_notes st' = st_notes st ++ [n] /\
    _velocity cfg rnd pos5 = Ok (velocity n, pos6).
Proof.
  unfold fill_slot. unfold bind at 1. unfold random at 1.
  destruct (Qlt_bool (rnd pos) (rest_probability cfg)).
  - destruct (_pick_duration_ok cfg rnd (S pos)) as (d & Hd & _).
    unfold bind. rewrite Hd. unfold ret. intros [= <- <-]. left. reflexivity.
  - unfold bind at 1.
    destruct (choice scale_notes rnd (S pos)) as [[p pos1]| |]; try discriminate.
    unfold bind at 1.
    destruct (_pick_duration cfg rnd pos1) as [[d pos2]| |]; try discriminate.
    unfold bind at 1. unfold uniform at 1, bind at 1, random at 1, ret at 1.
    unfold bind at 1. unfold uniform at 1, bind at 1, random at 1, ret at 1.
    unfold bind at 1.
    destruct (_velocity cfg rnd (S (S pos2))) as [[v pos3]| |] eqn:Hv;
      try discriminate.
    unfold bind at 1, lift.
    destruct (histogram_incr (st_pitch_histogram st) (p mod 12)) as [h| |];
      try discriminate.
    unfold ret. intros [= <- <-]. right. simpl.
    eexists _, _, _. split; [reflexivity|]. simpl. exact Hv.
Qed.

(** X5.  With draws of [[0, 1)], every note [generate] emits has a
    velocity between 55 and 110: a uniform integer of that range with
    velocity variation, the constant 80 without. *)
Theorem emitted_velocity_range (cfg : SequenceConfig) (rnd : RandomSource)
    (fuel pos : nat) (r : PrettyMIDI * Metadata) (pos' : nat) :
  valid_draws rnd ->
  generate fuel cfg rnd pos = Ok (r, pos') ->
  forall track n,
    track ∈ instruments (fst r) -> n ∈ notes track ->
    55 <= velocity n <= 110 /\ (velocity_variation cfg = false -> velocity n = 80).
Proof.
  intros Hrnd Hgen track n Htrack Hn. destruct r as [pm md].
  apply generate_inv in Hgen.
  destruct Hgen as (sn & qd & st & _ & _ & Hb & -> & _).
  set (good := fun m : Note =>
                 55 <= velocity m <= 110 /\
                 (velocity_variation cfg = false -> velocity m = 80)).
  eapply (fill_bars_keeps cfg sn qd rnd
            (fun s => Forall good (st_notes s))) in Hb.
  - simpl in *. apply list_elem_of_singleton in Htrack. subst track.
    rewrite Forall_forall in Hb. apply (Hb n Hn).
  - intros bar p0 s s' p1 _ Hs _ Hslot.
    apply fill_slot_notes in Hslot.
    destruct Hslot as [-> | (m & p5 & p6 & -> & Hv)]; [exact Hs|].
    apply Forall_app. split; [exact Hs|]. repeat constructor.
    + eapply _velocity_range; eauto.
    + eapply _velocity_range; eauto.
    + intros Hvv. unfold _velocity in Hv. rewrite Hvv in Hv.
      unfold ret in Hv. congruence.
  - intros bar s _ Hs. exact Hs.
  - constructor.
Qed.

(** X5 (witness). *)
Lemma emitted_velocity_range_witness :
  exists r pos' n,
    generate 8 example_config (constant_source 0.5) 0%nat = Ok (r, pos') /\
    55 <= velocity n <= 110.
Proof.
  destruct example_run as (r & pos' & track & n & others & E & Ht & Hn).
  exists r, pos', n. split; [exact E|].
  apply (emitted_velocity_range _ _ _ _ _ _ half_draws_valid E track n).
  - rewrite Ht. left.
  - rewrite Hn. left.
Defined.

(* ------------------------------------------------------------------ *)
(** ** The pitch-class histogram *)

Lemma class_count_snoc (k : Z) (ns : list Note) (n : Note) :
  class_count k (ns ++ [n])
  = class_count k ns + (if pitch n mod 12 =? k then 1 else 0).
Proof.
  unfold class_count. rewrite List.filter_app, length_app. simpl.
  destruct (pitch n mod 12 =? k); simpl; lia.
Qed.

Lemma histogram_exact_slot cfg scale_notes quarter_duration bar_end rnd pos st st' pos' :
  state_holds histogram_exact st ->
  slot_result cfg scale_notes quarter_duration bar_end rnd pos st st' pos' ->
  state_holds histogram_exact st'.
Proof.
  intros [Hlen Hex] [d _ _ _ _ -> | p d v h _ _ _ _ _ _ Hh ->];
    unfold state_holds, histogram_exact; simpl; [auto|].
  split; [rewrite (histogram_incr_length _ _ _ Hh); exact Hlen|].
  intros k Hk. rewrite class_count_snoc. simpl.
  unfold histogram_incr in Hh.
  destruct (st_pitch_histogram st !! Z.to_nat (p mod 12)) as [c|] eqn:Hc;
    [|discriminate].
  injection Hh as <-.
  pose proof (Z.mod_pos_bound p 12 ltac:(lia)) as Hp.
  destruct (Z.eqb_spec (p mod 12) (Z.of_nat k)) as [Heq|Hne].
  - rewrite Heq, Nat2Z.id in *. rewrite list_lookup_insert_eq by lia.
    rewrite (Hex k Hk) in Hc. congruence.
  - rewrite list_lookup_insert_ne by lia. rewrite (Hex k Hk). f_equal. lia.
Qed.

(** X6.  In the result of [generate] the histogram has twelve classes,
    and class [k] holds the number of emitted notes whose pitch is [k]
    modulo 12. *)
Theorem histogram_counts_pitch_classes (cfg : SequenceConfig) (rnd : RandomSource)
    (fuel pos : nat) (r : PrettyMIDI * Metadata) (pos' : nat) :
  generate fuel cfg rnd pos = Ok (r, pos') ->
  forall track (k : nat),
    track ∈ instruments (fst r) -> (k < 12)%nat ->
    pitch_histogram (stats (snd r)) !! k
    = Some (class_count (Z.of_nat k) (notes track)).
Proof.
  intros Hgen track k Htrack Hk. destruct r as [pm md].
  apply generate_inv in Hgen.
  destruct Hgen as (sn & qd & st & _ & _ & Hb & -> & ->).
  eapply (fill_bars_preserves cfg sn qd rnd histogram_exact) in Hb.
  - simpl in *. apply list_elem_of_singleton in Htrack. subst track.
    destruct Hb as [_ Hex]. apply Hex, Hk.
  - intros be p0 s s' p1. apply histogram_exact_slot.
  - split; [reflexivity|]. intros j Hj. simpl.
    do 12 (destruct j as [|j]; [reflexivity|]). lia.
Qed.

(** X6 (witness): the class of C after a run of the example. *)
Lemma histogram_counts_pitch_classes_witness :
  exists r pos' track,
    generate 8 example_config (constant_source 0.5) 0%nat = Ok (r, pos') /\
    pitch_histogram (stats (snd r)) !! 0%nat = Some (class_count 0 (notes track)).
Proof.
  destruct example_run as (r & pos' & track & n & others & E & Ht & Hn).
  exists r, pos', track. split; [exact E|].
  apply (histogram_counts_pitch_classes _ _ _ _ _ _ E track 0%nat).
  - rewrite Ht. left.
  - lia.
Defined.

(* ------------------------------------------------------------------ *)
(** ** Where the notes lie in time *)

Lemma jitter_of_range (u : Q) :
  (0 <= u)%Q -> (u < 1)%Q -> (-0.01 <= jitter_of u)%Q /\ (jitter_of u < 0.01)%Q.
Proof. intros H0 H1. unfold jitter_of. split; lra. Qed.

Lemma gate_of_range (u : Q) :
  (0 <= u)%Q -> (u < 1)%Q -> (0.85 <= gate_of u)%Q /\ (gate_of u < 0.98)%Q.
Proof. intros H0 H1. unfold gate_of. split; lra. Qed.

(** A note built at cursor [t] in a bar ending at [bar_end]. *)
Lemma note_at_within (t bar_end d quarter_duration u1 u2 : Q) (v p : Z) :
  (0 <= t)%Q -> (t < bar_end - 0.01)%Q ->
  (0 < d * quarter_duration)%Q ->
  (0 <= u1)%Q -> (u1 < 1)%Q -> (0 <= u2)%Q -> (u2 < 1)%Q ->
  within bar_end
    (note_at t (py_min (d * quarter_duration) (bar_end - t))
       (jitter_of u1) (gate_of u2) v p).
Proof.
  intros Ht Hlt Hd Hu1 Hu1' Hu2 Hu2'.
  destruct (jitter_of_range u1 Hu1 Hu1') as [Hj Hj'].
  destruct (gate_of_range u2 Hu2 Hu2') as [Hg Hg'].
  unfold within, note_at. simpl.
  set (j := jitter_of u1) in *. set (g := gate_of u2) in *.
  assert (Hdur : (0 < py_min (d * quarter_duration) (bar_end - t))%Q
                 /\ (py_min (d * quarter_duration) (bar_end - t) <= bar_end - t)%Q).
  { destruct (py_min_cases (d * quarter_duration) (bar_end - t)) as [[? ->]|[? ->]];
      split; lra. }
  set (dur := py_min (d * quarter_duration) (bar_end - t)) in *.
  destruct Hdur as [Hdur Hdur'].
  assert (Hprod : (dur * g <= bar_end - t)%Q) by nra.
  destruct (py_max_cases 0 (t + j)) as [[? ->]|[? ->]];
    destruct (py_max_cases (t + j + 0.05) (t + j + dur * g)) as [[? ->]|[? ->]];
    split; lra.
Qed.

(** X7.  With a positive tempo, a meter numerator that is not negative
    and draws of [[0, 1)], every note [generate] emits starts before the
    nominal end of the piece, [num_bars] bars of [bar_seconds], and ends
    less than 0.05 s after it. *)
Theorem emitted_notes_within_piece (cfg : SequenceConfig) (rnd : RandomSource)
    (fuel pos : nat) (r : PrettyMIDI * Metadata) (pos' : nat) :
  0 < tempo cfg ->
  0 <= time_signature_num cfg ->
  valid_draws rnd ->
  generate fuel cfg rnd pos = Ok (r, pos') ->
  forall track n,
    track ∈ instruments (fst r) -> n ∈ notes track ->
    within (inject_Z (num_bars cfg) * bar_seconds cfg) n.
Proof.
  intros Htempo Hnum Hrnd Hgen track n Htrack Hn. destruct r as [pm md].
  apply generate_inv in Hgen.
  destruct Hgen as (sn & qd & st & _ & Hqd & Hb & -> & _).
  destruct (py_div_pos _ Htempo) as (qd' & Hqd' & Hpos).
  assert (qd' = qd) as -> by congruence.
  assert (Hbd : bar_seconds cfg = (inject_Z (time_signature_num cfg) * qd)%Q).
  { unfold bar_seconds. unfold py_div in Hqd.
    destruct (tempo cfg =? 0); [discriminate|]. injection Hqd as <-. reflexivity. }
  rewrite Hbd. set (bd := (inject_Z (time_signature_num cfg) * qd)%Q) in *.
  assert (Hbd0 : (0 <= bd)%Q).
  { unfold bd. apply Qmult_le_0_compat; [|lra].
    change 0%Q with (inject_Z 0). rewrite <- Zle_Qle. exact Hnum. }
  set (total := (inject_Z (num_bars cfg) * bd)%Q).
  assert (Hbar : forall bar, bar ∈ py_range 0 (num_bars cfg) ->
            (0 <= inject_Z bar * bd)%Q /\ (inject_Z bar * bd + bd <= total)%Q).
  { intros bar Hin. apply py_range_elem in Hin.
    assert (H0 : (0 <= inject_Z bar)%Q).
    { change 0%Q with (inject_Z 0). rewrite <- Zle_Qle. lia. }
    assert (H1 : (inject_Z bar + 1 <= inject_Z (num_bars cfg))%Q).
    { change 1%Q with (inject_Z 1). rewrite <- inject_Z_plus, <- Zle_Qle. lia. }
    unfold total. split; nra. }
  eapply (fill_bars_keeps cfg sn qd rnd
            (fun s => (0 <= st_t s)%Q /\ Forall (within total) (st_notes s))) in Hb.
  - simpl in *. apply list_elem_of_singleton in Htrack. subst track.
    destruct Hb as [_ Hall]. rewrite Forall_forall in Hall. apply Hall, Hn.
  - intros bar p0 s s' p1 Hin [Ht Hall] Hlt Hslot.
    destruct (Hbar bar Hin) as [_ Hend].
    apply fill_slot_inv in Hslot.
    destruct (slot_result_advance _ _ _ _ _ _ _ _ _ Hpos Hlt Hslot) as [Hadv _].
    pose proof (min_step_pos _ Hpos) as Hstep.
    split; [lra|].
    destruct Hslot as [d _ _ _ _ -> | p d v h _ _ Hd _ _ _ _ ->]; simpl;
      [exact Hall|].
    apply Forall_app. split; [exact Hall|]. repeat constructor.
    + eapply Qlt_le_trans; [|exact Hend].
      apply (note_at_within (st_t s) _ d qd); try apply Hrnd; auto; nra.
    + eapply Qlt_le_trans;
        [apply (note_at_within (st_t s) _ d qd); try apply Hrnd; auto; nra|].
      lra.
  - intros bar s Hin [_ Hall]. split; [|exact Hall]. simpl.
    apply (Hbar bar Hin).
  - split; [simpl; lra | constructor].
Qed.

(** X7 (witness). *)
Lemma emitted_notes_within_piece_witness :
  exists r pos' n,
    generate 8 example_config (constant_source 0.5) 0%nat = Ok (r, pos') /\
    within (inject_Z 1 * bar_seconds example_config) n.
Proof.
  destruct example_run as (r & pos' & track & n & others & E & Ht & Hn).
  exists r, pos', n. split; [exact E|].
  apply (emitted_notes_within_piece example_config _ _ _ _ _
           ltac:(simpl; lia) ltac:(simpl; lia) half_draws_valid E track n).
  - rewrite Ht. left.
  - rewrite Hn. left.
Defined.

(** X18 (witness). *)
Lemma emitted_notes_shape_witness :
  exists r pos' n,
    generate 8 example_config (constant_source 0.5) 0%nat = Ok (r, pos') /\
    well_shaped n.
Proof.
  destruct example_run as (r & pos' & track & n & others & E & Ht & Hn).
  exists r, pos', n. split; [exact E|].
  assert (Hall : Forall well_shaped (notes track)).
  { apply (emitted_notes_shape example_config _ _ _ _ _
             ltac:(simpl; lia) ltac:(simpl; lia) half_draws_valid E track).
    rewrite Ht. left. }
  rewrite Hn in Hall. apply Forall_cons in Hall. tauto.
Defined.

(* ------------------------------------------------------------------ *)
(** ** Without rests *)

Lemma count_monotone_slot cfg scale_notes quarter_duration bar_end rnd pos st st' pos'
    (c : Z) :
  c <= st_note_count st ->
  slot_result cfg scale_notes quarter_duration bar_end rnd pos st st' pos' ->
  c <= st_note_count st'.
Proof.
  intros Hc [d _ _ _ _ -> | p d v h _ _ _ _ _ _ _ ->]; simpl; lia.
Qed.

(** A bar that the loop enters gets at least one note when no slot can
    be a rest. *)
Lemma fill_bar_first_note cfg scale_notes quarter_duration bar_end rnd fuel st pos st' pos' :
  valid_draws rnd ->
  (rest_probability cfg <= 0)%Q ->
  (st_t st < bar_end - 0.01)%Q ->
  fill_bar fuel cfg scale_notes quarter_duration bar_end st rnd pos = Ok (st', pos') ->
  st_note_count st + 1 <= st_note_count st'.
Proof.
  intros Hrnd Hrest Hlt. rewrite fill_bar_unfold.
  apply Qlt_bool_true in Hlt. rewrite Hlt.
  destruct fuel as [|fuel]; [discriminate|].
  unfold bind.
  destruct (fill_slot cfg scale_notes quarter_duration bar_end st rnd pos)
    as [[st1 pos1]| |] eqn:Hs; try discriminate.
  intros Hrec. apply fill_slot_inv in Hs.
  assert (H1 : st_note_count st + 1 <= st_note_count st1).
  { destruct Hs as [d Hd _ _ _ -> | p d v h _ _ _ _ _ _ _ ->]; simpl; [|lia].
    destruct (Hrnd pos). lra. }
  eapply (fill_bar_invariant cfg scale_notes quarter_duration rnd
            (fun s => st_note_count st + 1 <= st_note_count s));
    [|exact Hrec|exact H1].
  intros be p0 s s' p1 Hs' _ Hr. eapply count_monotone_slot; eauto.
Qed.

Lemma fill_bars_one_note_each cfg scale_notes quarter_duration bar_duration rnd fuel bars :
  valid_draws rnd ->
  (rest_probability cfg <= 0)%Q ->
  (0.01 < bar_duration)%Q ->
  forall st pos st' pos',
    fill_bars fuel cfg scale_notes quarter_duration bar_duration bars st rnd pos
      = Ok (st', pos') ->
    st_note_count st + Z.of_nat (length bars) <= st_note_count st'.
Proof.
  intros Hrnd Hrest Hbd.
  induction bars as [|bar bars IH]; intros st pos st' pos'; simpl.
  - unfold ret. intros [= <- <-]. lia.
  - unfold bind.
    destruct (fill_bar fuel cfg scale_notes quarter_duration _ _ rnd pos)
      as [[st1 pos1]| |] eqn:Hb; try discriminate.
    intros Hrec. apply IH in Hrec.
    apply fill_bar_first_note in Hb; [simpl in Hb; lia | auto | auto |].
    simpl. lra.
Qed.

Lemma length_py_range (n : Z) : Z.of_nat (length (py_range 0 n)) = Z.max 0 n.
Proof. unfold py_range. rewrite length_map, length_seq. lia. Qed.

(** X8.  With a rest probability of 0 (or less), a positive tempo, a
    non-empty scale-note universe, bars longer than the 0.01 s guard and
    draws of [[0, 1)], [generate] returns a result with at least one note
    per bar. *)
Theorem no_rests_one_note_per_bar (cfg : SequenceConfig) (rnd : RandomSource)
    (fuel pos : nat) (scale_notes : list Z) :
  0 < tempo cfg ->
  _get_scale_notes cfg = Ok scale_notes ->
  scale_notes <> [] ->
  valid_draws rnd ->
  (rest_probability cfg <= 0)%Q ->
  (0.01 < bar_seconds cfg)%Q ->
  (iterations_bound cfg <= fuel)%nat ->
  exists r pos',
    generate fuel cfg rnd pos = Ok (r, pos') /\
    num_bars cfg <= note_count (stats (snd r)).
Proof.
  intros Htempo Hsn Hne Hrnd Hrest Hbar Hfuel.
  destruct (generate_returns fuel cfg rnd pos scale_notes Htempo Hsn
              (or_introl Hne) Hrnd Hfuel) as ([pm md] & pos' & Hgen).
  exists (pm, md), pos'. split; [exact Hgen|].
  apply generate_inv in Hgen.
  destruct Hgen as (sn & qd & st & _ & Hqd & Hb & _ & ->).
  assert (Hbd : bar_seconds cfg = (inject_Z (time_signature_num cfg) * qd)%Q).
  { unfold bar_seconds. unfold py_div in Hqd.
    destruct (tempo cfg =? 0); [discriminate|]. injection Hqd as <-. reflexivity. }
  rewrite Hbd in Hbar.
  apply fill_bars_one_note_each in Hb; auto.
  rewrite length_py_range in Hb. simpl in *. lia.
Qed.

(** X8 (witness): the example configuration, one bar, no rests. *)
Lemma no_rests_one_note_per_bar_witness :
  exists r pos',
    generate 200 example_config (constant_source 0.5) 0%nat = Ok (r, pos') /\
    1 <= note_count (stats (snd r)).
Proof.
  apply (no_rests_one_note_per_bar example_config (constant_source 0.5) 200 0
           [60; 62; 64; 65; 67; 69; 71]).
  - simpl. lia.
  - vm_compute. reflexivity.
  - discriminate.
  - apply valid_draws_constant; vm_compute; [discriminate | reflexivity].
  - vm_compute. discriminate.
  - vm_compute. reflexivity.
  - vm_compute. lia.
Defined.

(* ------------------------------------------------------------------ *)
(** ** Nothing to fill *)

Lemma fill_bars_skipped cfg scale_notes quarter_duration bar_duration rnd fuel bars :
  (bar_duration <= 0.01)%Q ->
  forall st pos,
    exists t,
      fill_bars fuel cfg scale_notes quarter_duration bar_duration bars st rnd pos
      = Ok ({| st_t := t;
               st_notes := st_notes st;
               st_note_count := st_note_count st;
               st_pitch_histogram := st_pitch_histogram st |}, pos).
Proof.
  intros Hbd. induction bars as [|bar bars IH]; intros st pos; simpl.
  - exists (st_t st). destruct st. reflexivity.
  - unfold bind. rewrite fill_bar_unfold. cbn [st_t].
    case_Qlt (inject_Z bar * bar_duration)%Q
             (inject_Z bar * bar_duration + bar_duration - 0.01)%Q; [lra|].
    unfold ret.
    destruct (IH {| st_t := inject_Z bar * bar_duration;
                    st_notes := st_notes st;
                    st_note_count := st_note_count st;
                    st_pitch_histogram := st_pitch_histogram st |} pos) as [t Ht].
    exists t. exact Ht.
Qed.

(** X9.  When there is no bar to generate ([num_bars <= 0]) or a bar is
    no longer than 0.005 s, half the 0.01 s guard of the loop, [generate]
    (for a known key and scale, a tempo other than 0 and integers within
    the range of the floats) returns at once, whatever the fuel: no draw
    is consumed, no note is emitted and the histogram is all zeros.  The
    margin below the guard is that of the float comparison
    [t < bar_end - 0.01], which rounds its two sums. *)
Theorem generate_nothing_to_fill (cfg : SequenceConfig) (rnd : RandomSource)
    (fuel pos : nat) :
  known_key_and_scale cfg ->
  tempo cfg <> 0 ->
  float_sized_config cfg ->
  num_bars cfg <= 0 \/ (bar_seconds cfg <= 0.005)%Q ->
  exists r,
    generate fuel cfg rnd pos = Ok (r, pos) /\
    instruments (fst r) = [ {| program := instrument cfg; notes := [] |} ] /\
    note_count (stats (snd r)) = 0 /\
    pitch_histogram (stats (snd r)) = replicate 12 0.
Proof.
  intros [Hk Hs] Htempo _ Hcase.
  destruct (_get_scale_notes_ok cfg Hk Hs) as [sn Hsn].
  assert (Hfill : exists t,
            fill_bars fuel cfg sn (60 / inject_Z (tempo cfg))
              (inject_Z (time_signature_num cfg) * (60 / inject_Z (tempo cfg)))
              (py_range 0 (num_bars cfg)) initial_state rnd pos
            = Ok ({| st_t := t; st_notes := []; st_note_count := 0;
                     st_pitch_histogram := replicate 12 0 |}, pos)).
  { destruct Hcase as [Hbars | Hshort].
    - unfold py_range. replace (Z.to_nat (num_bars cfg - 0)) with 0%nat by lia.
      simpl. unfold ret. eexists. reflexivity.
    - assert (Hle : (bar_seconds cfg <= 0.01)%Q) by lra.
      apply (fill_bars_skipped cfg sn _ _ rnd fuel _ Hle initial_state pos). }
  destruct Hfill as [t Hfill].
  unfold generate. unfold bind at 1, lift at 1. rewrite Hsn.
  unfold bind at 1, lift at 1. unfold py_div.
  destruct (Z.eqb_spec (tempo cfg) 0) as [H0|_]; [contradiction|].
  unfold bind at 1. rewrite Hfill.
  unfold bind, lift, ret. eexists. split; [reflexivity|]. simpl. auto.
Qed.

(** X9 (witness): at 48000 beats per minute a bar lasts 0.005 s. *)
Lemma generate_nothing_to_fill_witness :
  exists r,
    generate 0 tempo48000_config (constant_source 0.5) 0%nat = Ok (r, 0%nat) /\
    instruments (fst r) = [ {| program := 0; notes := [] |} ] /\
    note_count (stats (snd r)) = 0 /\
    pitch_histogram (stats (snd r)) = replicate 12 0.
Proof.
  apply (generate_nothing_to_fill tempo48000_config (constant_source 0.5) 0 0).
  - split; eexists; reflexivity.
  - discriminate.
  - repeat split; vm_compute; reflexivity.
  - right. vm_compute. discriminate.
Defined.

(* ------------------------------------------------------------------ *)
(** ** The exceptions of [generate] *)

Lemma fill_slot_raise cfg scale_notes quarter_duration bar_end st rnd pos e :
  valid_draws rnd ->
  length (st_pitch_histogram st) = 12%nat ->
  fill_slot cfg scale_notes quarter_duration bar_end st rnd pos = Raise e ->
  e = IndexError /\ scale_notes = [].
Proof.
  intros Hrnd Hlen Hraise. destruct scale_notes as [|p ps].
  - split; [|reflexivity]. revert Hraise.
    unfold fill_slot. unfold bind at 1. unfold random at 1.
    destruct (Qlt_bool (rnd pos) (rest_probability cfg)).
    + destruct (_pick_duration_ok cfg rnd (S pos)) as (d & Hd & _).
      unfold bind. rewrite Hd. unfold ret. discriminate.
    + unfold bind at 1. rewrite choice_nil. congruence.
  - destruct (fill_slot_ok cfg (p :: ps) quarter_duration bar_end st rnd pos
                Hrnd Hlen) as (st' & pos' & Hok); [left; discriminate|].
    congruence.
Qed.

Lemma fill_bar_raise cfg scale_notes quarter_duration bar_end rnd fuel e :
  valid_draws rnd ->
  forall st pos,
    length (st_pitch_histogram st) = 12%nat ->
    fill_bar fuel cfg scale_notes quarter_duration bar_end st rnd pos = Raise e ->
    e = IndexError /\ scale_notes = [].
Proof.
  intros Hrnd. induction fuel as [|fuel IH]; intros st pos Hlen;
    rewrite fill_bar_unfold;
    destruct (Qlt_bool (st_t st) (bar_end - 0.01)); try discriminate.
  unfold bind.
  destruct (fill_slot cfg scale_notes quarter_duration bar_end st rnd pos)
    as [[st1 pos1]|e'|] eqn:Hs; try discriminate.
  - apply IH. apply fill_slot_inv in Hs.
    rewrite (slot_result_histogram_length _ _ _ _ _ _ _ _ _ Hs). exact Hlen.
  - intros [= <-]. eapply fill_slot_raise; eauto.
Qed.

Lemma fill_bars_raise cfg scale_notes quarter_duration bar_duration rnd fuel bars e :
  valid_draws rnd ->
  forall st pos,
    length (st_pitch_histogram st) = 12%nat ->
    fill_bars fuel cfg scale_notes quarter_duration bar_duration bars st rnd pos
      = Raise e ->
    e = IndexError /\ scale_notes = [].
Proof.
  intros Hrnd. induction bars as [|bar bars IH]; intros st pos Hlen; simpl;
    [discriminate|].
  unfold bind.
  destruct (fill_bar fuel cfg scale_notes quarter_duration _ _ rnd pos)
    as [[st1 pos1]|e'|] eqn:Hb; try discriminate.
  - apply IH.
    eapply (fill_bar_invariant cfg scale_notes quarter_duration rnd
              (fun s => length (st_pitch_histogram s) = 12%nat)) in Hb;
      [exact Hb | | exact Hlen].
    intros be p0 s s' p1 Hs _ Hr.
    rewrite (slot_result_histogram_length _ _ _ _ _ _ _ _ _ Hr). exact Hs.
  - intros [= <-]. eapply fill_bar_raise; [exact Hrnd | | exact Hb]. exact Hlen.
Qed.

(** X10.  The exceptions of [generate], for integers within the range of
    the floats: a key or a scale that is no entry of its table raises
    [KeyError] when the tempo is not 0 (the constructor of [PrettyMIDI],
    called first, divides by the tempo); a known key and scale with tempo
    0 raise [ZeroDivisionError]; and, the draws being of [[0, 1)], every
    other exception is the [IndexError] of picking a pitch from an empty
    scale-note universe. *)
Theorem generate_exceptions (cfg : SequenceConfig) (rnd : RandomSource)
    (fuel pos : nat) :
  (~ known_key_and_scale cfg -> tempo cfg <> 0 -> float_sized (tempo cfg) ->
   generate fuel cfg rnd pos = Raise KeyError)
  /\ (known_key_and_scale cfg -> tempo cfg = 0 ->
      generate fuel cfg rnd pos = Raise ZeroDivisionError)
  /\ (valid_draws rnd -> known_key_and_scale cfg -> tempo cfg <> 0 ->
      float_sized_config cfg ->
      forall e, generate fuel cfg rnd pos = Raise e ->
                e = IndexError /\ _get_scale_notes cfg = Ok []).
Proof.
  split; [|split].
  - intros Hno _ _. unfold generate. unfold bind at 1, lift at 1.
    unfold _get_scale_notes, dict_index.
    destruct (dict_get KEY_OFFSETS (key cfg)) as [root|] eqn:Hk; [|reflexivity].
    destruct (dict_get SCALE_INTERVALS (scale cfg)) as [ivs|] eqn:Hs; [|reflexivity].
    exfalso. apply Hno. split; eauto.
  - intros [Hk Hs] Htempo.
    destruct (_get_scale_notes_ok cfg Hk Hs) as [sn Hsn].
    unfold generate. unfold bind at 1, lift at 1. rewrite Hsn.
    unfold bind at 1, lift at 1. unfold py_div. rewrite Htempo. reflexivity.
  - intros Hrnd [Hk Hs] Htempo _ e.
    destruct (_get_scale_notes_ok cfg Hk Hs) as [sn Hsn].
    unfold generate. unfold bind at 1, lift at 1. rewrite Hsn.
    unfold bind at 1, lift at 1. unfold py_div.
    destruct (Z.eqb_spec (tempo cfg) 0) as [H0|_]; [contradiction|].
    unfold bind at 1.
    destruct (fill_bars fuel cfg sn _ _ _ _ rnd pos) as [[st pos1]|e'|] eqn:Hb.
    + unfold bind, lift, ret. discriminate.
    + intros [= <-]. apply fill_bars_raise in Hb; [|exact Hrnd|reflexivity].
      destruct Hb as [-> ->]. auto.
    + discriminate.
Qed.

(** X10 (witness): a key that is no entry of [KEY_OFFSETS]. *)
Lemma generate_exceptions_witness :
  generate 400 unknown_key_config (constant_source 0.5) 0%nat = Raise KeyError.
Proof.
  apply (proj1 (generate_exceptions unknown_key_config (constant_source 0.5) 400 0)).
  - intros [[root Hk] _]. vm_compute in Hk. discriminate.
  - discriminate.
  - vm_compute. reflexivity.
Defined.

(* ------------------------------------------------------------------ *)
(** ** Random configurations *)

Lemma randint_ok (a b : Z) (rnd : RandomSource) (pos : nat) :
  a <= b -> (0 <= rnd pos)%Q -> (rnd pos < 1)%Q ->
  exists z, randint a b rnd pos = Ok (z, S pos) /\ a <= z <= b.
Proof.
  intros Hab H0 H1. unfold randint, bind, random, ret.
  eexists. split; [reflexivity|].
  set (n := b - a + 1).
  assert (Hn : (0 < inject_Z n)%Q).
  { change 0%Q with (inject_Z 0). rewrite <- Zlt_Qlt. unfold n. lia. }
  pose proof (Qfloor_le (rnd pos * inject_Z n)) as Hlo.
  assert (Ha : 0 <= Qfloor (rnd pos * inject_Z n)).
  { rewrite <- (Qfloor_Z 0). apply Qfloor_resp_le.
    change (inject_Z 0) with 0%Q. nra. }
  assert (Hb : Qfloor (rnd pos * inject_Z n) < n).
  { rewrite Zlt_Qlt. nra. }
  unfold n in *. lia.
Qed.

Lemma round_half_even_between (a b : Z) (y : Q) :
  (inject_Z a <= y)%Q -> (y <= inject_Z b)%Q ->
  a <= round_half_even y <= b.
Proof.
  intros Ha Hb.
  assert (Hfa : a <= Qfloor y).
  { rewrite <- (Qfloor_Z a). apply Qfloor_resp_le, Ha. }
  pose proof (Qfloor_le y) as Hfl.
  assert (Hfb : Qfloor y <= b).
  { rewrite Zle_Qle. lra. }
  assert (Hhalf : (1 # 2 <= y - inject_Z (Qfloor y))%Q -> Qfloor y + 1 <= b).
  { intros Hd.
    assert (Hlt : (inject_Z (Qfloor y) < inject_Z b)%Q) by lra.
    rewrite <- Zlt_Qlt in Hlt. lia. }
  unfold round_half_even.
  case_Qlt (y - inject_Z (Qfloor y))%Q (1 # 2)%Q; [lia|].
  case_Qlt (1 # 2)%Q (y - inject_Z (Qfloor y))%Q; [specialize (Hhalf E); lia|].
  destruct (Z.even (Qfloor y)); [lia | specialize (Hhalf E); lia].
Qed.

Lemma py_round2_between (a b : Z) (x : Q) :
  (inject_Z a / 100 <= x)%Q -> (x <= inject_Z b / 100)%Q ->
  (inject_Z a / 100 <= py_round2 x)%Q /\ (py_round2 x <= inject_Z b / 100)%Q.
Proof.
  intros Ha Hb.
  assert (Ha' : (inject_Z a <= x * 100)%Q).
  { assert (Hq : (inject_Z a / 100 == inject_Z a * (1 # 100))%Q) by (field; discriminate).
    rewrite Hq in Ha. lra. }
  assert (Hb' : (x * 100 <= inject_Z b)%Q).
  { assert (Hq : (inject_Z b / 100 == inject_Z b * (1 # 100))%Q) by (field; discriminate).
    rewrite Hq in Hb. lra. }
  destruct (round_half_even_between a b _ Ha' Hb') as [H1 H2].
  unfold py_round2. rewrite Zle_Qle in H1, H2.
  set (r := inject_Z (round_half_even (x * 100))) in *.
  assert (Hr : (r / 100 == r * (1 # 100))%Q) by (field; discriminate).
  assert (Hqa : (inject_Z a / 100 == inject_Z a * (1 # 100))%Q) by (field; discriminate).
  assert (Hqb : (inject_Z b / 100 == inject_Z b * (1 # 100))%Q) by (field; discriminate).
  rewrite Hr, Hqa, Hqb. split; lra.
Qed.

Lemma dict_get_is_Some {V : Type} (d : list (string * V)) (k : string) :
  k ∈ List.map fst d -> is_Some (dict_get d k).
Proof.
  induction d as [|[k' v] d IH]; simpl; intros H; [inversion H|].
  destruct (String.eqb_spec k k') as [->|Hne]; [eauto|].
  apply IH. apply elem_of_cons in H. destruct H; [contradiction | assumption].
Qed.

(** What [SequenceConfig.random()] returns, the draws being of [[0, 1)]. *)
Lemma SequenceConfig_random_ok (rnd : RandomSource) (pos : nat) :
  valid_draws rnd ->
  exists cfg,
    SequenceConfig_random rnd pos = Ok (cfg, (pos + 12)%nat) /\ from_the_pools cfg.
Proof.
  intros Hrnd. unfold SequenceConfig_random.
  repeat match goal with
  | |- context [bind (choice ?l) _ rnd ?p] =>
      let x := fresh "x" in let Hx := fresh "Hx" in let Hin := fresh "Hin" in
      destruct (choice_ok l rnd p (proj1 (Hrnd p)) (proj2 (Hrnd p))
                  ltac:(discriminate)) as (x & Hx & Hin);
      unfold bind at 1; rewrite Hx; cbv beta iota
  | |- context [bind (randint ?a ?b) _ rnd ?p] =>
      let x := fresh "t" in let Hx := fresh "Hx" in let Hin := fresh "Hin" in
      destruct (randint_ok a b rnd p ltac:(lia) (proj1 (Hrnd p)) (proj2 (Hrnd p)))
        as (x & Hx & Hin);
      unfold bind at 1; rewrite Hx; cbv beta iota
  | |- context [bind (uniform ?a ?b) _ rnd ?p] =>
      unfold bind at 1; unfold uniform at 1, bind at 1, random at 1, ret at 1;
      cbv beta iota
  end.
  unfold ret. eexists. split.
  - f_equal. f_equal. lia.
  - destruct (Hrnd (S (S (S (S (S (S (S (S (S pos)))))))))) as [H0 H1].
    destruct (py_round2_between 5 25 (0.05 + (0.25 - 0.05) * rnd (S (S (S (S (S (S (S (S (S pos))))))))))%Q)
      as [Hlo Hhi]; [vm_compute (inject_Z 5 / 100)%Q; lra
                    | vm_compute (inject_Z 25 / 100)%Q; lra |].
    vm_compute (inject_Z 5 / 100)%Q in Hlo.
    vm_compute (inject_Z 25 / 100)%Q in Hhi.
    unfold from_the_pools. cbn [key scale tempo time_signature_num
      time_signature_den num_bars octave_range rhythm_pattern
      note_duration_variety rest_probability instrument fst snd].
    repeat match goal with
    | |- _ /\ _ => split
    end; try assumption; try lia; try lra.
    + apply list_elem_of_In in Hin2. apply list_elem_of_In.
      simpl in *. intuition.
    + apply list_elem_of_In in Hin3. apply list_elem_of_In.
      simpl in *. intuition.
    + eexists. unfold py_round2. reflexivity.
Qed.

Lemma from_the_pools_valid (cfg : SequenceConfig) :
  from_the_pools cfg -> valid_config cfg.
Proof.
  intros (Hk & Hs & Ht & _ & _ & Hb & Hlo & Hhi & _ & _ & Hp0 & Hp1 & _ & _).
  unfold valid_config.
  split; [apply dict_get_is_Some, Hk|].
  split; [apply dict_get_is_Some, Hs|].
  split; [lia|].
  apply list_elem_of_In in Hb, Hlo, Hhi. simpl in Hb, Hlo, Hhi.
  repeat split; try lia; lra.
Qed.

(** X11.  With draws of [[0, 1)], [SequenceConfig.random()] consumes
    twelve draws and returns a configuration that satisfies the
    invariants of a valid configuration, each field within its pool:
    tempo 60..180, numerator 3, 4 or 6, denominator 4, 4 to 16 bars, low
    octave 3 or 4 and high octave 5 or 6, and a rest probability that is
    a whole number of hundredths between 0.05 and 0.25. *)
Theorem random_config_valid (rnd : RandomSource) (pos : nat) :
  valid_draws rnd ->
  exists cfg,
    SequenceConfig_random rnd pos = Ok (cfg, (pos + 12)%nat) /\
    from_the_pools cfg /\ valid_config cfg.
Proof.
  intros Hrnd. destruct (SequenceConfig_random_ok rnd pos Hrnd) as (cfg & Hc & Hp).
  exists cfg. split; [exact Hc|]. split; [exact Hp|].
  apply from_the_pools_valid, Hp.
Qed.

(** X11 (witness). *)
Lemma random_config_valid_witness :
  exists cfg,
    SequenceConfig_random (constant_source 0.5) 0%nat = Ok (cfg, 12%nat) /\
    from_the_pools cfg /\ valid_config cfg.
Proof.
  apply (random_config_valid (constant_source 0.5) 0).
  apply valid_draws_constant; vm_compute; [discriminate | reflexivity].
Defined.

(* ------------------------------------------------------------------ *)
(** ** Generating from a random configuration *)

Lemma from_the_pools_bound (cfg : SequenceConfig) :
  from_the_pools cfg -> (iterations_bound cfg <= 600)%nat.
Proof.
  intros (_ & _ & Ht & Hn & _).
  assert (Hn6 : time_signature_num cfg <= 6).
  { apply list_elem_of_In in Hn. simpl in Hn. lia. }
  assert (Hn0 : 0 <= time_signature_num cfg).
  { apply list_elem_of_In in Hn. simpl in Hn. lia. }
  destruct (py_div_pos (tempo cfg) ltac:(lia)) as (qd & Hqd & Hpos).
  unfold iterations_bound. rewrite Hqd.
  assert (Hq1 : (qd <= 1)%Q /\ (1 # 3 <= qd)%Q).
  { unfold py_div in Hqd. destruct (tempo cfg =? 0); [discriminate|].
    injection Hqd as <-.
    assert (Ht0 : (0 < inject_Z (tempo cfg))%Q).
    { change 0%Q with (inject_Z 0). rewrite <- Zlt_Qlt. lia. }
    assert (Ht1 : (60 <= inject_Z (tempo cfg))%Q).
    { change 60%Q with (inject_Z 60). rewrite <- Zle_Qle. lia. }
    assert (Ht2 : (inject_Z (tempo cfg) <= 180)%Q).
    { change 180%Q with (inject_Z 180). rewrite <- Zle_Qle. lia. }
    split.
    - apply Qle_shift_div_r; [exact Ht0 | lra].
    - apply Qle_shift_div_l; [exact Ht0 | lra]. }
  destruct Hq1 as [Hq1 Hq3].
  assert (Hstep : min_step qd = (1 # 100)%Q).
  { unfold min_step.
    destruct (py_min_cases (qd * (1 # 4)) (1 # 100)) as [[_ ->]|[Hle _]];
      [reflexivity | lra]. }
  rewrite Hstep.
  assert (Hx : (inject_Z (time_signature_num cfg) * qd / (1 # 100)
                <= inject_Z 600)%Q).
  { apply Qle_shift_div_r; [reflexivity|].
    change (inject_Z 600) with 600%Q.
    assert (Hn6' : (inject_Z (time_signature_num cfg) <= 6)%Q).
    { change 6%Q with (inject_Z 6). rewrite <- Zle_Qle. exact Hn6. }
    assert (Hn0' : (0 <= inject_Z (time_signature_num cfg))%Q).
    { change 0%Q with (inject_Z 0). rewrite <- Zle_Qle. exact Hn0. }
    nra. }
  apply Qceiling_resp_le in Hx. rewrite Qceiling_Z in Hx. lia.
Qed.

Lemma from_the_pools_nonempty (cfg : SequenceConfig) :
  from_the_pools cfg -> exists p ps, _get_scale_notes cfg = Ok (p :: ps).
Proof.
  intros Hp. pose proof Hp as (Hk & Hs & _ & _ & _ & _ & Hlo & Hhi & _).
  apply list_elem_of_In in Hlo, Hhi. simpl in Hlo, Hhi.
  apply _get_scale_notes_nonempty; try lia.
  - apply dict_get_is_Some, Hk.
  - apply dict_get_is_Some, Hs.
Qed.

(* ------------------------------------------------------------------ *)
(** ** The rhythm pattern *)

(** X12.  [_get_rhythm_pattern] never fails and never returns [None]
    (the draws being of [[0, 1)]): for ["mixed"] it consumes one draw and
    returns one of the six fixed patterns; for every other name it
    consumes no draw and returns the pattern of that name, or the
    straight pattern when the name is no entry of the table. *)
Theorem rhythm_pattern_total (cfg : SequenceConfig) (rnd : RandomSource) (pos : nat) :
  valid_draws rnd ->
  exists pat pos',
    _get_rhythm_pattern cfg rnd pos = Ok (Some pat, pos') /\
    Some pat ∈ List.map snd RHYTHM_PATTERNS /\
    (rhythm_pattern cfg = "mixed"%string -> pos' = S pos) /\
    (rhythm_pattern cfg <> "mixed"%string ->
     pos' = pos /\
     Some pat = default (Some [1; 1; 1; 1]%Q)
                  (dict_get RHYTHM_PATTERNS (rhythm_pattern cfg))).
Proof.
  intros Hrnd. unfold _get_rhythm_pattern.
  destruct (String.eqb_spec (rhythm_pattern cfg) "mixed") as [Hm|Hm].
  - destruct (Hrnd pos) as [H0 H1].
    assert (Hne : omap snd RHYTHM_PATTERNS <> []) by (simpl; discriminate).
    destruct (choice_ok (omap snd RHYTHM_PATTERNS) rnd pos H0 H1 Hne)
      as (pat & Hc & Hin).
    unfold bind. rewrite Hc. unfold ret. exists pat, (S pos).
    split; [reflexivity|]. split; [|split; [reflexivity | contradiction]].
    apply list_elem_of_omap in Hin. destruct Hin as ([name o] & Hin & Ho).
    simpl in Ho. subst o. apply list_elem_of_In, in_map_iff.
    exists (name, Some pat). split; [reflexivity | apply list_elem_of_In, Hin].
  - unfold bind, lift, ret.
    change (dict_index RHYTHM_PATTERNS "straight") with (Ok (Some [1; 1; 1; 1]%Q)).
    cbv beta iota.
    assert (Hget : exists pat,
              default (Some [1; 1; 1; 1]%Q)
                (dict_get RHYTHM_PATTERNS (rhythm_pattern cfg)) = Some pat /\
              Some pat ∈ List.map snd RHYTHM_PATTERNS).
    { unfold RHYTHM_PATTERNS at 1. cbn [dict_get].
      repeat match goal with
      | |- context [String.eqb (rhythm_pattern cfg) ?s] =>
          destruct (String.eqb_spec (rhythm_pattern cfg) s) as [?|?];
            [first [contradiction
                   | eexists; split; [reflexivity|];
                     apply list_elem_of_In; simpl; tauto] |]
      end.
      eexists. split; [reflexivity|]. apply list_elem_of_In. simpl. tauto. }
    destruct Hget as (pat & Hpat & Hin).
    exists pat, pos. rewrite Hpat. split; [reflexivity|].
    split; [exact Hin|]. split; [contradiction | auto].
Qed.

(** X12 (witness): the default, straight. *)
Lemma rhythm_pattern_total_witness :
  exists pat pos',
    _get_rhythm_pattern default_config (constant_source 0.5) 0%nat
      = Ok (Some pat, pos') /\
    Some pat ∈ List.map snd RHYTHM_PATTERNS.
Proof.
  destruct (rhythm_pattern_total default_config (constant_source 0.5) 0
              half_draws_valid) as (pat & pos' & H & Hin & _).
  exists pat, pos'. split; assumption.
Defined.

(* ------------------------------------------------------------------ *)
(** ** Weighted durations *)

Lemma sum_weights_nonneg (ws : list Q) :
  Forall (fun w => 0 <= w)%Q ws -> (0 <= sum_weights ws)%Q.
Proof.
  induction 1 as [|w ws Hw _ IH]; simpl; [lra|].
  change (0 <= w + sum_weights ws)%Q. lra.
Qed.

(** The draw falls between the cumulative weights before and after an
    entry: [bisect] stops at that entry. *)
Lemma bisect_bracket (ws1 : list Q) (w : Q) (ws2 : list Q) :
  Forall (fun w => 0 <= w)%Q ws1 ->
  forall (acc x : Q) (hi : nat),
    (length ws1 <= hi)%nat ->
    (acc + sum_weights ws1 <= x)%Q ->
    (x < acc + sum_weights ws1 + w)%Q ->
    bisect (accumulate acc (ws1 ++ w :: ws2)) x hi = length ws1.
Proof.
  induction 1 as [|a ws1 Ha Hall IH]; intros acc x hi Hhi Hlo Hup.
  - simpl in *. destruct hi as [|hi]; [reflexivity|].
    change (sum_weights []) with 0%Q in Hup.
    destruct (Qle_bool (acc + w) x) eqn:E; [|reflexivity].
    apply Qle_bool_iff in E. lra.
  - simpl in Hhi. destruct hi as [|hi]; [lia|].
    change (sum_weights (a :: ws1)) with (a + sum_weights ws1)%Q in Hlo, Hup.
    pose proof (sum_weights_nonneg ws1 Hall) as Hs.
    simpl.
    destruct (Qle_bool (acc + a) x) eqn:E.
    + f_equal. apply IH; [lia | lra | lra].
    + assert (Hle : (acc + a <= x)%Q) by lra.
      apply Qle_bool_iff in Hle. congruence.
Qed.

Lemma duration_profile_weights (cfg : SequenceConfig) :
  Forall (fun kv : string * Q => 0 < snd kv)%Q (duration_profile cfg).
Proof.
  unfold duration_profile. unfold DURATION_PROFILES at 2. cbn [dict_get].
  repeat match goal with
  | |- context [String.eqb ?v ?s] =>
      destruct (String.eqb v s); [repeat constructor|]
  end.
  repeat constructor.
Qed.

Lemma _pick_duration_profile (cfg : SequenceConfig) (rnd : RandomSource) (pos : nat) :
  _pick_duration cfg rnd pos =
  bind (choices (List.map fst (duration_profile cfg))
                (List.map snd (duration_profile cfg)))
       (fun chosen => lift (dict_index NOTE_DURATIONS chosen)) rnd pos.
Proof.
  unfold _pick_duration, duration_profile.
  unfold bind at 1, lift at 1.
  change (dict_index DURATION_PROFILES "medium")
    with (Ok (default [] (dict_get DURATION_PROFILES "medium"))).
  reflexivity.
Qed.

(** X13.  [_pick_duration] honours the weights of the profile: the draw,
    scaled by the total weight, selects the entry whose bracket of
    cumulative weight it falls in, and the beat length of that entry is
    returned, one draw being consumed. *)
Theorem pick_duration_bracket (cfg : SequenceConfig) (rnd : RandomSource) (pos : nat)
    (before : list (string * Q)) (name : string) (w : Q)
    (after : list (string * Q)) (beats : Q) :
  duration_profile cfg = before ++ (name, w) :: after ->
  dict_get NOTE_DURATIONS name = Some beats ->
  (sum_weights (List.map snd before)
     <= rnd pos * total_weight (duration_profile cfg))%Q ->
  (rnd pos * total_weight (duration_profile cfg)
     < sum_weights (List.map snd before) + w)%Q ->
  _pick_duration cfg rnd pos = Ok (beats, S pos).
Proof.
  intros Hprofile Hbeats Hlo Hup.
  rewrite _pick_duration_profile.
  pose proof (duration_profile_weights cfg) as Hpos.
  unfold total_weight in Hlo, Hup. rewrite Hprofile in *.
  unfold bind at 1. unfold choices, bind, random.
  rewrite List.map_app in *. cbn [List.map fst snd] in *.
  rewrite (bisect_bracket (List.map snd before) w (List.map snd after)).
  - rewrite length_map, <- (length_map fst before).
    rewrite (List.map_app fst). cbn [List.map fst].
    rewrite list_lookup_middle by reflexivity.
    unfold ret, lift, dict_index. rewrite Hbeats. reflexivity.
  - apply Forall_app in Hpos. destruct Hpos as [Hpos _].
    apply Forall_forall. intros x Hx. apply list_elem_of_In, in_map_iff in Hx.
    destruct Hx as (kv & <- & Hkv). rewrite Forall_forall in Hpos.
    apply Qlt_le_weak, Hpos, list_elem_of_In, Hkv.
  - rewrite !length_map, length_app. simpl. lia.
  - lra.
  - lra.
Qed.

(** X13 (witness): in the low profile a draw of 0.8 falls in the bracket
    of the half note, between 0.7 and 0.9. *)
Lemma pick_duration_bracket_witness :
  _pick_duration example_config (constant_source 0.8) 0%nat = Ok (2%Q, 1%nat).
Proof.
  apply (pick_duration_bracket example_config (constant_source 0.8) 0
           [("quarter", 0.7%Q)] "half"%string 0.2%Q [("eighth", 0.1%Q)] 2%Q).
  - vm_compute. reflexivity.
  - vm_compute. reflexivity.
  - vm_compute. discriminate.
  - vm_compute. reflexivity.
Defined.

(** X14.  [_pick_duration] never fails, whatever the variety and
    whatever the draw: it consumes one draw and returns the beat length
    of an entry of the resolved profile, between a sixteenth (0.25) and a
    whole note (4); and a variety that is no entry of [DURATION_PROFILES]
    gives what the medium variety gives on the same draw. *)
Theorem pick_duration_total (cfg : SequenceConfig) (rnd : RandomSource) (pos : nat) :
  (exists name beats,
      _pick_duration cfg rnd pos = Ok (beats, S pos) /\
      name ∈ List.map fst (duration_profile cfg) /\
      dict_get NOTE_DURATIONS name = Some beats /\
      (1 # 4 <= beats)%Q /\ (beats <= 4)%Q)
  /\ (dict_get DURATION_PROFILES (note_duration_variety cfg) = None ->
      forall cfg',
        note_duration_variety cfg' = "medium"%string ->
        _pick_duration cfg rnd pos = _pick_duration cfg' rnd pos).
Proof.
  split.
  - rewrite _pick_duration_profile.
    destruct (profile_names_have_length (note_duration_variety cfg) _ eq_refl)
      as [Hne Hall].
    fold (duration_profile cfg) in Hne, Hall.
    destruct (choices_ok (List.map fst (duration_profile cfg))
                (List.map snd (duration_profile cfg)) rnd pos Hne)
      as (name & Hc & Hin).
    rewrite Forall_forall in Hall. destruct (Hall name Hin) as (d & Hd & Hlo & Hhi).
    exists name, d. unfold bind. rewrite Hc. unfold lift, dict_index. rewrite Hd.
    auto.
  - intros Hnone cfg' Hmedium. rewrite !_pick_duration_profile.
    unfold duration_profile. rewrite Hnone, Hmedium. reflexivity.
Qed.

(** X14 (witness): a variety that is no entry of the table. *)
Lemma pick_duration_total_witness :
  _pick_duration unknown_variety_config
    (constant_source 0.5) 0%nat
  = _pick_duration default_config (constant_source 0.5) 0%nat.
Proof.
  apply (proj2 (pick_duration_total
                  unknown_variety_config
                  (constant_source 0.5) 0)).
  - reflexivity.
  - reflexivity.
Defined.

(* ------------------------------------------------------------------ *)
(** ** From a dictionary and back *)

Lemma construct_inv (d : gmap string pyval) (o : ConfigObject) :
  construct d = Ok o ->
  (forall k, is_Some (d !! k) -> k ∈ field_names) /\
  forall name,
    attribute o name =
    match d !! name with
    | Some v => Some v
    | None => attribute (object_of default_config) name
    end.
Proof.
  intros Hc.
  assert (Hkeys : forall k, is_Some (d !! k) -> k ∈ field_names).
  { apply keys_check. unfold construct in Hc.
    destruct (forallb _ (map_to_list d)); [reflexivity | discriminate]. }
  split; [exact Hkeys|].
  destruct (construct_ok d Hkeys) as (o' & Ho' & Hattr).
  assert (o' = o) as -> by congruence. exact Hattr.
Qed.

Ltac field_name := apply list_elem_of_In; simpl; tauto.

(** X15.  The round trip in the other direction: when a dictionary holds
    all twelve fields, its [octave_range] as a list, and [from_dict]
    builds from it an instance whose attributes conform to the
    annotations, [to_dict] of that configuration is the dictionary
    itself. *)
Theorem to_dict_from_dict (d : gmap string pyval) (o : ConfigObject)
    (cfg : SequenceConfig) :
  from_dict d = Ok o ->
  config_of o = Some cfg ->
  (forall name, name ∈ field_names -> is_Some (d !! name)) ->
  (exists l, d !! "octave_range" = Some (PList l)) ->
  to_dict cfg = d.
Proof.
  intros Hfrom Hcfg Hall [l Hl].
  unfold from_dict in Hfrom. rewrite Hl in Hfrom. cbn [py_tuple] in Hfrom.
  apply construct_inv in Hfrom. destruct Hfrom as [Hkeys Hattr].
  assert (Hkeys' : forall k, is_Some (d !! k) -> k ∈ field_names).
  { eapply keys_insert_present; eauto. }
  assert (Hval : forall name, name ∈ field_names ->
            name <> "octave_range"%string ->
            d !! name = attribute o name).
  { intros name Hin Hne. rewrite Hattr, lookup_insert_ne by congruence.
    destruct (Hall name Hin) as [v ->]. reflexivity. }
  assert (Hoct : attribute o "octave_range" = Some (PTuple l)).
  { rewrite Hattr, lookup_insert_eq. reflexivity. }
  unfold attribute, attributes in Hval, Hoct. cbn [dict_get] in Hoct.
  change (("octave_range" =? "key")%string) with false in Hoct.
  simpl in Hoct.
  pose proof (Hval "key"%string ltac:(field_name) ltac:(discriminate)) as Hkey.
  pose proof (Hval "scale"%string ltac:(field_name) ltac:(discriminate)) as Hscale.
  pose proof (Hval "tempo"%string ltac:(field_name) ltac:(discriminate)) as Htempo.
  pose proof (Hval "time_signature_num"%string ltac:(field_name) ltac:(discriminate)) as Hnum.
  pose proof (Hval "time_signature_den"%string ltac:(field_name) ltac:(discriminate)) as Hden.
  pose proof (Hval "num_bars"%string ltac:(field_name) ltac:(discriminate)) as Hbars.
  pose proof (Hval "rhythm_pattern"%string ltac:(field_name) ltac:(discriminate)) as Hrhythm.
  pose proof (Hval "note_duration_variety"%string ltac:(field_name) ltac:(discriminate)) as Hvar.
  pose proof (Hval "rest_probability"%string ltac:(field_name) ltac:(discriminate)) as Hrest.
  pose proof (Hval "velocity_variation"%string ltac:(field_name) ltac:(discriminate)) as Hvv.
  pose proof (Hval "instrument"%string ltac:(field_name) ltac:(discriminate)) as Hinst.
  simpl in Hkey, Hscale, Htempo, Hnum, Hden, Hbars, Hrhythm, Hvar, Hrest, Hvv, Hinst.
  clear Hval Hattr.
  destruct o as [ok os ot on od ob oo or ov op ovv oi].
  cbn [o_key o_scale o_tempo o_time_signature_num o_time_signature_den
       o_num_bars o_octave_range o_rhythm_pattern o_note_duration_variety
       o_rest_probability o_velocity_variation o_instrument] in *.
  injection Hoct as ->.
  unfold config_of in Hcfg.
  cbn [o_key o_scale o_tempo o_time_signature_num o_time_signature_den
       o_num_bars o_octave_range o_rhythm_pattern o_note_duration_variety
       o_rest_probability o_velocity_variation o_instrument] in Hcfg.
  destruct ok; try discriminate. destruct os; try discriminate.
  destruct ot; try discriminate. destruct on; try discriminate.
  destruct od; try discriminate. destruct ob; try discriminate.
  destruct l as [|[] [|[] [|]]]; try discriminate.
  destruct or; try discriminate. destruct ov; try discriminate.
  destruct op; try discriminate. destruct ovv; try discriminate.
  destruct oi; try discriminate.
  injection Hcfg as <-.
  apply map_eq. intros i.
  destruct (decide (i ∈ field_names)) as [Hin|Hout].
  - apply list_elem_of_In in Hin. simpl in Hin.
    repeat (destruct Hin as [<-|Hin];
            [first [rewrite Hkey | rewrite Hscale | rewrite Htempo | rewrite Hnum
                   | rewrite Hden | rewrite Hbars | rewrite Hl | rewrite Hrhythm
                   | rewrite Hvar | rewrite Hrest | rewrite Hvv | rewrite Hinst];
             vm_compute; reflexivity |]).
    contradiction.
  - assert (Hnone : d !! i = None).
    { destruct (d !! i) as [v|] eqn:Hv; [|reflexivity].
      exfalso. apply Hout, Hkeys'. eauto. }
    rewrite Hnone. unfold to_dict. cbn [list_to_map foldr fst snd].
    repeat (rewrite lookup_insert_ne by (intros <-; apply Hout; field_name)).
    apply lookup_empty.
Qed.

(** X15 (witness): the dictionary of the default configuration. *)
Lemma to_dict_from_dict_witness :
  to_dict default_config = default_dict.
Proof.
  apply (to_dict_from_dict default_dict (object_of default_config) default_config).
  - vm_compute. reflexivity.
  - reflexivity.
  - intros name Hin. apply list_elem_of_In in Hin. simpl in Hin.
    repeat (destruct Hin as [<-|Hin]; [eexists; vm_compute; reflexivity|]).
    contradiction.
  - eexists. vm_compute. reflexivity.
Defined.

(* ------------------------------------------------------------------ *)
(** ** The batch generator *)

Lemma batch_config_ok (randomize : bool) (rnd : RandomSource) (pos : nat) :
  valid_draws rnd ->
  exists cfg pos1,
    (if randomize then SequenceConfig_random else ret default_config) rnd pos
      = Ok (cfg, pos1) /\
    0 < tempo cfg /\
    (exists p ps, _get_scale_notes cfg = Ok (p :: ps)) /\
    (iterations_bound cfg <= 600)%nat.
Proof.
  intros Hrnd. destruct randomize.
  - destruct (SequenceConfig_random_ok rnd pos Hrnd) as (cfg & Hc & Hp).
    exists cfg, (pos + 12)%nat. split; [exact Hc|].
    pose proof Hp as (_ & _ & Ht & _).
    split; [lia|]. split; [apply from_the_pools_nonempty, Hp|].
    apply from_the_pools_bound, Hp.
  - exists default_config, pos. split; [reflexivity|].
    split; [simpl; lia|]. split.
    + eexists _, _. vm_compute. reflexivity.
    + vm_compute. lia.
Qed.

Lemma makedirs_inv (dir : string) (w w0 : World) :
  makedirs dir w = Ok w0 ->
  w_files w0 = w_files w /\ w_refused w0 = w_refused w.
Proof.
  unfold makedirs. destruct (String.eqb dir EmptyString); [discriminate|].
  destruct (w_refused w (MakeDir dir)); [discriminate|].
  intros [= <-]. auto.
Qed.

Lemma write_file_inv (path : string) (c : FileContent) (w w1 : World) :
  write_file path c w = Ok w1 ->
  w_files w1 = <[ path := c ]> (w_files w) /\
  w_dirs w1 = w_dirs w /\ w_refused w1 = w_refused w.
Proof.
  unfold write_file. destruct (w_refused w (WriteFile path)); [discriminate|].
  intros [= <-]. auto.
Qed.

Lemma write_file_ok (path : string) (c : FileContent) (w : World) :
  w_refused w (WriteFile path) = None ->
  exists w1, write_file path c w = Ok w1.
Proof. intros H. unfold write_file. rewrite H. eauto. Qed.

Lemma print_inv (line : Printed) (w w1 : World) :
  print line w = Ok w1 ->
  w_files w1 = w_files w /\ w_dirs w1 = w_dirs w /\ w_refused w1 = w_refused w.
Proof.
  unfold print. destruct (w_refused w (PrintLine line)); [discriminate|].
  intros [= <-]. auto.
Qed.

Lemma print_ok (line : Printed) (w : World) :
  w_refused w (PrintLine line) = None ->
  exists w1, print line w = Ok w1.
Proof. intros H. unfold print. rewrite H. eauto. Qed.

(** The progress line of every tenth sequence. *)
Lemma progress_inv (i count : Z) (w w1 : World) :
  (if (i + 1) mod 10 =? 0 then print (Progress (i + 1) count) w else Ok w) = Ok w1 ->
  w_files w1 = w_files w /\ w_dirs w1 = w_dirs w /\ w_refused w1 = w_refused w.
Proof.
  destruct ((i + 1) mod 10 =? 0); [apply print_inv|].
  intros [= <-]. auto.
Qed.

Lemma progress_ok (i count : Z) (w : World) :
  (forall c, w_refused w c = None) ->
  exists w1,
    (if (i + 1) mod 10 =? 0 then print (Progress (i + 1) count) w else Ok w) = Ok w1.
Proof.
  intros H. destruct ((i + 1) mod 10 =? 0); [apply print_ok, H | eauto].
Qed.

(** What the loop adds for the indices it runs over, on a platform that
    refuses nothing. *)
Lemma batch_loop_returns (fuel : nat) (count : Z) (output_dir : string)
    (randomize : bool) (ids : nat -> string) (rnd : RandomSource) :
  valid_draws rnd ->
  (600 <= fuel)%nat ->
  forall indices w results pos,
    (forall c, w_refused w c = None) ->
    exists w' added pos',
      batch_loop fuel count output_dir randomize ids indices w results rnd pos
        = Ok ((w', results ++ added), pos') /\
      length added = length indices /\
      (forall k i entry,
          indices !! k = Some i -> added !! k = Some entry ->
          entry_id entry = ids (Z.to_nat i) /\
          entry_filename entry = String.append (ids (Z.to_nat i)) ".mid" /\
          entry_file_path entry = path_join output_dir (entry_filename entry)) /\
      w_dirs w' = w_dirs w /\
      w_refused w' = w_refused w.
Proof.
  intros Hrnd Hfuel.
  induction indices as [|i indices IH]; intros w results pos Hfs.
  - exists w, [], pos. simpl. rewrite app_nil_r. unfold ret.
    split; [reflexivity|]. split; [reflexivity|]. split; [|split; reflexivity].
    intros k j entry Hk. destruct k; discriminate.
  - destruct (batch_config_ok randomize rnd pos Hrnd)
      as (cfg & pos1 & Hcfg & Htempo & (p & ps & Hsn) & Hbound).
    destruct (generate_returns fuel cfg rnd pos1 (p :: ps)) as (r & pos2 & Hgen);
      [exact Htempo | exact Hsn | left; discriminate | exact Hrnd | lia |].
    cbn [batch_loop]. unfold bind at 1. rewrite Hcfg.
    unfold bind at 1. rewrite Hgen.
    set (path := path_join output_dir (String.append (ids (Z.to_nat i)) ".mid")).
    destruct (write_file_ok path (MidiFile (fst r)) w (Hfs _)) as [w1 Hw1].
    unfold bind at 1, lift at 1. rewrite Hw1.
    destruct (write_file_inv _ _ _ _ Hw1) as (_ & Hdirs1 & Hden1).
    destruct (progress_ok i count w1) as [w2 Hw2].
    { intros c. rewrite Hden1. apply Hfs. }
    unfold bind at 1, lift at 1. rewrite Hw2.
    destruct (progress_inv _ _ _ _ Hw2) as (_ & Hdirs2 & Hden2).
    match goal with
    | |- context [batch_loop _ _ _ _ _ indices w2 (results ++ [?e])] =>
        destruct (IH w2 (results ++ [e]) pos2)
          as (w' & added & pos' & Hloop & Hlen & Hentries & Hdirs & Hden);
        [|exists w', (e :: added), pos']
    end.
    { intros c. rewrite Hden2, Hden1. apply Hfs. }
    rewrite <- app_assoc in Hloop. simpl in Hloop.
    split; [exact Hloop|]. split; [simpl; lia|]. split; [|split].
    + intros [|n] j entry Hk He; simpl in Hk, He.
      * injection Hk as <-. injection He as <-. simpl. auto.
      * eapply Hentries; eauto.
    + congruence.
    + congruence.
Qed.

(** X16.  [generate_batch] fails only where the platform does.  The
    empty path as output directory raises [OSError] (it names no
    directory), and so does every output directory that [os.makedirs]
    refuses, with the exception of the refusal, before anything is
    generated.  On a platform that refuses no call, with an output
    directory other than the empty path, draws of [[0, 1)] and 600
    iterations allowed per bar, [generate_batch] returns, with random
    configurations or with the default one: as many results as [count]
    asks for (none for a negative count), result number [k] carrying the
    identifier of call [k], the file name [id.mid] and the path of that
    name in the output directory; and the manifest file, written last,
    holds exactly the returned list. *)
Theorem generate_batch_returns (fuel : nat) (count : Z) (output_dir : string)
    (randomize : bool) (ids : nat -> string) (w : World) (rnd : RandomSource)
    (pos : nat) :
  (output_dir = EmptyString ->
   generate_batch fuel count output_dir randomize ids w rnd pos = Raise OSError)
  /\ (forall e,
        output_dir <> EmptyString ->
        w_refused w (MakeDir output_dir) = Some e ->
        generate_batch fuel count output_dir randomize ids w rnd pos = Raise e)
  /\ (valid_draws rnd ->
      (600 <= fuel)%nat ->
      output_dir <> EmptyString ->
      (forall c, w_refused w c = None) ->
      exists w' results pos',
        generate_batch fuel count output_dir randomize ids w rnd pos
          = Ok ((w', results), pos') /\
        Z.of_nat (length results) = Z.max 0 count /\
        (forall (k : nat) entry,
            results !! k = Some entry ->
            entry_id entry = ids k /\
            entry_filename entry = String.append (ids k) ".mid" /\
            entry_file_path entry = path_join output_dir (entry_filename entry)) /\
        w_files w' !! path_join output_dir "manifest.json" = Some (JsonFile results)).
Proof.
  split; [|split].
  - intros ->. reflexivity.
  - intros e Hdir Hrefused. unfold generate_batch, bind, lift, makedirs.
    destruct (String.eqb_spec output_dir EmptyString) as [H|_]; [contradiction|].
    rewrite Hrefused. reflexivity.
  - intros Hrnd Hfuel Hdir Hfs.
    assert (Hmk : exists w0, makedirs output_dir w = Ok w0).
    { unfold makedirs. rewrite Hfs.
      destruct (String.eqb_spec output_dir EmptyString) as [H|_]; [contradiction|].
      eauto. }
    destruct Hmk as [w0 Hw0].
    destruct (makedirs_inv _ _ _ Hw0) as [_ Hden0].
    destruct (batch_loop_returns fuel count output_dir randomize ids rnd Hrnd Hfuel
                (py_range 0 count) w0 [] pos)
      as (w1 & added & pos' & Hloop & Hlen & Hentries & _ & Hden1).
    { intros c. rewrite Hden0. apply Hfs. }
    simpl in Hloop.
    destruct (write_file_ok (path_join output_dir "manifest.json") (JsonFile added) w1)
      as [w2 Hw2].
    { rewrite Hden1, Hden0. apply Hfs. }
    destruct (write_file_inv _ _ _ _ Hw2) as (Hfiles2 & _ & Hden2).
    destruct (print_ok (Summary count output_dir) w2) as [w3 Hw3].
    { rewrite Hden2, Hden1, Hden0. apply Hfs. }
    destruct (print_inv _ _ _ Hw3) as (Hfiles3 & _ & Hden3).
    destruct (print_ok (ManifestSaved (path_join output_dir "manifest.json")) w3)
      as [w4 Hw4].
    { rewrite Hden3, Hden2, Hden1, Hden0. apply Hfs. }
    destruct (print_inv _ _ _ Hw4) as (Hfiles4 & _ & _).
    exists w4, added, pos'. split.
    + unfold generate_batch. unfold bind at 1, lift at 1. rewrite Hw0.
      unfold bind at 1. rewrite Hloop.
      cbn [fst snd].
      unfold bind at 1, lift at 1. rewrite Hw2.
      unfold bind at 1, lift at 1. rewrite Hw3.
      unfold bind at 1, lift at 1. rewrite Hw4.
      reflexivity.
    + split; [rewrite Hlen; apply length_py_range|]. split.
      * intros k entry Hk.
        assert (Hi : py_range 0 count !! k = Some (Z.of_nat k)).
        { apply lookup_lt_Some in Hk. rewrite Hlen in Hk.
          unfold py_range in *. rewrite length_map, length_seq in Hk.
          rewrite list_lookup_fmap, lookup_seq_lt by exact Hk. reflexivity. }
        destruct (Hentries k (Z.of_nat k) entry Hi Hk) as (H1 & H2 & H3).
        rewrite Nat2Z.id in H1, H2. auto.
      * rewrite Hfiles4, Hfiles3, Hfiles2. apply lookup_insert_eq.
Qed.

(** X16 (witness): two random sequences into ["out"], on a platform that
    refuses nothing and on one that refuses every call. *)
Lemma generate_batch_returns_witness :
  (exists w' results pos',
      generate_batch 600 2 "out" true numbered_ids empty_world
        (constant_source 0.5) 0%nat = Ok ((w', results), pos') /\
      Z.of_nat (length results) = Z.max 0 2 /\
      w_files w' !! "out/manifest.json"%string = Some (JsonFile results))
  /\ generate_batch 600 2 "out" true numbered_ids read_only_world
       (constant_source 0.5) 0%nat = Raise OSError.
Proof.
  split.
  - destruct (proj2 (proj2 (generate_batch_returns 600 2 "out" true numbered_ids
                              empty_world (constant_source 0.5) 0))
                half_draws_valid ltac:(lia) ltac:(discriminate) ltac:(reflexivity))
      as (w' & results & pos' & H & Hlen & _ & Hm).
    exists w', results, pos'. repeat split; assumption.
  - apply (proj1 (proj2 (generate_batch_returns 600 2 "out" true numbered_ids
                           read_only_world (constant_source 0.5) 0))).
    + discriminate.
    + reflexivity.
Defined.

Lemma generate_counted fuel cfg rnd pos r pos' :
  generate fuel cfg rnd pos = Ok (r, pos') ->
  file_matches (MidiFile (fst r)) (snd r).
Proof.
  intros Hgen. destruct r as [pm md]. apply generate_inv in Hgen.
  destruct Hgen as (sn & qd & st & _ & _ & Hb & -> & ->).
  eapply (fill_bars_preserves cfg sn qd rnd counted) in Hb.
  - destruct Hb as (Hn & _). eexists _, _. simpl.
    split; [reflexivity|]. split; [reflexivity|]. exact Hn.
  - intros be p0 s s' p1. apply counted_slot.
  - repeat split.
Qed.

Lemma batch_loop_files (fuel : nat) (count : Z) (output_dir : string)
    (randomize : bool) (ids : nat -> string) (rnd : RandomSource) :
  forall indices w results pos w' results' pos',
    batch_loop fuel count output_dir randomize ids indices w results rnd pos
      = Ok ((w', results'), pos') ->
    files_in_place w results -> files_in_place w' results'.
Proof.
  induction indices as [|i indices IH]; intros w results pos w' results' pos'.
  - simpl. unfold ret. intros [= <- <- <-]. tauto.
  - cbn [batch_loop]. unfold bind at 1.
    destruct ((if randomize then SequenceConfig_random else ret default_config) rnd pos)
      as [[cfg pos1]| |]; try discriminate.
    unfold bind at 1.
    destruct (generate fuel cfg rnd pos1) as [[r pos2]| |] eqn:Hgen; try discriminate.
    set (path := path_join output_dir (String.append (ids (Z.to_nat i)) ".mid")).
    unfold bind at 1, lift at 1.
    destruct (write_file path (MidiFile (fst r)) w) as [w1| |] eqn:Hw1;
      try discriminate.
    apply write_file_inv in Hw1. destruct Hw1 as (Hfiles1 & _ & _).
    unfold bind at 1, lift at 1.
    destruct (if (i + 1) mod 10 =? 0 then print (Progress (i + 1) count) w1 else Ok w1)
      as [w2| |] eqn:Hw2; try discriminate.
    apply progress_inv in Hw2. destruct Hw2 as (Hfiles2 & _ & _).
    intros Hloop Hinv. eapply IH; [exact Hloop|]. clear Hloop IH.
    assert (Hw : w_files w2 = <[ path := MidiFile (fst r) ]> (w_files w))
      by congruence.
    clear Hfiles1 Hfiles2.
    intros k entry Hk Hlater. rewrite Hw.
    apply lookup_snoc_Some in Hk. destruct Hk as [[Hlt Hk] | [Hk <-]].
    + assert (Hne : path <> entry_file_path entry).
      { intros Heq. eapply (Hlater (length results)); [exact Hlt | |].
        - apply list_lookup_middle. reflexivity.
        - simpl. exact Heq. }
      destruct (Hinv k entry Hk) as (c & Hc & Hm).
      { intros j entry' Hj Hj'.
        apply (Hlater j entry' Hj). apply lookup_app_l_Some. exact Hj'. }
      exists c. rewrite lookup_insert_ne by exact Hne. auto.
    + simpl. fold path. eexists. rewrite lookup_insert_eq.
      split; [reflexivity|]. eapply generate_counted, Hgen.
Qed.

(** X17.  What [generate_batch] leaves on disk agrees with what it
    returns: when the paths of the results are pairwise distinct and
    distinct from the path of the manifest, every returned entry has its
    MIDI file at its [file_path], a file of one track holding as many
    notes as the [note_count] of the entry. *)
Theorem generate_batch_files (fuel : nat) (count : Z) (output_dir : string)
    (randomize : bool) (ids : nat -> string) (w : World) (rnd : RandomSource)
    (pos : nat) (w' : World) (results : list BatchEntry) (pos' : nat) :
  generate_batch fuel count output_dir randomize ids w rnd pos
    = Ok ((w', results), pos') ->
  NoDup (path_join output_dir "manifest.json" :: List.map entry_file_path results) ->
  forall entry,
    entry ∈ results ->
    exists c,
      w_files w' !! entry_file_path entry = Some c /\
      file_matches c (entry_metadata entry).
Proof.
  unfold generate_batch. unfold bind at 1, lift at 1.
  destruct (makedirs output_dir w) as [w0| |] eqn:Hw0; try discriminate.
  unfold bind at 1.
  destruct (batch_loop fuel count output_dir randomize ids (py_range 0 count)
              w0 [] rnd pos) as [[[w1 res] pos1]| |] eqn:Hloop;
    try discriminate.
  cbn [fst snd]. unfold bind at 1, lift at 1.
  destruct (write_file (path_join output_dir "manifest.json") (JsonFile res) w1)
    as [w2| |] eqn:Hw2; try discriminate.
  apply write_file_inv in Hw2. destruct Hw2 as (Hfiles2 & _ & _).
  unfold bind at 1, lift at 1.
  destruct (print (Summary count output_dir) w2) as [w3| |] eqn:Hw3;
    try discriminate.
  apply print_inv in Hw3. destruct Hw3 as (Hfiles3 & _ & _).
  unfold bind at 1, lift at 1.
  destruct (print (ManifestSaved (path_join output_dir "manifest.json")) w3)
    as [w4| |] eqn:Hw4; try discriminate.
  apply print_inv in Hw4. destruct Hw4 as (Hfiles4 & _ & _).
  unfold ret. intros [= <- <- <-] Hnd entry Hin.
  apply NoDup_cons in Hnd. destruct Hnd as [Hmanifest Hnd].
  apply batch_loop_files in Hloop.
  2: { intros k e Hk. destruct k; discriminate. }
  apply list_elem_of_lookup in Hin. destruct Hin as [k Hk].
  destruct (Hloop k entry Hk) as (c & Hc & Hmatch).
  - intros j entry' Hj Hj' Heq.
    assert (Hkj : k = j); [|lia].
    eapply (NoDup_lookup (List.map entry_file_path res)); [exact Hnd | |].
    + rewrite list_lookup_fmap, Hk. reflexivity.
    + rewrite list_lookup_fmap, Hj'. simpl. f_equal. exact Heq.
  - exists c. split; [|exact Hmatch]. rewrite Hfiles4, Hfiles3, Hfiles2.
    rewrite lookup_insert_ne; [exact Hc|].
    intros Heq. apply Hmanifest. rewrite Heq.
    apply list_elem_of_fmap. exists entry. split; [reflexivity|].
    apply list_elem_of_lookup. eauto.
Qed.

(** A concrete batch used by the witness: two sequences of the default
    configuration into ["out"], named seq0 and seq1. *)
Lemma batch_run :
  exists w' e0 e1 pos',
    generate_batch 8 2 "out" false numbered_ids empty_world
      (constant_source 0.5) 0%nat = Ok ((w', [e0; e1]), pos') /\
    entry_file_path e0 = "out/seq0.mid"%string /\
    entry_file_path e1 = "out/seq1.mid"%string.
Proof.
  eexists _, _, _, _. split; [vm_compute; reflexivity|].
  split; reflexivity.
Qed.

(** X17 (witness). *)
Lemma generate_batch_files_witness :
  exists w' results pos' entry c,
    generate_batch 8 2 "out" false numbered_ids empty_world
      (constant_source 0.5) 0%nat = Ok ((w', results), pos') /\
    entry_file_path entry = "out/seq0.mid"%string /\
    w_files w' !! "out/seq0.mid"%string = Some c /\
    file_matches c (entry_metadata entry).
Proof.
  destruct batch_run as (w' & e0 & e1 & pos' & E & H0 & H1).
  destruct (generate_batch_files _ _ _ _ _ _ _ _ _ _ _ E) with (entry := e0)
    as (c & Hc & Hm).
  - simpl. rewrite H0, H1. apply NoDup_ListNoDup.
    repeat constructor; simpl; intuition discriminate.
  - left.
  - exists w', [e0; e1], pos', e0, c. rewrite H0 in Hc. auto.
Defined.
